(** * luigi/contrib/sge_runner.py: the compute-node bootstrap

    A shallow embedding of the functions of the runner
    ([_extract_packages_archive], [_do_work_on_compute_node], [main], and
    the job log [rnr_log]) as computations in a state-and-exception monad over an explicit model of
    the process: file system, working directory, [sys.path], the two
    output streams and a trace of the calls that touch the outside.

    The Python library calls ([os], [tarfile], [pickle], [time],
    [logging]) are given a POSIX-style model in [Module Posix] and at the
    head of [Section Runner]; the archive format, the pickle format, the
    clock and the task's [work] method are opaque and enter as Section
    variables.  There are no symbolic links.  A path given to the
    operating system ([os.path.exists], [os.chdir], [open]) is followed
    through the file system ([Posix.walk]): [x/..], [x/.] and [x/] name
    something only where [x] is a directory.  Paths that Python works out
    itself ([os.path.abspath], the members of an archive, the levels of
    [os.makedirs]) are resolved on the string ([Path.resolve]).  The
    handler of [main] is [except Exception]: exceptions are told apart by
    the name of their class ([is_exception]), and every class but
    [SystemExit], [KeyboardInterrupt] and [GeneratorExit] is taken to
    derive from [Exception].  [tar.close()] has no effect in the model,
    and an archive is read as a whole when it is opened.  [rnr_log] is never called
    (its call in [main] is commented out); it is modelled on its own in
    [Module JobLog], with the environment variables as an argument and
    [int] and [str] as Section variables.  File permissions are not
    modelled: every directory can be written to. *)

From Stdlib Require Import ZArith Ascii String.
From stdpp Require Import base list strings gmap.

Open Scope string_scope.
Open Scope list_scope.

(** ** Path strings *)

Module Path.

(** A location is an absolute path in canonical form: the components
    from the root down, [[]] being the root directory. *)
Definition loc := list string.

Definition is_slash (c : Ascii.ascii) : bool := bool_decide (c = "/"%char).

(** [str.split("/")]: the pieces between slashes, never the empty list. *)
Fixpoint split_slash (s : string) : list string :=
  match s with
  | EmptyString => [EmptyString]
  | String c s' =>
      if is_slash c then EmptyString :: split_slash s'
      else match split_slash s' with
           | [] => [String c EmptyString]
           | hd :: tl => String c hd :: tl
           end
  end.

Definition startswith_slash (s : string) : bool :=
  match s with
  | String c _ => is_slash c
  | EmptyString => false
  end.

Fixpoint endswith_slash (s : string) : bool :=
  match s with
  | EmptyString => false
  | String c EmptyString => is_slash c
  | String _ s' => endswith_slash s'
  end.

(** [posixpath.join(a, b)] for two arguments. *)
Definition join (a b : string) : string :=
  if startswith_slash b then b
  else if bool_decide (a = "") || endswith_slash a then a +:+ b
  else a +:+ "/" +:+ b.

(** Where one component of a path leads from [cur]; symbolic links are
    not modelled, so [..] is the parent, as in [os.path.normpath].
    Whether the step can be taken is for [Posix.walk] to say. *)
Definition step (cur : loc) (c : string) : loc :=
  if bool_decide (c = "") || bool_decide (c = ".") then cur
  else if bool_decide (c = "..") then removelast cur
  else cur ++ [c].

(** The location a path string points to when the working directory is
    [cwd], by its components alone, as [os.path.normpath] reads it.  The
    empty string names nothing (ENOENT).  Whether the file system lets
    the path be followed is not asked here: [Posix.locate] does. *)
Definition resolve (cwd : loc) (p : string) : option loc :=
  if bool_decide (p = "") then None
  else Some (foldl step (if startswith_slash p then [] else cwd)
                   (split_slash p)).

(** The string of a location, as [os.getcwd] returns it. *)
Definition render (l : loc) : string :=
  match l with
  | [] => "/"
  | _ => foldr (λ c acc, "/" +:+ c +:+ acc) "" l
  end.

(** The string of a location below the root: a slash before each component. *)
Definition render_tail (l : loc) : string :=
  foldr (λ c acc, "/" +:+ c +:+ acc) "" l.

(** [os.path.abspath(p)] = [normpath(join(getcwd(), p))]. *)
Definition abspath (cwd : loc) (p : string) : string :=
  render (foldl step (if startswith_slash p then [] else cwd)
                (split_slash p)).

Fixpoint no_slash (s : string) : bool :=
  match s with
  | EmptyString => true
  | String c s' => negb (is_slash c) && no_slash s'
  end.

(** A plain component: a file name, not [""], ["."], [".."], no slash. *)
Definition plain (c : string) : bool :=
  no_slash c && negb (bool_decide (c = "")) &&
  negb (bool_decide (c = ".")) && negb (bool_decide (c = "..")).

Definition canonical (l : loc) : bool := forallb plain l.

End Path.

(** ** The process and its surroundings *)

Inductive node :=
  | Dir
  | File (data : string).

(** What a [raise] carries: the name of its class and what [str(e)]
    gives. *)
Record exn := Exn { exn_class : string; exn_str : string }.

(** [isinstance(e, Exception)].  Of the built-in classes [SystemExit],
    [KeyboardInterrupt] and [GeneratorExit] lie outside [Exception]; a
    class is told by its name, and every other class is taken to derive
    from [Exception], as user-defined ones are asked to. *)
Definition is_exception (e : exn) : bool :=
  negb (bool_decide (exn_class e ∈ ["SystemExit"; "KeyboardInterrupt";
                                    "GeneratorExit"])).

(** A member of a tar archive: its name as stored, and its data ([None]
    for a directory member). *)
Record member := Member { m_name : string; m_data : option string }.

(** Calls that reach outside the interpreter, in the order made. *)
Inductive event :=
  | EvExists (p : string)            (* os.path.exists(p) *)
  | EvChdir (p : string)             (* os.chdir(p) *)
  | EvTarOpen (p : string)           (* tarfile.open(p) *)
  | EvExtract (m : member)           (* tar.extract(m) *)
  | EvOpen (p : string)              (* open(p, "r") *)
  | EvLoad                           (* pickle.load(f) *)
  | EvWork (at_cwd : Path.loc).      (* job.work(), and the cwd it starts in *)

(** What the task's own code can see and change. *)
Record env := Env {
  fs : gmap Path.loc node;
  cwd : Path.loc;
  sys_path : list string;
}.

Record world := World {
  w_env : env;
  stdout : list string;     (* what the runner printed, one entry per print *)
  stderr : list string;     (* what the runner wrote with sys.stderr.write *)
  trace : list event;
  clock_reads : nat;        (* how often the clock has been read *)
  log_level : option string (* root logger level once configured *)
}.

Definition set_env (f : env → env) (w : world) : world :=
  World (f (w_env w)) (stdout w) (stderr w) (trace w) (clock_reads w) (log_level w).
Definition set_fs (m : gmap Path.loc node) (e : env) : env :=
  Env m (cwd e) (sys_path e).
Definition set_cwd (l : Path.loc) (e : env) : env :=
  Env (fs e) l (sys_path e).
Definition set_sys_path (sp : list string) (e : env) : env :=
  Env (fs e) (cwd e) sp.
Definition log_event (ev : event) (w : world) : world :=
  World (w_env w) (stdout w) (stderr w) (trace w ++ [ev]) (clock_reads w) (log_level w).

Definition w_fs (w : world) := fs (w_env w).
Definition w_cwd (w : world) := cwd (w_env w).
Definition w_sys_path (w : world) := sys_path (w_env w).

(** ** State and exceptions *)

Inductive result (A : Type) :=
  | Ok (a : A)
  | Raised (e : exn).
Arguments Ok {A} a.
Arguments Raised {A} e.

Definition M (A : Type) : Type := world → world * result A.

Definition ret {A} (a : A) : M A := λ w, (w, Ok a).
Definition raise {A} (e : exn) : M A := λ w, (w, Raised e).
Definition bind {A B} (m : M A) (k : A → M B) : M B :=
  λ w, match m w with
       | (w', Ok a) => k a w'
       | (w', Raised e) => (w', Raised e)
       end.
Definition modify (f : world → world) : M unit := λ w, (f w, Ok tt).
Definition when (b : bool) (m : M unit) : M unit := if b then m else ret tt.

Declare Scope py_scope.
Delimit Scope py_scope with py.
Notation "x <- m ;; k" := (bind m (λ x, k))
  (at level 100, m at next level, right associativity) : py_scope.
Notation "m ;; k" := (bind m (λ _, k))
  (at level 100, right associativity) : py_scope.
Open Scope py_scope.

(** [for x in xs: body(x)] *)
Fixpoint for_each {A} (xs : list A) (body : A → M unit) : M unit :=
  match xs with
  | [] => ret tt
  | x :: xs' => body x ;; for_each xs' body
  end.

(** ** The file system calls *)

Module Posix.

Definition lookup_node (m : gmap Path.loc node) (l : Path.loc) : option node :=
  match l with
  | [] => Some Dir
  | _ => m !! l
  end.

(** Following the components of a path from [cur], as the kernel does.
    The empty component, [.] and [..] can only be taken in a directory:
    [x/..] and [x/] name nothing unless [x] is one.  A name is followed
    without a look at the directory it is taken in: in a file system
    where every entry lies in a directory, what is below a missing entry
    or a regular file does not exist, so the look-up at the end of the
    walk fails where the kernel's walk would have stopped (lemma
    [node_at_kernel]). *)
Fixpoint walk (m : gmap Path.loc node) (cur : Path.loc) (comps : list string)
  : option Path.loc :=
  match comps with
  | [] => Some cur
  | c :: comps' =>
      if Path.plain c then walk m (cur ++ [c]) comps'
      else match lookup_node m cur with
           | Some Dir => walk m (Path.step cur c) comps'
           | _ => None
           end
  end.

(** Where the path [p] leads in the file system [m], from the root or
    from the working directory. *)
Definition locate (m : gmap Path.loc node) (cwd : Path.loc) (p : string)
  : option Path.loc :=
  if bool_decide (p = "") then None
  else walk m (if Path.startswith_slash p then [] else cwd) (Path.split_slash p).

(** What the path [p] names, if anything ([os.stat]). *)
Definition node_at (w : world) (p : string) : option node :=
  l ← locate (w_fs w) (w_cwd w) p; lookup_node (w_fs w) l.

(** The kernel's own walk, which wants a directory at every step, and
    what it finds at the end. *)
Fixpoint kernel_walk (m : gmap Path.loc node) (cur : Path.loc) (comps : list string)
  : option Path.loc :=
  match comps with
  | [] => Some cur
  | c :: comps' =>
      match lookup_node m cur with
      | Some Dir => kernel_walk m (Path.step cur c) comps'
      | _ => None
      end
  end.

(** Every entry lies in a directory. *)
Definition well_formed (m : gmap Path.loc node) : Prop :=
  ∀ l c, is_Some (m !! (l ++ [c])) → lookup_node m l = Some Dir.

Definition enoent (cls p : string) : exn :=
  Exn cls ("[Errno 2] No such file or directory: '" +:+ p +:+ "'").
Definition enotdir (cls p : string) : exn :=
  Exn cls ("[Errno 20] Not a directory: '" +:+ p +:+ "'").
Definition eisdir (cls p : string) : exn :=
  Exn cls ("[Errno 21] Is a directory: '" +:+ p +:+ "'").
Definition eexist (cls p : string) : exn :=
  Exn cls ("[Errno 17] File exists: '" +:+ p +:+ "'").

(** [os.path.exists(p)] *)
Definition exists_ (p : string) : M bool :=
  modify (log_event (EvExists p)) ;;
  λ w, (w, Ok (bool_decide (is_Some (node_at w p)))).

(** [os.getcwd()] *)
Definition getcwd : M string := λ w, (w, Ok (Path.render (w_cwd w))).

(** [os.path.abspath(p)] *)
Definition abspath (p : string) : M string :=
  λ w, (w, Ok (Path.abspath (w_cwd w) p)).

(** [os.chdir(p)].  A path that cannot be followed is reported as
    ENOENT (the kernel says ENOTDIR when it is a regular file that stops
    the walk; the class is the same). *)
Definition chdir (p : string) : M unit :=
  modify (log_event (EvChdir p)) ;;
  λ w, match locate (w_fs w) (w_cwd w) p with
       | None => (w, Raised (enoent "OSError" p))
       | Some l =>
           match lookup_node (w_fs w) l with
           | Some Dir => (set_env (set_cwd l) w, Ok tt)
           | Some (File _) => (w, Raised (enotdir "OSError" p))
           | None => (w, Raised (enoent "OSError" p))
           end
       end.

(** Reading the whole of a regular file named [p]. *)
Definition read_file (p : string) : M string :=
  λ w, match node_at w p with
       | Some (File data) => (w, Ok data)
       | Some Dir => (w, Raised (eisdir "IOError" p))
       | None => (w, Raised (enoent "IOError" p))
       end.

(** [os.makedirs] along the components [rest] below the existing
    directory [base]: missing directories are created, a regular file
    in the way is an error. *)
Fixpoint makedirs (m : gmap Path.loc node) (base : Path.loc) (rest : list string)
  : option (gmap Path.loc node) :=
  match rest with
  | [] => Some m
  | c :: rest' =>
      let l := base ++ [c] in
      match lookup_node m l with
      | Some Dir => makedirs m l rest'
      | Some (File _) => None
      | None => makedirs (<[l := Dir]> m) l rest'
      end
  end.

End Posix.

(** ** The runner

    The opaque parts: [task] is what [pickle.load] yields, [pickle_load]
    is deserialization (it may consult the file system and [sys.path] to
    find the task's code), [work] is the task's [work()] method,
    [tar_parse] reads the member list of an archive, [clock] gives the
    successive readings of the system clock and [fmt_seconds],
    [fmt_ctime] render a time difference and a date. *)

Section Runner.

Variable task : Type.
Variable pickle_load : env → string → result task.
Variable work : task → env → env * option exn.
Variable tar_parse : string → result (list member).
Variable clock : nat → Z.
Variable fmt_seconds : Z → string.
Variable fmt_ctime : Z → string.

(** The line terminator the source writes as a backslash-n escape. *)
Definition nl : string := String (ascii_of_nat 10) EmptyString.

(** [time()] *)
Definition time : M Z :=
  λ w, (World (w_env w) (stdout w) (stderr w) (trace w) (S (clock_reads w)) (log_level w),
        Ok (clock (clock_reads w))).

(** [ctime()] *)
Definition ctime : M string := t <- time ;; ret (fmt_ctime t).

(** [time() - start_time]; [start_time] is [None] unless [--debug] was given. *)
Definition elapsed (start_time : option Z) : M Z :=
  t <- time ;;
  match start_time with
  | Some t0 => ret (t - t0)%Z
  | None => raise (Exn "TypeError"
                       "unsupported operand type(s) for -: 'float' and 'NoneType'")
  end.

(** [sys.stderr.write(s)] *)
Definition stderr_write (s : string) : M unit :=
  modify (λ w, World (w_env w) (stdout w) (stderr w ++ [s]) (trace w)
                     (clock_reads w) (log_level w)).

(** [print(e)] *)
Definition print (e : exn) : M unit :=
  modify (λ w, World (w_env w) (stdout w ++ [exn_str e]) (stderr w) (trace w)
                     (clock_reads w) (log_level w)).

(** [logging.basicConfig(level=logging.WARN)]: no effect once configured. *)
Definition configure_logging (level : string) (w : world) : world :=
  match log_level w with
  | Some _ => w
  | None => World (w_env w) (stdout w) (stderr w) (trace w)
                  (clock_reads w) (Some level)
  end.

Definition logging_basicConfig (level : string) : M unit :=
  modify (configure_logging level).

(** [sys.path.append(p)] *)
Definition sys_path_append (p : string) : M unit :=
  modify (set_env (λ e, set_sys_path (sys_path e ++ [p]) e)).

(** [sys.path.insert(0, p)] *)
Definition sys_path_insert0 (p : string) : M unit :=
  modify (set_env (λ e, set_sys_path (p :: sys_path e) e)).

(** [p in sys.path] *)
Definition in_sys_path (p : string) : M bool :=
  λ w, (w, Ok (bool_decide (p ∈ w_sys_path w))).

(** [args[i]] *)
Definition index (args : list string) (i : nat) : M string :=
  match args !! i with
  | Some a => ret a
  | None => raise (Exn "IndexError" "list index out of range")
  end.

(** [assert cond, msg] *)
Definition assert_ (cond : bool) (msg : string) : M unit :=
  if cond then ret tt else raise (Exn "AssertionError" msg).

(** [tarfile.open(p)]: the archive is opened and its member list read. *)
Definition tarfile_open (p : string) : M (list member) :=
  modify (log_event (EvTarOpen p)) ;;
  data <- Posix.read_file p ;;
  λ w, (w, tar_parse data).

(** Where [tar.extract(m)] puts a member: its stored name, taken from the
    working directory. *)
Definition extract_target (w : world) (m : member) : option Path.loc :=
  Path.resolve (w_cwd w) (m_name m).

(** The file system after [tar.extract(m)]: the directories above the
    target are made, then the file is written (replacing a file of that
    name) or the directory made (an existing one is left alone). *)
Definition extract_into (m : gmap Path.loc node) (l : Path.loc) (data : option string)
  : option (gmap Path.loc node) :=
  m1 ← Posix.makedirs m [] (removelast l);
  match data, Posix.lookup_node m1 l with
  | Some _, Some Dir => None
  | Some d, _ => Some (<[l := File d]> m1)
  | None, Some _ => Some m1
  | None, None => Some (<[l := Dir]> m1)
  end.

(** [tar.extract(m)] *)
Definition tar_extract (m : member) : M unit :=
  modify (log_event (EvExtract m)) ;;
  λ w, match extract_target w m with
       | None => (w, Raised (Posix.enoent "IOError" (m_name m)))
       | Some l =>
           match extract_into (w_fs w) l (m_data m) with
           | Some m' => (set_env (set_fs m') w, Ok tt)
           | None => (w, Raised (Posix.eexist "OSError" (m_name m)))
           end
       end.

(** [with open(p, "r") as f: job = pickle.load(f)] *)
Definition open_and_load (p : string) : M task :=
  modify (log_event (EvOpen p)) ;;
  data <- Posix.read_file p ;;
  modify (log_event EvLoad) ;;
  λ w, (w, pickle_load (w_env w) data).

(** [job.work()] *)
Definition job_work (job : task) : M unit :=
  λ w, let w1 := log_event (EvWork (w_cwd w)) w in
       let (e', r) := work job (w_env w1) in
       (set_env (λ _, e') w1,
        match r with
        | None => Ok tt
        | Some e => Raised e
        end).

Definition blob_name (random_id : string) : string :=
  random_id +:+ ".job-instance.pickle".

(** Lines 80-85, the part of the extractor between its two [chdir]s:
    the archive is opened, every member extracted, the empty entry put in
    front of [sys.path] unless present. *)
Definition unpack (package_file : string) : M unit :=
  tar <- tarfile_open package_file ;;
  for_each tar tar_extract ;;
  has_empty <- in_sys_path "" ;;
  when (negb has_empty) (sys_path_insert0 "").

(** sge_runner.py, lines 72-87 *)
Definition _extract_packages_archive (work_dir : string) : M unit :=
  let package_file := Path.join work_dir "packages.tar" in
  present <- Posix.exists_ package_file ;;
  if negb present then ret tt
  else
    curdir <- Posix.abspath "." ;;
    Posix.chdir work_dir ;;
    tar <- tarfile_open package_file ;;
    for_each tar tar_extract ;;
    has_empty <- in_sys_path "" ;;
    when (negb has_empty) (sys_path_insert0 "") ;;
    Posix.chdir curdir.

(** sge_runner.py, lines 47-69 *)
Definition _do_work_on_compute_node
    (work_dir random_id : string) (tarball : bool)
    (start_time : option Z) (debug : bool) : M unit :=
  cwd0 <- Posix.getcwd ;;
  when tarball (_extract_packages_archive work_dir) ;;
  when debug (dt <- elapsed start_time ;;
              stderr_write ("extracted tar after " +:+ fmt_seconds dt +:+ " seconds" +:+ nl)) ;;
  Posix.chdir work_dir ;;
  job <- open_and_load (blob_name random_id) ;;
  when debug (dt <- elapsed start_time ;;
              stderr_write ("loaded pickled data after " +:+ fmt_seconds dt +:+ " seconds" +:+ nl)) ;;
  Posix.chdir cwd0 ;;
  job_work job.

Definition precondition_message : string :=
  "First argument to sge_runner.py must be a directory that exists".

(** The body of the [try] in [main], lines 116-130. *)
Definition main_try (args : list string) : M unit :=
  let debug := bool_decide ("--debug" ∈ args) in
  start_time <- (if debug
                 then t <- time ;;
                      now <- ctime ;;
                      stderr_write ("starting at " +:+ now +:+ nl) ;;
                      ret (Some t)
                 else ret None) ;;
  let tarball := bool_decide ("--tarball" ∈ args) in
  logging_basicConfig "WARN" ;;
  work_dir <- index args 1 ;;
  present <- Posix.exists_ work_dir ;;
  assert_ present precondition_message ;;
  project_dir <- index args 2 ;;
  sys_path_append project_dir ;;
  random_id <- index args 3 ;;
  _do_work_on_compute_node work_dir random_id tarball start_time debug.

(** sge_runner.py, lines 109-134: [except Exception as e: print(e); raise].
    What is not an instance of [Exception] passes the handler by. *)
Definition main (args : list string) : M unit :=
  λ w, match main_try args w with
       | (w', Raised e) =>
           if is_exception e
           then match print e w' with
                | (w'', _) => (w'', Raised e)
                end
           else (w', Raised e)
       | (w', Ok tt) => (w', Ok tt)
       end.

(** The world in which the staging directory is looked up: the clock read
    twice and the start line written when [--debug] is given, logging
    configured. *)
Definition after_prelude (debug : bool) (w : world) : world :=
  configure_logging "WARN"
    (if debug
     then World (w_env w) (stdout w)
                (stderr w ++ ["starting at " +:+ fmt_ctime (clock (S (clock_reads w))) +:+ nl])
                (trace w) (S (S (clock_reads w))) (log_level w)
     else w).

Definition start_time_of (debug : bool) (w : world) : option Z :=
  if debug then Some (clock (clock_reads w)) else None.

(** The world in which [main] calls [_do_work_on_compute_node]: the
    staging directory has been looked up and the project directory is at
    the end of [sys.path]. *)
Definition at_entry (debug : bool) (work_dir project_dir : string) (w : world) : world :=
  set_env (λ e, set_sys_path (sys_path e ++ [project_dir]) e)
          (log_event (EvExists work_dir) (after_prelude debug w)).

(** The archive the extractor opens, and where: it enters the staging
    directory [work_dir], which is at [sl], and opens [packages.tar] by
    the path it made before it went there; the file it finds holds the
    members [ms]. *)
Definition archive_at (w : world) (work_dir : string) (sl : Path.loc)
    (ms : list member) : Prop :=
  Posix.locate (w_fs w) (w_cwd w) work_dir = Some sl ∧
  ∃ data, Posix.node_at (set_env (set_cwd sl) w)
                        (Path.join work_dir "packages.tar") = Some (File data) ∧
          tar_parse data = Ok ms.

(** That archive has a member which, unpacked in the staging directory,
    is the regular file [d] at [bl]. *)
Definition shipped (w : world) (work_dir : string) (bl : Path.loc) (d : string) : Prop :=
  ∃ sl ms mb, archive_at w work_dir sl ms ∧ mb ∈ ms ∧
              Path.resolve sl (m_name mb) = Some bl ∧ m_data mb = Some d.

(** The two debug notes of [_do_work_on_compute_node], lines 54-56 and
    63-65: [if debug: sys.stderr.write(label.format(time() - start_time))]. *)
Definition checkpoint (label : string) (start_time : option Z) (debug : bool) : M unit :=
  when debug (dt <- elapsed start_time ;;
              stderr_write (label +:+ fmt_seconds dt +:+ " seconds" +:+ nl)).

(** Lines 63-69, what is left to do once the task is loaded. *)
Definition run_loaded (start_time : option Z) (debug : bool) (cwd0 : string)
    (job : task) : M unit :=
  checkpoint "loaded pickled data after " start_time debug ;;
  Posix.chdir cwd0 ;;
  job_work job.

(** Lines 58-69, the materializer and the execution runner. *)
Definition materialize_and_run (work_dir random_id : string)
    (start_time : option Z) (debug : bool) (cwd0 : string) : M unit :=
  Posix.chdir work_dir ;;
  job <- open_and_load (blob_name random_id) ;;
  run_loaded start_time debug cwd0 job.

(** *** The points a run of [_do_work_on_compute_node] passes

    Each says that the run from [w] got that far without raising, and
    names the world it found there. *)

Section Points.
Variables (work_dir random_id : string) (tarball : bool)
          (start_time : option Z) (debug : bool) (w : world).

(** After line 53: the optional extraction returned. *)
Definition at_extracted (w1 : world) : Prop :=
  when tarball (_extract_packages_archive work_dir) w = (w1, Ok tt).

(** After line 56: the first debug note is written. *)
Definition at_noted (w2 : world) : Prop :=
  ∃ w1, at_extracted w1 ∧
        checkpoint "extracted tar after " start_time debug w1 = (w2, Ok tt).

(** After line 59: the process is in the staging directory. *)
Definition at_staging (w3 : world) : Prop :=
  ∃ w2, at_noted w2 ∧ Posix.chdir work_dir w2 = (w3, Ok tt).

(** After line 62: the task is unpickled. *)
Definition at_loaded (job : task) (w4 : world) : Prop :=
  ∃ w3, at_staging w3 ∧ open_and_load (blob_name random_id) w3 = (w4, Ok job).

(** After line 65: the second debug note is written. *)
Definition at_noted_again (job : task) (w5 : world) : Prop :=
  ∃ w4, at_loaded job w4 ∧
        checkpoint "loaded pickled data after " start_time debug w4 = (w5, Ok tt).

(** After line 68: back in the directory the function was entered in. *)
Definition at_work (job : task) (w6 : world) : Prop :=
  ∃ w5, at_noted_again job w5 ∧
        Posix.chdir (Path.render (w_cwd w)) w5 = (w6, Ok tt).

(** Every run ends in one of seven ways: at the first statement that
    raises, or with whatever [job.work()] does. *)
Inductive do_work_run : world → result unit → Prop :=
  | extraction_raised w' e :
      when tarball (_extract_packages_archive work_dir) w = (w', Raised e) →
      do_work_run w' (Raised e)
  | first_note_raised w1 w' e :
      at_extracted w1 →
      checkpoint "extracted tar after " start_time debug w1 = (w', Raised e) →
      do_work_run w' (Raised e)
  | chdir_raised w2 w' e :
      at_noted w2 →
      Posix.chdir work_dir w2 = (w', Raised e) →
      do_work_run w' (Raised e)
  | load_raised w3 w' e :
      at_staging w3 →
      open_and_load (blob_name random_id) w3 = (w', Raised e) →
      do_work_run w' (Raised e)
  | second_note_raised job w4 w' e :
      at_loaded job w4 →
      checkpoint "loaded pickled data after " start_time debug w4 = (w', Raised e) →
      do_work_run w' (Raised e)
  | chdir_back_raised job w5 w' e :
      at_noted_again job w5 →
      Posix.chdir (Path.render (w_cwd w)) w5 = (w', Raised e) →
      do_work_run w' (Raised e)
  | work_called job w6 w' r :
      at_work job w6 →
      job_work job w6 = (w', r) →
      do_work_run w' r.

End Points.

End Runner.

(** ** The argument contract as the specification words it

    [<program> [--debug] [--tarball] <staging_dir> <project_dir> <job_id>],
    the two flags allowed anywhere after the program name. *)

Definition is_flag (a : string) : bool :=
  bool_decide (a = "--debug") || bool_decide (a = "--tarball").

Definition matches_contract (args : list string) (staging project job : string) : Prop :=
  ∃ prog rest, args = prog :: rest ∧
    List.filter (λ a, negb (is_flag a)) rest = [staging; project; job].

(** [needle in hay] for strings. *)
Fixpoint contains (needle hay : string) : bool :=
  String.prefix needle hay ||
  match hay with
  | EmptyString => false
  | String _ hay' => contains needle hay'
  end.

(** The events of the stages after the precondition check. *)
Definition is_work (ev : event) : bool :=
  match ev with
  | EvWork _ => true
  | _ => false
  end.

Definition is_extraction (ev : event) : bool :=
  match ev with
  | EvTarOpen _ | EvExtract _ => true
  | _ => false
  end.

(** The calls the archive extractor makes. *)
Definition is_extractor_event (ev : event) : bool :=
  match ev with
  | EvExists _ | EvChdir _ | EvTarOpen _ | EvExtract _ => true
  | _ => false
  end.

(** ** Relations between the worlds before and after a computation

    [respects R m]: whatever [m] does, the world it leaves is related by
    [R] to the world it started in. *)

Definition respects {A} (R : relation world) (m : M A) : Prop :=
  ∀ w, R w (m w).1.

(** The runner printed nothing. *)
Definition same_stdout : relation world := λ w w', stdout w' = stdout w.

(** Nothing but the file system, the working directory, [sys.path] and
    the trace changed. *)
Definition quiet : relation world := λ w w',
  stdout w' = stdout w ∧ stderr w' = stderr w ∧
  clock_reads w' = clock_reads w ∧ log_level w' = log_level w.

(** The trace grew by events that all satisfy [P]. *)
Definition emits (P : event → bool) : relation world := λ w w',
  ∃ new, trace w' = trace w ++ new ∧ forallb P new = true.

(** Standard error only grew. *)
Definition stderr_grows : relation world := λ w w',
  ∃ more, stderr w' = stderr w ++ more.

(** The working directory is the same. *)
Definition same_cwd : relation world := λ w w', w_cwd w' = w_cwd w.

(** ** A concrete installation

    Oracles and a file system to run the model on: blobs whose content is
    the task's name, a task ["fail"] whose work raises, a task ["exit"]
    whose work calls [sys.exit(1)] and any other task writing [out.txt]
    where it runs, and one well-formed archive holding [helper.mod]. *)

Module Demo.

Definition load (e : env) (data : string) : result string :=
  if bool_decide (data = "corrupt")
  then Raised (Exn "UnpicklingError" "invalid load key")
  else Ok data.

Definition work (job : string) (e : env) : env * option exn :=
  if bool_decide (job = "fail")
  then (e, Some (Exn "RuntimeError" "boom"))
  else if bool_decide (job = "exit")
  then (e, Some (Exn "SystemExit" "1"))
  else (set_fs (<[cwd e ++ ["out.txt"] := File "done"]> (fs e)) e, None).

Definition tar (data : string) : result (list member) :=
  if bool_decide (data = "tar:helper.mod")
  then Ok [Member "helper.mod" (Some "def help(): pass")]
  else if bool_decide (data = "tar:43.job-instance.pickle")
  then Ok [Member "43.job-instance.pickle" (Some "shipped")]
  else Raised (Exn "ReadError" "file could not be opened successfully").

Definition clock (n : nat) : Z := Z.of_nat n.

Definition fmt (z : Z) : string :=
  match z with
  | Z0 => "0.0"
  | Zpos 1 => "1.0"
  | Zpos 2 => "2.0"
  | Zpos 3 => "3.0"
  | _ => "4.0"
  end.

Definition run_main (args : list string) : M unit :=
  main string load work tar clock fmt fmt args.

Definition run_do_work (work_dir random_id : string) (tarball : bool)
    (start_time : option Z) (debug : bool) : M unit :=
  _do_work_on_compute_node string load work tar clock fmt
    work_dir random_id tarball start_time debug.

Definition world_of (files : list (Path.loc * node)) : world :=
  World (Env (list_to_map files) ["home"; "luigi"] ["/usr/lib/python2.7"])
        [] [] [] 0 None.

(** The staging directory [/stage] with the blob of job 42, a blob for
    job 44 that does not unpickle, and an archive. *)
Definition staged : world :=
  world_of [ (["home"], Dir); (["home"; "luigi"], Dir); (["stage"], Dir);
             (["stage"; "42.job-instance.pickle"], File "job42");
             (["stage"; "44.job-instance.pickle"], File "corrupt");
             (["stage"; "packages.tar"], File "tar:helper.mod") ].

(** A staging directory whose archive carries the blob of job 43. *)
Definition staged_shipping : world :=
  world_of [ (["home"], Dir); (["home"; "luigi"], Dir); (["stage"], Dir);
             (["stage"; "packages.tar"], File "tar:43.job-instance.pickle") ].

(** The same staging directory without an archive. *)
Definition staged_bare : world :=
  world_of [ (["home"], Dir); (["home"; "luigi"], Dir); (["stage"], Dir);
             (["stage"; "42.job-instance.pickle"], File "job42") ].

(** An archive that is not a tar file. *)
Definition staged_corrupt : world :=
  world_of [ (["home"], Dir); (["home"; "luigi"], Dir); (["stage"], Dir);
             (["stage"; "42.job-instance.pickle"], File "job42");
             (["stage"; "packages.tar"], File "garbage") ].


(** The staging directory below the working directory, to be named by
    the relative path [stage]. *)
Definition staged_relative : world :=
  world_of [ (["home"], Dir); (["home"; "luigi"], Dir);
             (["home"; "luigi"; "stage"], Dir);
             (["home"; "luigi"; "stage"; "42.job-instance.pickle"], File "job42");
             (["home"; "luigi"; "stage"; "packages.tar"], File "tar:helper.mod") ].

End Demo.

(** ** The order of the calls

    What a complete run of each stage asks of the outside, in order. *)


(** Lines 59-69: the staging directory is entered, the blob opened and
    unpickled, the old directory entered again, and [work()] called in
    the directory [c]. *)
Definition materializer_script (work_dir random_id cwd0 : string) (c : Path.loc)
  : list event :=
  [EvChdir work_dir; EvOpen (blob_name random_id); EvLoad; EvChdir cwd0; EvWork c].

(** [sys.path] is the same. *)
Definition same_sys_path : relation world := λ w w', w_sys_path w' = w_sys_path w.

(** The logging configuration is the same. *)
Definition same_log_level : relation world := λ w w', log_level w' = log_level w.

(** Every path that named something still does, and directories are
    still directories. *)
Definition fs_grows : relation world := λ w w',
  ∀ k, (is_Some (Posix.lookup_node (w_fs w) k) →
        is_Some (Posix.lookup_node (w_fs w') k)) ∧
       (Posix.lookup_node (w_fs w) k = Some Dir →
        Posix.lookup_node (w_fs w') k = Some Dir).

(** No call was entered in the trace. *)
Definition same_trace : relation world := λ w w', trace w' = trace w.

(** ** The job log

    [rnr_log], lines 89-107.  No call of it is left in [main] (line 113
    is a comment); the function is modelled as it stands.  Its calls are
    not entered in the trace, which is that of the runner proper. *)

Module JobLog.

(** The base directory is fixed in the source, line 94. *)
Definition base : string := "/nfs/seqscratch09/dsth/luigi/".

Definition digit_char (d : nat) : Ascii.ascii :=
  match d with
  | 0 => "0" | 1 => "1" | 2 => "2" | 3 => "3" | 4 => "4"
  | 5 => "5" | 6 => "6" | 7 => "7" | 8 => "8" | _ => "9"
  end%char.

(** The decimal digits of [n] in front of [acc], most significant first. *)
Fixpoint decimal_go (fuel : nat) (n : N) (acc : string) : string :=
  match fuel with
  | O => acc
  | S fuel' =>
      let acc' := String (digit_char (N.to_nat (n mod 10))) acc in
      if (n / 10 =? 0)%N then acc' else decimal_go fuel' (n / 10) acc'
  end.

(** A number has no more decimal digits than binary ones. *)
Definition decimal (n : N) : string :=
  decimal_go (S (N.to_nat (N.log2 n))) n "".

Fixpoint zeros (k : nat) : string :=
  match k with
  | O => ""
  | S k' => String "0" (zeros k')
  end.

(** [s.zfill(width)] for a string of digits. *)
Definition zfill (width : nat) (s : string) : string :=
  zeros (width - String.length s) +:+ s.

(** ['%08.2d' % z]: at least two digits, then padded with zeros to eight
    characters, the sign included. *)
Definition format_08_2d (z : Z) : string :=
  match z with
  | Zneg p => String "-" (zfill 7 (zfill 2 (decimal (Npos p))))
  | _ => zfill 8 (zfill 2 (decimal (Z.to_N z)))
  end.

(** Lines 95-99: the characters of [outs] one after the other, a slash
    after every second one. *)
Fixpoint scatter (even : bool) (outs : string) : string :=
  match outs with
  | EmptyString => ""
  | String c outs' =>
      if even then String c (scatter false outs')
      else String c (String "/" (scatter true outs'))
  end.

(** Where [base] is. *)
Definition base_loc : Path.loc := ["nfs"; "seqscratch09"; "dsth"; "luigi"].

Definition log_dir (outs : string) : string := base +:+ scatter true outs.
Definition log_file (outs : string) : string := log_dir outs +:+ "rnr.txt".

(** The characters of [outs] two by two, and the one left over if any. *)
Fixpoint pairs_of (outs : string) : list string * string :=
  match outs with
  | String a (String b outs') =>
      (String a (String b "") :: (pairs_of outs').1, (pairs_of outs').2)
  | _ => ([], outs)
  end.

Fixpoint all_chars (P : Ascii.ascii → bool) (s : string) : bool :=
  match s with
  | EmptyString => true
  | String c s' => P c && all_chars P s'
  end.

(** A character that can stand anywhere in a file name. *)
Definition name_char (c : Ascii.ascii) : bool :=
  negb (Path.is_slash c) && negb (bool_decide (c = "."%char)).

(** [os.path.isdir(p)] *)
Definition isdir (p : string) : M bool :=
  λ w, (w, Ok match Posix.node_at w p with
              | Some Dir => true
              | _ => false
              end).

(** [os.makedirs(p)]: the leaf must not exist, the directories above it
    are made as needed.  The function splits the path itself and makes
    the directories from the top down, so the place is read off the
    components. *)
Definition os_makedirs (p : string) : M unit :=
  λ w, match Path.resolve (w_cwd w) p with
       | None => (w, Raised (Posix.enoent "OSError" p))
       | Some l =>
           match Posix.lookup_node (w_fs w) l with
           | Some _ => (w, Raised (Posix.eexist "OSError" p))
           | None =>
               match Posix.makedirs (w_fs w) [] l with
               | Some m' => (set_env (set_fs m') w, Ok tt)
               | None => (w, Raised (Posix.enotdir "OSError" p))
               end
           end
       end.

(** [open(p, 'w')]: the file is created or emptied; what is returned
    stands for the file object. *)
Definition open_w (p : string) : M Path.loc :=
  λ w, match Posix.locate (w_fs w) (w_cwd w) p with
       | None => (w, Raised (Posix.enoent "IOError" p))
       | Some l =>
           match Posix.lookup_node (w_fs w) (removelast l),
                 Posix.lookup_node (w_fs w) l with
           | Some Dir, Some Dir => (w, Raised (Posix.eisdir "IOError" p))
           | Some Dir, _ => (set_env (set_fs (<[l := File ""]> (w_fs w))) w, Ok l)
           | Some (File _), _ => (w, Raised (Posix.enotdir "IOError" p))
           | None, _ => (w, Raised (Posix.enoent "IOError" p))
           end
       end.

(** [fh.write(s)] *)
Definition file_write (fh : Path.loc) (s : string) : M unit :=
  modify (λ w, match w_fs w !! fh with
               | Some (File old) =>
                   set_env (set_fs (<[fh := File (old +:+ s)]> (w_fs w))) w
               | _ => w
               end).

Section RnrLog.

(** [int], and [str] of a list and of the environment, are Python's. *)
Variable py_int : string → result Z.
Variable str_list : list string → string.
Variable str_environ : gmap string string → string.

(** [os.environ[key]] *)
Definition environ_get (environ : gmap string string) (key : string) : M string :=
  match environ !! key with
  | Some v => ret v
  | None => raise (Exn "KeyError" ("'" +:+ key +:+ "'"))
  end.

(** What [int(y)] is applied to, lines 90-92. *)
Definition job_id_text (environ : gmap string string) : string :=
  match environ !! "JOB_ID" with
  | Some y => y
  | None => "0"
  end.

(** sge_runner.py, lines 89-107 *)
Definition rnr_log (environ : gmap string string) (args : list string) : M unit :=
  let y := job_id_text environ in
  n <- (λ w, (w, py_int y)) ;;
  let outs := format_08_2d n in
  let x := log_dir outs in
  there <- isdir x ;;
  when (negb there) (os_makedirs x) ;;
  let x := x +:+ "rnr.txt" in
  fh <- open_w x ;;
  host <- environ_get environ "HOSTNAME" ;;
  file_write fh ("hostname= " +:+ host +:+ nl) ;;
  file_write fh ("args= " +:+ str_list args +:+ nl) ;;
  file_write fh ("env= " +:+ str_environ environ).

(** What the log holds after a complete run. *)
Definition log_text (environ : gmap string string) (args : list string)
    (host : string) : string :=
  (("hostname= " +:+ host +:+ nl) +:+ ("args= " +:+ str_list args +:+ nl)) +:+
  ("env= " +:+ str_environ environ).

End RnrLog.

(** An environment and an [int] to run the model on. *)
Definition demo_int (y : string) : result Z :=
  if bool_decide (y = "1234567") then Ok 1234567%Z
  else if bool_decide (y = "0") then Ok 0%Z
  else Raised (Exn "ValueError" ("invalid literal for int() with base 10: '" +:+ y +:+ "'")).

Fixpoint commas (items : list string) : string :=
  match items with
  | [] => ""
  | [a] => a
  | a :: items' => a +:+ ", " +:+ commas items'
  end.

Definition quoted (s : string) : string := "'" +:+ s +:+ "'".

Definition demo_str_list (args : list string) : string :=
  "[" +:+ commas (quoted <$> args) +:+ "]".

Definition demo_str_environ (environ : gmap string string) : string :=
  "{" +:+ commas ((λ kv, quoted kv.1 +:+ ": " +:+ quoted kv.2) <$>
                    map_to_list environ) +:+ "}".

Definition demo_environ : gmap string string :=
  list_to_map [("JOB_ID", "1234567"); ("HOSTNAME", "node17")].

Definition demo_environ_no_host : gmap string string :=
  list_to_map [("JOB_ID", "1234567")].

Definition demo_run (environ : gmap string string) (args : list string) : M unit :=
  rnr_log demo_int demo_str_list demo_str_environ environ args.

End JobLog.

(** ** Facts about path strings *)

Module PathFacts.
Import Path.

Lemma split_slash_slash s : split_slash (String "/" s) = "" :: split_slash s.
Proof. reflexivity. Qed.

Lemma app_cons a (s t : string) : String a s +:+ t = String a (s +:+ t).
Proof. reflexivity. Qed.

Lemma app_empty_l (s : string) : "" +:+ s = s.
Proof. reflexivity. Qed.

Lemma split_slash_nonempty s : split_slash s ≠ [].
Proof.
  destruct s as [|c s]; simpl; [done|].
  destruct (is_slash c); [done|]. by destruct (split_slash s).
Qed.

(** A slash-free word in front of a string joins its first piece. *)
Lemma split_slash_word c s :
  no_slash c = true →
  split_slash (c +:+ s) =
    match split_slash s with
    | [] => [c]
    | hd :: tl => (c +:+ hd) :: tl
    end.
Proof.
  induction c as [|a c IH]; intros Hc.
  - rewrite app_empty_l.
    by destruct (split_slash s) eqn:E; [destruct (split_slash_nonempty _ E)|].
  - simpl in Hc. apply andb_prop in Hc as [Ha Hc]. apply negb_true_iff in Ha.
    rewrite app_cons. cbn [split_slash]. rewrite Ha, (IH Hc).
    by destruct (split_slash s).
Qed.

Lemma app_empty_r (s : string) : s +:+ "" = s.
Proof. induction s as [|a s IH]; [done|]. by rewrite app_cons, IH. Qed.

Lemma split_render_tail c l :
  forallb no_slash (c :: l) = true →
  split_slash (render_tail (c :: l)) = "" :: c :: l.
Proof.
  revert c. induction l as [|d l IH]; intros c Hc;
    apply andb_prop in Hc as [Hc Hl].
  - cbn [render_tail foldr]. change ("/" +:+ c +:+ "") with (String "/" (c +:+ "")).
    rewrite split_slash_slash, (split_slash_word _ _ Hc). cbn [split_slash].
    by rewrite app_empty_r.
  - change (render_tail (c :: d :: l))
      with (String "/" (c +:+ render_tail (d :: l))).
    rewrite split_slash_slash, (split_slash_word _ _ Hc), (IH _ Hl).
    by rewrite app_empty_r.
Qed.

Lemma plain_no_slash c : plain c = true → no_slash c = true.
Proof. unfold plain. intros H. by repeat (apply andb_prop in H as [H _]). Qed.

Lemma step_plain cur c : plain c = true → step cur c = cur ++ [c].
Proof.
  unfold plain, step. intros H.
  apply andb_prop in H as [H H3]. apply andb_prop in H as [H H2].
  apply andb_prop in H as [_ H1].
  apply negb_true_iff in H1, H2, H3. by rewrite H1, H2, H3.
Qed.

Lemma foldl_step_canonical acc l :
  canonical l = true → foldl step acc l = acc ++ l.
Proof.
  revert acc. induction l as [|c l IH]; intros acc H; simpl.
  - by rewrite app_nil_r.
  - apply andb_prop in H as [Hc Hl].
    rewrite (step_plain _ _ Hc), (IH _ Hl). by rewrite <- app_assoc.
Qed.

Lemma canonical_no_slash l : canonical l = true → forallb no_slash l = true.
Proof.
  induction l as [|c l IH]; simpl; [done|]. intros H.
  apply andb_prop in H as [Hc Hl]. by rewrite (plain_no_slash _ Hc), (IH Hl).
Qed.

(** What [os.getcwd()] returns names the working directory again. *)
Lemma resolve_render from l :
  canonical l = true → resolve from (render l) = Some l.
Proof.
  intros H. destruct l as [|c l]; [done|].
  unfold resolve, render. fold (render_tail (c :: l)).
  rewrite (split_render_tail _ _ (canonical_no_slash _ H)).
  change (render_tail (c :: l)) with (String "/" (c +:+ render_tail l)).
  rewrite bool_decide_eq_false_2 by done.
  change (startswith_slash (String "/" (c +:+ render_tail l))) with true.
  change (foldl step (if true then [] else from) ("" :: c :: l))
    with (foldl step [] (c :: l)).
  by rewrite (foldl_step_canonical _ _ H).
Qed.

(** [os.path.abspath(os.curdir)] is the string of the working directory. *)
Lemma abspath_curdir l : abspath l "." = render l.
Proof. reflexivity. Qed.

End PathFacts.

(** ** Facts about following a path *)

Module WalkFacts.
Import Path Posix PathFacts.

Lemma split_slash_app_slash s1 s2 :
  split_slash (s1 +:+ String "/" s2) = split_slash s1 ++ split_slash s2.
Proof.
  induction s1 as [|c s1 IH].
  - by rewrite app_empty_l.
  - rewrite app_cons. cbn [split_slash].
    destruct (is_slash c); rewrite IH; [done|].
    destruct (split_slash s1) eqn:E; [|done].
    by destruct (split_slash_nonempty _ E).
Qed.

Lemma split_slash_no_slash s : no_slash s = true → split_slash s = [s].
Proof.
  induction s as [|c s IH]; [done|]. cbn [no_slash split_slash].
  intros H. apply andb_prop in H as [Hc Hs]. apply negb_true_iff in Hc.
  by rewrite Hc, (IH Hs).
Qed.

(** A walk that gets through ends where the components point to. *)
Lemma walk_step m cur comps l :
  walk m cur comps = Some l → l = foldl step cur comps.
Proof.
  revert cur. induction comps as [|c comps IH]; intros cur; cbn [walk foldl].
  - by intros [= ->].
  - destruct (plain c) eqn:Hc.
    + rewrite (step_plain _ _ Hc). apply IH.
    + destruct (lookup_node m cur) as [[|d]|]; [apply IH|done|done].
Qed.

Lemma locate_resolve m cwd p l :
  locate m cwd p = Some l → resolve cwd p = Some l.
Proof.
  unfold locate, resolve. destruct (bool_decide (p = "")); [done|].
  intros H. by rewrite (walk_step _ _ _ _ H).
Qed.

Lemma walk_app m cur a b :
  walk m cur (a ++ b) = walk m cur a ≫= λ l, walk m l b.
Proof.
  revert cur. induction a as [|c a IH]; intros cur; cbn [app walk]; [done|].
  destruct (plain c); [apply IH|].
  destruct (lookup_node m cur) as [[|d]|]; [apply IH|done|done].
Qed.

(** Only the directories met on the way matter. *)
Lemma walk_mono m m' cur comps l :
  (∀ k, lookup_node m k = Some Dir → lookup_node m' k = Some Dir) →
  walk m cur comps = Some l → walk m' cur comps = Some l.
Proof.
  intros Hdirs. revert cur. induction comps as [|c comps IH]; intros cur;
    cbn [walk]; [done|].
  destruct (plain c); [apply IH|].
  destruct (lookup_node m cur) as [[|d]|] eqn:E; [|done|done].
  rewrite (Hdirs _ E). apply IH.
Qed.

(** Names alone are followed wherever they lead. *)
Lemma walk_canonical m cur comps :
  canonical comps = true → walk m cur comps = Some (cur ++ comps).
Proof.
  revert cur. induction comps as [|c comps IH]; intros cur H; cbn [walk].
  - by rewrite app_nil_r.
  - apply andb_prop in H as [Hc Hl]. rewrite Hc, (IH _ Hl).
    by rewrite <- app_assoc.
Qed.

Lemma walk_root_names m l :
  canonical l = true → walk m [] ("" :: l) = Some l.
Proof.
  intros H. change (walk m [] ("" :: l)) with (walk m [] l).
  by rewrite (walk_canonical _ _ _ H).
Qed.


Lemma locate_absolute m c1 c2 p :
  startswith_slash p = true → locate m c1 p = locate m c2 p.
Proof. intros H. unfold locate. by rewrite H. Qed.


Lemma node_at_absolute w w' p :
  startswith_slash p = true → w_fs w = w_fs w' → node_at w p = node_at w' p.
Proof.
  intros Hp Hfs. unfold node_at.
  by rewrite (locate_absolute _ (w_cwd w) (w_cwd w') _ Hp), Hfs.
Qed.

(** What is a directory stays one when directories stay. *)
Lemma node_at_dir_mono w w' p :
  w_cwd w' = w_cwd w →
  (∀ k, lookup_node (w_fs w) k = Some Dir → lookup_node (w_fs w') k = Some Dir) →
  node_at w p = Some Dir → node_at w' p = Some Dir.
Proof.
  intros Hcwd Hdirs. unfold node_at, locate. rewrite Hcwd.
  destruct (bool_decide (p = "")); [done|].
  destruct (walk (w_fs w) _ _) as [l|] eqn:E; [|done].
  rewrite (walk_mono _ _ _ _ _ Hdirs E). cbn [mbind option_bind]. apply Hdirs.
Qed.


Lemma node_at_resolve w p n :
  node_at w p = Some n →
  ∃ l, locate (w_fs w) (w_cwd w) p = Some l ∧ resolve (w_cwd w) p = Some l ∧
       lookup_node (w_fs w) l = Some n.
Proof.
  unfold node_at. destruct (locate (w_fs w) (w_cwd w) p) as [l|] eqn:E; [|done].
  cbn [mbind option_bind]. intros H. exists l. by rewrite (locate_resolve _ _ _ _ E).
Qed.

Lemma node_at_locate w p l :
  locate (w_fs w) (w_cwd w) p = Some l → node_at w p = lookup_node (w_fs w) l.
Proof. intros H. unfold node_at. by rewrite H. Qed.

(** A path of names below the root is followed without a question. *)
Lemma locate_names m from p l :
  startswith_slash p = true → p ≠ "" →
  split_slash p = "" :: l → canonical l = true →
  locate m from p = Some l.
Proof.
  intros Habs Hne Hsplit Hcan. unfold locate.
  rewrite bool_decide_eq_false_2, Habs, Hsplit by done.
  by apply walk_root_names.
Qed.

(** *** The path of the archive *)

Lemma endswith_slash_inv s :
  endswith_slash s = true → ∃ s0, s = s0 +:+ "/".
Proof.
  induction s as [|c s IH]; [done|]. cbn [endswith_slash].
  destruct s as [|c' s'].
  - intros Hc. exists "". apply bool_decide_eq_true_1 in Hc. by subst.
  - intros H. destruct (IH H) as [s0 E]. exists (String c s0).
    by rewrite app_cons, <- E.
Qed.

Lemma startswith_slash_app s t :
  s ≠ "" → startswith_slash (s +:+ t) = startswith_slash s.
Proof. by destruct s. Qed.

(** The components of [join wd name]: those of [wd], a slash at its end
    apart, and then [name]. *)
Lemma split_join wd name :
  wd ≠ "" → plain name = true →
  ∃ comps last,
    split_slash wd = comps ++ last ∧
    (last = [] ∨ last = [""]) ∧
    split_slash (join wd name) = comps ++ [name] ∧
    startswith_slash (join wd name) = startswith_slash wd ∧
    join wd name ≠ "".
Proof.
  intros Hwd Hname. pose proof (plain_no_slash _ Hname) as Hns.
  assert (startswith_slash name = false) as Hrel.
  { destruct name as [|c name]; [done|]. cbn [no_slash] in Hns.
    apply andb_prop in Hns as [Hc _]. by apply negb_true_iff in Hc. }
  unfold join. rewrite Hrel.
  rewrite (bool_decide_eq_false_2 (wd = "")) by done. cbn [orb].
  destruct (endswith_slash wd) eqn:Hend.
  - destruct (endswith_slash_inv _ Hend) as [s0 ->].
    exists (split_slash s0), [""]. split; [|split; [by right|split; [|split]]].
    + change (s0 +:+ "/") with (s0 +:+ String "/" "").
      by rewrite split_slash_app_slash.
    + rewrite <- (split_slash_no_slash name Hns).
      rewrite <- split_slash_app_slash. f_equal.
      clear. induction s0 as [|c s0 IH]; [done|]. by rewrite !app_cons, IH.
    + by apply startswith_slash_app.
    + intros E. apply (f_equal String.length) in E. revert E. clear.
      destruct s0; [done|]. by rewrite !app_cons.
  - exists (split_slash wd), []. split; [by rewrite app_nil_r|].
    split; [by left|]. split; [|split].
    + rewrite <- (split_slash_no_slash name Hns).
      by rewrite <- split_slash_app_slash.
    + by apply startswith_slash_app.
    + destruct wd; [done|]. by rewrite app_cons.
Qed.

(** When something is found under [join wd name], the way to [wd] can be
    followed; it ends in the directory [wd] points to, if that is one. *)
Lemma locate_join w wd name l :
  plain name = true →
  is_Some (locate (w_fs w) (w_cwd w) (join wd name)) →
  resolve (w_cwd w) wd = Some l →
  lookup_node (w_fs w) l = Some Dir →
  locate (w_fs w) (w_cwd w) wd = Some l.
Proof.
  intros Hname [l' Hfound] Hl Hdir.
  assert (wd ≠ "") as Hwd by (intros ->; done).
  destruct (split_join wd name Hwd Hname) as (comps & last & Hsplit & Hlast & Hj & Habs & Hne).
  unfold locate in Hfound |- *. unfold resolve in Hl.
  rewrite bool_decide_eq_false_2 in Hfound by done.
  rewrite bool_decide_eq_false_2 in Hl |- * by done.
  rewrite Habs, Hj, walk_app in Hfound. rewrite Hsplit, walk_app.
  rewrite Hsplit, foldl_app in Hl. injection Hl as Hl.
  destruct (walk (w_fs w) _ comps) as [l0|] eqn:Hwalk; [|done].
  cbn [mbind option_bind]. pose proof (walk_step _ _ _ _ Hwalk) as ->.
  destruct Hlast as [->| ->]; cbn [foldl] in Hl; cbn [walk]; [by subst|].
  change (plain "") with false. cbv iota.
  change (step ?x "") with x in Hl |- *. subst l. by rewrite Hdir.
Qed.

Lemma node_at_join_dir w wd name l :
  plain name = true →
  is_Some (node_at w (join wd name)) →
  resolve (w_cwd w) wd = Some l →
  lookup_node (w_fs w) l = Some Dir →
  node_at w wd = Some Dir.
Proof.
  intros Hname [n Hn] Hl Hdir.
  apply node_at_resolve in Hn as (l' & Hl' & _).
  unfold node_at. by rewrite (locate_join w wd name l Hname (mk_is_Some _ _ Hl') Hl Hdir).
Qed.

(** *** The walk and the kernel's *)

Lemma lookup_below_missing m l c :
  well_formed m → lookup_node m l ≠ Some Dir → lookup_node m (l ++ [c]) = None.
Proof.
  intros Hwf Hl. destruct (lookup_node m (l ++ [c])) as [n|] eqn:E; [|done].
  destruct Hl. apply (Hwf l c). destruct l; cbn [app lookup_node] in E; by eexists.
Qed.

Lemma walk_from_nothing m cur comps :
  well_formed m → lookup_node m cur = None →
  walk m cur comps ≫= lookup_node m = None.
Proof.
  intros Hwf. revert cur. induction comps as [|c comps IH]; intros cur Hcur;
    cbn [walk mbind option_bind]; [done|].
  destruct (plain c); [|by rewrite Hcur].
  apply IH, lookup_below_missing; [done|by rewrite Hcur].
Qed.

Lemma lookup_parent m l :
  well_formed m → lookup_node m l = Some Dir →
  lookup_node m (removelast l) = Some Dir.
Proof.
  intros Hwf Hl. destruct l as [|c l] using rev_ind; [done|].
  rewrite removelast_last. apply (Hwf l c).
  destruct l; cbn [app lookup_node] in Hl; by eexists.
Qed.

Lemma walk_from_file m cur d c comps :
  well_formed m → lookup_node m cur = Some (File d) →
  walk m cur (c :: comps) ≫= lookup_node m = None.
Proof.
  intros Hwf Hcur. cbn [walk]. destruct (plain c); [|by rewrite Hcur].
  apply walk_from_nothing, lookup_below_missing; [done..|by rewrite Hcur].
Qed.

(** In a file system where every entry lies in a directory, following a
    path from a directory finds what the kernel's walk finds. *)
Lemma node_at_kernel m cur comps :
  well_formed m → lookup_node m cur = Some Dir →
  walk m cur comps ≫= lookup_node m = kernel_walk m cur comps ≫= lookup_node m.
Proof.
  intros Hwf. revert cur. induction comps as [|c comps IH]; intros cur Hcur; [done|].
  assert (walk m cur (c :: comps) = walk m (step cur c) comps) as ->.
  { cbn [walk]. destruct (plain c) eqn:Hc; [by rewrite (step_plain _ _ Hc)|].
    by rewrite Hcur. }
  cbn [kernel_walk]. rewrite Hcur.
  destruct (lookup_node m (step cur c)) as [[|d]|] eqn:E.
  - by apply IH.
  - destruct comps as [|c' comps]; [done|].
    rewrite (walk_from_file _ _ _ _ _ Hwf E). cbn [kernel_walk]. by rewrite E.
  - rewrite (walk_from_nothing _ _ _ Hwf E).
    destruct comps as [|c' comps]; cbn [kernel_walk mbind option_bind];
      by rewrite E.
Qed.

End WalkFacts.


(** ** Invariants of computations *)

Module Invariants.

#[export] Instance same_stdout_preorder : PreOrder same_stdout.
Proof. split; unfold same_stdout; [done | intros x y z; congruence]. Qed.

#[export] Instance quiet_preorder : PreOrder quiet.
Proof.
  split; unfold quiet; [done|].
  intros x y z (?&?&?&?) (?&?&?&?). repeat split; congruence.
Qed.

#[export] Instance emits_preorder P : PreOrder (emits P).
Proof.
  split.
  - intros w. exists []. by rewrite app_nil_r.
  - intros x y z (n1 & E1 & F1) (n2 & E2 & F2). exists (n1 ++ n2). split.
    + by rewrite E2, E1, app_assoc.
    + by rewrite forallb_app, F1, F2.
Qed.

#[export] Instance stderr_grows_preorder : PreOrder stderr_grows.
Proof.
  split.
  - intros w. exists []. by rewrite app_nil_r.
  - intros x y z (n1 & E1) (n2 & E2). exists (n1 ++ n2).
    by rewrite E2, E1, app_assoc.
Qed.

Section Rules.
Context (R : relation world) `{!PreOrder R}.

Lemma respects_ret {A} (a : A) : respects R (ret a).
Proof. intros w. reflexivity. Qed.

Lemma respects_raise {A} e : respects R (@raise A e).
Proof. intros w. reflexivity. Qed.

Lemma respects_read {A} (f : world → result A) : respects R (λ w, (w, f w)).
Proof. intros w. reflexivity. Qed.

Lemma respects_bind {A B} (m : M A) (k : A → M B) :
  respects R m → (∀ a, respects R (k a)) → respects R (bind m k).
Proof.
  intros Hm Hk w. unfold bind. specialize (Hm w).
  destruct (m w) as [w1 [a|e]]; simpl in *; [|done].
  etrans; [exact Hm | apply Hk].
Qed.

Lemma respects_when b m : respects R m → respects R (when b m).
Proof. destruct b; [done|]. intros _. apply respects_ret. Qed.

Lemma respects_for_each {A} (xs : list A) body :
  (∀ x, respects R (body x)) → respects R (for_each xs body).
Proof.
  intros Hb. induction xs as [|x xs IH]; simpl.
  - apply respects_ret.
  - by apply respects_bind.
Qed.

Lemma respects_modify f : (∀ w, R w (f w)) → respects R (modify f).
Proof. intros H w. apply H. Qed.

End Rules.

Lemma emits_log P ev : P ev = true → respects (emits P) (modify (log_event ev)).
Proof. intros H w. exists [ev]. simpl. by rewrite H. Qed.

Lemma emits_silent {A} P (m : M A) :
  (∀ w, trace (m w).1 = trace w) → respects (emits P) m.
Proof. intros H w. exists []. by rewrite app_nil_r. Qed.

End Invariants.

(** ** The runner's behaviour *)

Section Facts.
Import Invariants.

Context {task : Type}.
Variable pickle_load : env → string → result task.
Variable work : task → env → env * option exn.
Variable tar_parse : string → result (list member).
Variable clock : nat → Z.
Variable fmt_seconds : Z → string.
Variable fmt_ctime : Z → string.

Local Abbreviation extract := (_extract_packages_archive tar_parse).
Local Abbreviation do_work :=
  (_do_work_on_compute_node task pickle_load work tar_parse clock fmt_seconds).
Local Abbreviation body :=
  (main_try task pickle_load work tar_parse clock fmt_seconds fmt_ctime).
Local Abbreviation run :=
  (main task pickle_load work tar_parse clock fmt_seconds fmt_ctime).
Local Abbreviation prelude_world := (after_prelude clock fmt_ctime).
Local Abbreviation started := (start_time_of clock).
Local Abbreviation archive_at := (archive_at tar_parse).
Local Abbreviation shipped := (shipped tar_parse).

(** Splitting a computation into its binds, leaving the library calls. *)
Ltac respects_split :=
  repeat match goal with
    | |- respects _ (bind _ _) => apply respects_bind; [try apply _ | | intros ?]
    | |- respects _ (ret _) => apply respects_ret; apply _
    | |- respects _ (raise _) => apply respects_raise; apply _
    | |- respects _ (when _ _) => apply respects_when; [apply _ |]
    | |- respects _ (for_each _ _) => apply respects_for_each; [apply _ | intros ?]
    | |- respects _ (if ?b then _ else _) => destruct b
    | |- respects _ (match ?x with _ => _ end) => destruct x
    end.

(** A library call that leaves the observed fields alone. *)
Ltac respects_leaf :=
  let w := fresh "w" in
  intros w;
  cbv [modify log_event set_env time print fst configure_logging Posix.read_file Posix.getcwd
       Posix.abspath in_sys_path];
  repeat case_match; simplify_eq/=; try done.

(** *** Standard output *)

Lemma job_work_same_stdout job : respects same_stdout (job_work task work job).
Proof. intros w. unfold job_work, same_stdout. by destruct (work _ _). Qed.

Lemma do_work_same_stdout wd id tb st dbg :
  respects same_stdout (do_work wd id tb st dbg).
Proof.
  unfold _do_work_on_compute_node, _extract_packages_archive, elapsed,
    open_and_load, tarfile_open, tar_extract, Posix.chdir, Posix.exists_,
    stderr_write, sys_path_insert0.
  respects_split; try (by apply job_work_same_stdout); respects_leaf.
Qed.

Lemma main_try_same_stdout args : respects same_stdout (body args).
Proof.
  unfold main_try.
  apply respects_bind; [apply _ | | intros st].
  { destruct (bool_decide _); unfold ctime, stderr_write;
      respects_split; respects_leaf. }
  unfold logging_basicConfig, index, Posix.exists_, assert_, sys_path_append.
  respects_split; try apply do_work_same_stdout; respects_leaf.
Qed.


(** *** The precondition check *)

Lemma main_try_prelude args w :
  body args w =
    (let debug := bool_decide ("--debug" ∈ args) in
     let tarball := bool_decide ("--tarball" ∈ args) in
     work_dir <- index args 1 ;;
     present <- Posix.exists_ work_dir ;;
     assert_ present precondition_message ;;
     project_dir <- index args 2 ;;
     sys_path_append project_dir ;;
     random_id <- index args 3 ;;
     do_work work_dir random_id tarball (started debug w) debug)
    (prelude_world (bool_decide ("--debug" ∈ args)) w).
Proof.
  unfold main_try, prelude_world, started.
  by destruct (bool_decide ("--debug" ∈ args)).
Qed.

Lemma node_at_after_prelude dbg w p :
  Posix.node_at (log_event (EvExists p) (prelude_world dbg w)) p = Posix.node_at w p.
Proof.
  unfold prelude_world, configure_logging.
  by destruct dbg; simpl; destruct (log_level w).
Qed.

Lemma node_at_prelude dbg w p :
  Posix.node_at (prelude_world dbg w) p = Posix.node_at w p.
Proof.
  unfold after_prelude, configure_logging.
  by destruct dbg; simpl; destruct (log_level w).
Qed.

Lemma main_try_missing args w wd :
  args !! 1 = Some wd → Posix.node_at w wd = None →
  body args w =
    (log_event (EvExists wd) (prelude_world (bool_decide ("--debug" ∈ args)) w),
     Raised (Exn "AssertionError" precondition_message)).
Proof.
  intros Hwd Hnone. rewrite main_try_prelude. cbv zeta.
  unfold index. rewrite Hwd. unfold bind at 1. cbn [ret].
  unfold bind at 1, Posix.exists_. unfold bind at 1. cbn [modify].
  rewrite node_at_after_prelude, Hnone.
  by rewrite bool_decide_eq_false_2 by (by intros [? ?]).
Qed.

(** C3: when the path given as first positional argument does not exist,
    [main] fails with the assertion error of the precondition check and
    none of the later stages runs: the only call made outside is the
    existence test itself (no chdir, no archive opened or extracted, no
    file opened, nothing unpickled, no [work()]), and the file system,
    the working directory and [sys.path] are as before. *)
Theorem main_missing_staging_dir (args : list string) (w : world) (wd : string) :
  args !! 1 = Some wd →
  Posix.node_at w wd = None →
  (run args w).2 = Raised (Exn "AssertionError" precondition_message) ∧
  trace (run args w).1 = trace w ++ [EvExists wd] ∧
  w_env (run args w).1 = w_env w.
Proof.
  intros Hwd Hnone. unfold main.
  rewrite (main_try_missing _ _ _ Hwd Hnone).
  unfold prelude_world, configure_logging.
  by destruct (bool_decide ("--debug" ∈ args)); simpl; destruct (log_level w).
Qed.

(** *** Taking a run apart *)

(** Reading a field of a world built by the setters. *)
Ltac world_simpl :=
  cbv [w_cwd w_fs w_sys_path set_env set_cwd set_fs set_sys_path log_event
       configure_logging] in *;
  cbn [w_env cwd fs sys_path stdout stderr trace clock_reads log_level] in *.

Lemma bind_inv {A B} (m : M A) (k : A → M B) w w' r :
  bind m k w = (w', r) →
  (∃ e, m w = (w', Raised e) ∧ r = Raised e) ∨
  (∃ w1 a, m w = (w1, Ok a) ∧ k a w1 = (w', r)).
Proof.
  unfold bind. destruct (m w) as [w1 [a|e]]; intros H.
  - right. by exists w1, a.
  - left. exists e. by simplify_eq.
Qed.

Lemma bind_inv_ok {A B} (m : M A) (k : A → M B) w w' b :
  bind m k w = (w', Ok b) →
  ∃ w1 a, m w = (w1, Ok a) ∧ k a w1 = (w', Ok b).
Proof. intros H. by apply bind_inv in H as [(e & _ & ?)|H]. Qed.

Lemma chdir_inv p w w' r :
  Posix.chdir p w = (w', r) →
  match r with
  | Ok _ =>
      ∃ l, Path.resolve (w_cwd w) p = Some l ∧
           Posix.lookup_node (w_fs w) l = Some Dir ∧
           w' = set_env (set_cwd l) (log_event (EvChdir p) w)
  | Raised _ =>
      w' = log_event (EvChdir p) w ∧ Posix.node_at w p ≠ Some Dir
  end.
Proof.
  unfold Posix.chdir, bind, modify, Posix.node_at.
  change (w_cwd (log_event (EvChdir p) w)) with (w_cwd w).
  change (w_fs (log_event (EvChdir p) w)) with (w_fs w).
  destruct (Posix.locate (w_fs w) (w_cwd w) p) as [l|] eqn:El;
    [|intros; by simplify_eq].
  apply WalkFacts.locate_resolve in El. cbn [mbind option_bind].
  destruct (Posix.lookup_node (w_fs w) l) as [[|d]|] eqn:E;
    intros; simplify_eq; eauto.
Qed.

(** [chdir] gets through exactly when the path names a directory. *)
Lemma chdir_ok_node p w w' :
  Posix.chdir p w = (w', Ok tt) → Posix.node_at w p = Some Dir.
Proof.
  unfold Posix.chdir, bind, modify, Posix.node_at.
  change (w_cwd (log_event (EvChdir p) w)) with (w_cwd w).
  change (w_fs (log_event (EvChdir p) w)) with (w_fs w).
  destruct (Posix.locate (w_fs w) (w_cwd w) p) as [l|]; [|done].
  cbn [mbind option_bind].
  by destruct (Posix.lookup_node (w_fs w) l) as [[|d]|].
Qed.

Lemma chdir_run_node p w :
  Posix.node_at w p = Some Dir →
  ∃ l, Posix.locate (w_fs w) (w_cwd w) p = Some l ∧
       Posix.chdir p w = (set_env (set_cwd l) (log_event (EvChdir p) w), Ok tt).
Proof.
  intros H. apply WalkFacts.node_at_resolve in H as (l & Hl & _ & Hdir).
  exists l. split; [done|]. unfold Posix.chdir, bind, modify.
  change (w_cwd (log_event (EvChdir p) w)) with (w_cwd w).
  change (w_fs (log_event (EvChdir p) w)) with (w_fs w).
  by rewrite Hl, Hdir.
Qed.

Lemma exists_run p w :
  Posix.exists_ p w =
    (log_event (EvExists p) w, Ok (bool_decide (is_Some (Posix.node_at w p)))).
Proof. reflexivity. Qed.

(** *** The working directory *)

#[local] Instance same_cwd_preorder : PreOrder same_cwd.
Proof. split; unfold same_cwd; [done | intros x y z; congruence]. Qed.

Lemma unpack_same_cwd pkg : respects same_cwd (unpack tar_parse pkg).
Proof.
  unfold unpack, tarfile_open, tar_extract, sys_path_insert0.
  respects_split; respects_leaf.
Qed.

Lemma unpack_cwd pkg w w' r :
  unpack tar_parse pkg w = (w', r) → w_cwd w' = w_cwd w.
Proof. intros H. pose proof (unpack_same_cwd pkg w) as Hs. by rewrite H in Hs. Qed.

Lemma bind_assoc {A B C} (m : M A) (k : A → M B) (h : B → M C) w :
  bind (bind m k) h w = bind m (λ x, bind (k x) h) w.
Proof. unfold bind. by destruct (m w) as [w1 [a|e]]. Qed.

Lemma bind_ext {A B} (m : M A) (k k' : A → M B) w :
  (∀ a w1, k a w1 = k' a w1) → bind m k w = bind m k' w.
Proof. intros H. unfold bind. by destruct (m w) as [w1 [a|e]]. Qed.

(** The extractor with lines 80-85 taken as one step. *)
Lemma extract_unfold wd w :
  extract wd w =
    (let package_file := Path.join wd "packages.tar" in
     present <- Posix.exists_ package_file ;;
     if negb present then ret tt
     else
       curdir <- Posix.abspath "." ;;
       Posix.chdir wd ;;
       unpack tar_parse package_file ;;
       Posix.chdir curdir) w.
Proof.
  unfold _extract_packages_archive, unpack. cbv zeta.
  apply bind_ext. intros present w1. destruct (negb present); [done|].
  apply bind_ext. intros curdir w2. apply bind_ext. intros _ w3.
  rewrite bind_assoc. apply bind_ext. intros tar w4.
  rewrite bind_assoc. apply bind_ext. intros _ w5.
  by rewrite bind_assoc.
Qed.

Lemma extract_absent wd w :
  Posix.node_at w (Path.join wd "packages.tar") = None →
  extract wd w = (log_event (EvExists (Path.join wd "packages.tar")) w, Ok tt).
Proof.
  intros Hnone. unfold _extract_packages_archive. cbv zeta.
  unfold bind at 1. rewrite exists_run, Hnone.
  by rewrite bool_decide_eq_false_2 by (by intros [? ?]).
Qed.

(** Where the extractor leaves the working directory: back where it was
    when it returns, in the staging directory when it raises there. *)
Lemma extract_cwd wd w w' r :
  extract wd w = (w', r) →
  Path.canonical (w_cwd w) = true →
  match r with
  | Ok _ => w_cwd w' = w_cwd w
  | Raised _ =>
      ∀ l, Path.resolve (w_cwd w) wd = Some l →
           Posix.lookup_node (w_fs w) l = Some Dir → w_cwd w' = l
  end.
Proof.
  intros Hrun Hcan. rewrite extract_unfold in Hrun. cbv zeta in Hrun.
  unfold bind at 1 in Hrun. rewrite exists_run in Hrun.
  destruct (bool_decide (is_Some (Posix.node_at w (Path.join wd "packages.tar"))))
    eqn:Hpresent; cbn [negb] in Hrun; [|unfold ret in Hrun; by simplify_eq].
  apply bool_decide_eq_true_1 in Hpresent.
  unfold bind at 1 in Hrun. cbn [Posix.abspath] in Hrun.
  change (w_cwd (log_event _ w)) with (w_cwd w) in Hrun.
  rewrite PathFacts.abspath_curdir in Hrun.
  apply bind_inv in Hrun as [(e & Hcd & ->)|(w3 & [] & Hcd & Hrun)];
    apply chdir_inv in Hcd.
  { destruct Hcd as [_ Hno]. intros l Hl Hdir. destruct Hno.
    by apply (WalkFacts.node_at_join_dir w wd "packages.tar" l). }
  destruct Hcd as (l & Hl & Hdir & ->).
  change (Path.resolve (w_cwd w) wd = Some l) in Hl.
  apply bind_inv in Hrun as [(e & Hun & ->)|(w4 & [] & Hun & Hback)].
  { apply unpack_cwd in Hun. intros l' Hl' _. world_simpl. congruence. }
  apply unpack_cwd in Hun.
  apply chdir_inv in Hback. destruct r as [[]|e].
  - destruct Hback as (l' & Hl' & _ & ->).
    rewrite (PathFacts.resolve_render _ _ Hcan) in Hl'. by simplify_eq.
  - destruct Hback as [-> _]. intros l' Hl' _. world_simpl. congruence.
Qed.

(** *** The steps of [_do_work_on_compute_node] *)

Local Abbreviation note := (checkpoint clock fmt_seconds).

Lemma checkpoint_inv label st dbg w w' r :
  note label st dbg w = (w', r) →
  w_env w' = w_env w ∧ trace w' = trace w ∧ stdout w' = stdout w ∧
  match r with
  | Ok _ =>
      (dbg = false ∧ stderr w' = stderr w) ∨
      (∃ t0, dbg = true ∧ st = Some t0 ∧
         stderr w' = stderr w ++
           [label +:+ fmt_seconds (clock (clock_reads w) - t0) +:+ " seconds" +:+ nl])
  | Raised _ => dbg = true ∧ st = None ∧ stderr w' = stderr w
  end.
Proof.
  destruct dbg, st as [t0|]; cbv [checkpoint when elapsed bind time ret raise stderr_write modify];
    intros; simplify_eq/=; eauto 10.
Qed.

Lemma open_and_load_inv p w w' r :
  open_and_load task pickle_load p w = (w', r) →
  w_env w' = w_env w ∧ stdout w' = stdout w ∧ stderr w' = stderr w ∧
  match r with
  | Ok job =>
      ∃ data, Posix.node_at w p = Some (File data) ∧
              pickle_load (w_env w) data = Ok job ∧
              trace w' = trace w ++ [EvOpen p; EvLoad]
  | Raised e =>
      (trace w' = trace w ++ [EvOpen p] ∧
       ∀ data, Posix.node_at w p ≠ Some (File data)) ∨
      (∃ data, Posix.node_at w p = Some (File data) ∧
               pickle_load (w_env w) data = Raised e ∧
               trace w' = trace w ++ [EvOpen p; EvLoad])
  end.
Proof.
  cbv [open_and_load bind modify Posix.read_file].
  change (Posix.node_at (log_event (EvOpen p) w) p) with (Posix.node_at w p).
  change (w_env (log_event EvLoad (log_event (EvOpen p) w))) with (w_env w).
  destruct (Posix.node_at w p) as [[|data]|] eqn:E; intros H; simplify_eq/=;
    try (repeat split; try done; left; by split).
  repeat split.
  destruct (pickle_load (w_env w) data) as [job|e] eqn:El.
  - exists data. by rewrite <- app_assoc.
  - right. exists data. by rewrite <- app_assoc.
Qed.

Lemma job_work_inv job w w' r :
  job_work task work job w = (w', r) →
  trace w' = trace w ++ [EvWork (w_cwd w)] ∧
  stdout w' = stdout w ∧ stderr w' = stderr w.
Proof.
  unfold job_work. destruct (work _ _) as [e' o]. intros H. by simplify_eq/=.
Qed.

Lemma emits_weaken (P Q : event → bool) w w' :
  (∀ ev, P ev = true → Q ev = true) → emits P w w' → emits Q w w'.
Proof.
  intros HPQ (new & E & F). exists new. split; [done|].
  apply forallb_forall. intros ev Hin.
  apply HPQ. by eapply forallb_forall in F.
Qed.

Lemma extract_emits wd : respects (emits is_extractor_event) (extract wd).
Proof.
  unfold _extract_packages_archive, tarfile_open, tar_extract, Posix.chdir,
    Posix.exists_, sys_path_insert0.
  respects_split;
    try (by apply emits_log);
    apply emits_silent; respects_leaf.
Qed.

Lemma extract_quiet wd : respects quiet (extract wd).
Proof.
  unfold _extract_packages_archive, tarfile_open, tar_extract, Posix.chdir,
    Posix.exists_, sys_path_insert0.
  respects_split; respects_leaf.
Qed.

(** Every run of [_do_work_on_compute_node] is one of the seven. *)
Lemma do_work_cases wd id tb st dbg w w' r :
  do_work wd id tb st dbg w = (w', r) →
  do_work_run task pickle_load work tar_parse clock fmt_seconds
              wd id tb st dbg w w' r.
Proof.
  unfold _do_work_on_compute_node. unfold bind at 1. cbn [Posix.getcwd].
  fold (checkpoint clock fmt_seconds "extracted tar after " st dbg).
  fold (checkpoint clock fmt_seconds "loaded pickled data after " st dbg).
  intros H.
  apply bind_inv in H as [(e & H1 & ->)|(w1 & [] & H1 & H)];
    [by eapply extraction_raised|].
  apply bind_inv in H as [(e & H2 & ->)|(w2 & [] & H2 & H)];
    [by eapply first_note_raised|].
  apply bind_inv in H as [(e & H3 & ->)|(w3 & [] & H3 & H)];
    [eapply chdir_raised; [|done]; by exists w1|].
  apply bind_inv in H as [(e & H4 & ->)|(w4 & job & H4 & H)];
    [eapply load_raised; [|done]; exists w2; split; [by exists w1|done]|].
  assert (at_loaded task pickle_load tar_parse clock fmt_seconds
                    wd id tb st dbg w job w4) as Hloaded.
  { exists w3. split; [|done]. exists w2. split; [by exists w1|done]. }
  apply bind_inv in H as [(e & H5 & ->)|(w5 & [] & H5 & H)];
    [by eapply second_note_raised|].
  apply bind_inv in H as [(e & H6 & ->)|(w6 & [] & H6 & H)];
    [eapply chdir_back_raised; [|done]; by exists w4|].
  eapply work_called; [|done]. exists w5. split; [by exists w4|done].
Qed.

(** The optional extraction of lines 51-53. *)
Lemma stage1_inv wd tb w w1 r1 :
  when tb (extract wd) w = (w1, r1) →
  quiet w w1 ∧
  (∃ ex, trace w1 = trace w ++ ex ∧ forallb is_extractor_event ex = true ∧
         (tb = false → ex = [])) ∧
  (tb = false → w1 = w ∧ r1 = Ok tt) ∧
  (Path.canonical (w_cwd w) = true →
   match r1 with
   | Ok _ => w_cwd w1 = w_cwd w
   | Raised _ =>
       ∀ l, Path.resolve (w_cwd w) wd = Some l →
            Posix.lookup_node (w_fs w) l = Some Dir → w_cwd w1 = l
   end).
Proof.
  destruct tb; cbn [when]; intros H.
  - pose proof (extract_quiet wd w) as Hq.
    pose proof (extract_emits wd w) as (ex & Hex & Hall).
    rewrite H in Hq, Hex. repeat split; try apply Hq; try done.
    + by exists ex.
    + intros Hcan. by apply (extract_cwd _ _ _ _ H).
  - unfold ret in H. simplify_eq. repeat split; try done.
    exists []. by rewrite app_nil_r.
Qed.

(** *** What holds at each point *)

Local Abbreviation at_noted := (at_noted tar_parse clock fmt_seconds).
Local Abbreviation at_staging := (at_staging tar_parse clock fmt_seconds).
Local Abbreviation at_loaded :=
  (at_loaded task pickle_load tar_parse clock fmt_seconds).
Local Abbreviation at_noted_again :=
  (at_noted_again task pickle_load tar_parse clock fmt_seconds).
Local Abbreviation at_work :=
  (at_work task pickle_load tar_parse clock fmt_seconds).

Lemma at_noted_inv wd tb st dbg w w2 :
  at_noted wd tb st dbg w w2 → Path.canonical (w_cwd w) = true →
  ∃ ex, trace w2 = trace w ++ ex ∧ forallb is_extractor_event ex = true ∧
        w_cwd w2 = w_cwd w.
Proof.
  intros (w1 & H1 & H2) Hcan.
  apply stage1_inv in H1 as (_ & (ex & Hex & Hall & _) & _ & Hcwd).
  specialize (Hcwd Hcan). simpl in Hcwd.
  apply checkpoint_inv in H2 as (Henv & Htr & _).
  exists ex. repeat split; [congruence | done |].
  unfold w_cwd in *. congruence.
Qed.

Lemma at_staging_inv wd tb st dbg w w3 :
  at_staging wd tb st dbg w w3 → Path.canonical (w_cwd w) = true →
  ∃ ex l, trace w3 = trace w ++ ex ++ [EvChdir wd] ∧
          forallb is_extractor_event ex = true ∧
          Path.resolve (w_cwd w) wd = Some l ∧ w_cwd w3 = l.
Proof.
  intros (w2 & H2 & H3) Hcan.
  apply at_noted_inv in H2 as (ex & Hex & Hall & Hcwd); [|done].
  apply chdir_inv in H3 as (l & Hl & _ & ->).
  exists ex, l. world_simpl. repeat split; try done.
  - by rewrite Hex, <- app_assoc.
  - congruence.
Qed.

Lemma at_loaded_inv wd id tb st dbg w job w4 :
  at_loaded wd id tb st dbg w job w4 → Path.canonical (w_cwd w) = true →
  ∃ ex l, trace w4 = trace w ++ ex ++ [EvChdir wd; EvOpen (blob_name id); EvLoad] ∧
          forallb is_extractor_event ex = true ∧
          Path.resolve (w_cwd w) wd = Some l ∧ w_cwd w4 = l.
Proof.
  intros (w3 & H3 & H4) Hcan.
  apply at_staging_inv in H3 as (ex & l & Hex & Hall & Hl & Hcwd); [|done].
  apply open_and_load_inv in H4 as (Henv & _ & _ & data & _ & _ & Htr).
  exists ex, l. repeat split; try done.
  - by rewrite Htr, Hex, <- !app_assoc.
  - unfold w_cwd in *. congruence.
Qed.

Lemma at_noted_again_inv wd id tb st dbg w job w5 :
  at_noted_again wd id tb st dbg w job w5 → Path.canonical (w_cwd w) = true →
  ∃ ex l, trace w5 = trace w ++ ex ++ [EvChdir wd; EvOpen (blob_name id); EvLoad] ∧
          forallb is_extractor_event ex = true ∧
          Path.resolve (w_cwd w) wd = Some l ∧ w_cwd w5 = l.
Proof.
  intros (w4 & H4 & H5) Hcan.
  apply at_loaded_inv in H4 as (ex & l & Hex & Hall & Hl & Hcwd); [|done].
  apply checkpoint_inv in H5 as (Henv & Htr & _).
  exists ex, l. repeat split; try done; [congruence|].
  unfold w_cwd in *. congruence.
Qed.

(** When [job.work()] is called the process is back where it started. *)
Lemma at_work_inv wd id tb st dbg w job w6 :
  at_work wd id tb st dbg w job w6 → Path.canonical (w_cwd w) = true →
  ∃ ex, trace w6 = trace w ++ ex ++
          [EvChdir wd; EvOpen (blob_name id); EvLoad;
           EvChdir (Path.render (w_cwd w))] ∧
        forallb is_extractor_event ex = true ∧
        w_cwd w6 = w_cwd w.
Proof.
  intros (w5 & H5 & H6) Hcan.
  apply at_noted_again_inv in H5 as (ex & l & Hex & Hall & Hl & Hcwd); [|done].
  apply chdir_inv in H6 as (l' & Hl' & _ & ->).
  rewrite (PathFacts.resolve_render _ _ Hcan) in Hl'. simplify_eq.
  exists ex. world_simpl. repeat split; try done.
  by rewrite Hex, <- !app_assoc.
Qed.

Lemma extractor_events_elem ex ev :
  forallb is_extractor_event ex = true → ev ∈ ex → is_extractor_event ev = true.
Proof.
  intros Hall Hin. eapply forallb_forall in Hall; [done|].
  by apply list_elem_of_In.
Qed.

(** Closing the cases in which an event is claimed among the extractor's. *)
Ltac not_extractor :=
  match goal with
  | Hall : forallb is_extractor_event ?ex = true, Hin : ?ev ∈ ?ex |- _ =>
      by pose proof (extractor_events_elem _ _ Hall Hin)
  end.

(** Membership in a trace written as extractor events and a known tail. *)
Ltac split_members :=
  repeat match goal with
    | H : _ ∈ _ ++ _ |- _ => apply elem_of_app in H as [H|H]
    | H : _ ∈ _ :: _ |- _ => apply elem_of_cons in H as [H|H]
    | H : _ ∈ [] |- _ => by apply elem_of_nil in H
    end.

(** C5, as the code has it: [job.work()] is only ever called in the
    working directory the function was entered in, and is called there
    whenever the function returns; but the directory is restored only
    after the task is loaded, so a run that ends at opening or
    unpickling the blob raises with the process left in the staging
    directory, and never calls [work()]. *)
Theorem work_starts_in_original_cwd
    (wd id : string) (tb : bool) (st : option Z) (dbg : bool) (w : world) :
  Path.canonical (w_cwd w) = true →
  ∃ new, trace (do_work wd id tb st dbg w).1 = trace w ++ new ∧
    (∀ c, EvWork c ∈ new → c = w_cwd w) ∧
    ((do_work wd id tb st dbg w).2 = Ok tt → EvWork (w_cwd w) ∈ new) ∧
    (∀ l, Path.resolve (w_cwd w) wd = Some l →
       last new = Some (EvOpen (blob_name id)) ∨ last new = Some EvLoad →
       (∃ e, (do_work wd id tb st dbg w).2 = Raised e) ∧
       w_cwd (do_work wd id tb st dbg w).1 = l ∧
       ∀ c, EvWork c ∉ new).
Proof.
  intros Hcan. destruct (do_work wd id tb st dbg w) as [w' r] eqn:Hrun.
  apply do_work_cases in Hrun. cbn [fst snd].
  destruct Hrun as [w' e H1|w1 w' e H1 H2|w2 w' e H2 H3|w3 w' e H3 H4
                   |job w4 w' e H4 H5|job w5 w' e H5 H6|job w6 w' r H6 H7].
  - apply stage1_inv in H1 as (_ & (ex & Hex & Hall & _) & _).
    exists ex. split; [done|]. split; [|split; [done|]].
    + intros c Hin. not_extractor.
    + intros l _ [Hl|Hl]; apply last_Some_elem_of in Hl; not_extractor.
  - apply stage1_inv in H1 as (_ & (ex & Hex & Hall & _) & _).
    apply checkpoint_inv in H2 as (_ & Htr & _).
    exists ex. split; [congruence|]. split; [|split; [done|]].
    + intros c Hin. not_extractor.
    + intros l _ [Hl|Hl]; apply last_Some_elem_of in Hl; not_extractor.
  - apply at_noted_inv in H2 as (ex & Hex & Hall & Hcwd); [|done].
    apply chdir_inv in H3 as [-> _].
    exists (ex ++ [EvChdir wd]). world_simpl.
    split; [by rewrite Hex, <- app_assoc|]. split; [|split; [done|]].
    + intros c Hin. split_members; try done. not_extractor.
    + intros l _ [Hl|Hl]; by rewrite last_snoc in Hl.
  - apply at_staging_inv in H3 as (ex & l & Hex & Hall & Hl & Hcwd); [|done].
    apply open_and_load_inv in H4 as (Henv & _ & _ & Htr).
    assert (w_cwd w' = l) as Hcwd' by (unfold w_cwd in *; congruence).
    destruct Htr as [[Htr _]|(data & _ & _ & Htr)].
    + exists (ex ++ [EvChdir wd; EvOpen (blob_name id)]).
      split; [by rewrite Htr, Hex, <- !app_assoc|].
      assert (∀ c, EvWork c ∉ ex ++ [EvChdir wd; EvOpen (blob_name id)]) as Hno.
      { intros c Hin. split_members; try done. not_extractor. }
      split; [intros c Hin; by destruct (Hno c)|]. split; [done|].
      intros l' Hl' _. split; [by exists e|]. split; [congruence|done].
    + exists (ex ++ [EvChdir wd; EvOpen (blob_name id); EvLoad]).
      split; [by rewrite Htr, Hex, <- !app_assoc|].
      assert (∀ c, EvWork c ∉ ex ++ [EvChdir wd; EvOpen (blob_name id); EvLoad])
        as Hno.
      { intros c Hin. split_members; try done. not_extractor. }
      split; [intros c Hin; by destruct (Hno c)|]. split; [done|].
      intros l' Hl' _. split; [by exists e|]. split; [congruence|done].
  - apply at_loaded_inv in H4 as (ex & l & Hex & Hall & Hl & Hcwd); [|done].
    apply checkpoint_inv in H5 as (Henv & Htr & _).
    assert (w_cwd w' = l) as Hcwd' by (unfold w_cwd in *; congruence).
    exists (ex ++ [EvChdir wd; EvOpen (blob_name id); EvLoad]).
    split; [congruence|].
    assert (∀ c, EvWork c ∉ ex ++ [EvChdir wd; EvOpen (blob_name id); EvLoad])
      as Hno.
    { intros c Hin. split_members; try done. not_extractor. }
    split; [intros c Hin; by destruct (Hno c)|]. split; [done|].
    intros l' Hl' _. split; [by exists e|]. split; [congruence|done].
  - apply at_noted_again_inv in H5 as (ex & l & Hex & Hall & Hl & Hcwd); [|done].
    apply chdir_inv in H6 as [-> _].
    exists (ex ++ [EvChdir wd; EvOpen (blob_name id); EvLoad;
                   EvChdir (Path.render (w_cwd w))]).
    world_simpl. split; [by rewrite Hex, <- !app_assoc|].
    split; [|split; [done|]].
    + intros c Hin. split_members; try done. not_extractor.
    + intros l' _ [Hl'|Hl']; by rewrite last_app_cons in Hl'.
  - apply at_work_inv in H6 as (ex & Hex & Hall & Hcwd); [|done].
    apply job_work_inv in H7 as (Htr & _).
    exists (ex ++ [EvChdir wd; EvOpen (blob_name id); EvLoad;
                   EvChdir (Path.render (w_cwd w)); EvWork (w_cwd w)]).
    split; [by rewrite Htr, Hex, Hcwd, <- !app_assoc|].
    split; [|split].
    + intros c Hin. split_members; try done; [not_extractor | by simplify_eq].
    + intros _. apply elem_of_app. right. set_solver.
    + intros l' _ [Hl'|Hl']; by rewrite last_app_cons in Hl'.
Qed.

(** *** What extraction does to regular files

    A regular file found after extraction was there before or is a file
    member of the archive, unpacked to that place. *)

Lemma lookup_node_insert_file m l n bl d :
  Posix.lookup_node (<[l := n]> m) bl = Some (File d) →
  (bl = l ∧ n = File d) ∨ Posix.lookup_node m bl = Some (File d).
Proof.
  destruct bl as [|c bl]; [done|]. cbn [Posix.lookup_node].
  destruct (decide (l = c :: bl)) as [->|Hne].
  - rewrite lookup_insert_eq. intros [= ->]. by left.
  - rewrite lookup_insert_ne by done. by right.
Qed.

Lemma makedirs_files m base rest m' bl d :
  Posix.makedirs m base rest = Some m' →
  Posix.lookup_node m' bl = Some (File d) →
  Posix.lookup_node m bl = Some (File d).
Proof.
  revert m base. induction rest as [|c rest IH]; intros m base; cbn [Posix.makedirs].
  - by intros [= ->].
  - destruct (Posix.lookup_node m (base ++ [c])) as [[|x]|]; [eauto|done|].
    intros Hmk Hfile. specialize (IH _ _ Hmk Hfile).
    by apply lookup_node_insert_file in IH as [[_ ?]|?].
Qed.

Lemma extract_into_files m l data m' bl d :
  extract_into m l data = Some m' →
  Posix.lookup_node m' bl = Some (File d) →
  (bl = l ∧ data = Some d) ∨ Posix.lookup_node m bl = Some (File d).
Proof.
  unfold extract_into.
  destruct (Posix.makedirs m [] (removelast l)) as [m1|] eqn:Hmk; [|done].
  cbn [mbind option_bind]. intros Hinto Hfile.
  assert (Posix.lookup_node m1 bl = Some (File d) →
          Posix.lookup_node m bl = Some (File d)) as Hback
    by (by eapply makedirs_files).
  destruct data as [x|], (Posix.lookup_node m1 l) as [[|y]|];
    simplify_eq; eauto;
    apply lookup_node_insert_file in Hfile as [[-> ?]|?]; simplify_eq; eauto.
Qed.

Lemma tar_extract_files mb w w' r bl d :
  tar_extract mb w = (w', r) →
  w_cwd w' = w_cwd w ∧
  (Posix.lookup_node (w_fs w') bl = Some (File d) →
   (Path.resolve (w_cwd w) (m_name mb) = Some bl ∧ m_data mb = Some d) ∨
   Posix.lookup_node (w_fs w) bl = Some (File d)).
Proof.
  cbv [tar_extract bind modify extract_target].
  change (w_cwd (log_event (EvExtract mb) w)) with (w_cwd w).
  change (w_fs (log_event (EvExtract mb) w)) with (w_fs w).
  destruct (Path.resolve (w_cwd w) (m_name mb)) as [l|]; [|intros; simplify_eq; eauto].
  destruct (extract_into (w_fs w) l (m_data mb)) as [m'|] eqn:Hinto;
    intros; simplify_eq; [|eauto].
  split; [done|]. world_simpl. intros Hfile.
  destruct (extract_into_files _ _ _ _ _ _ Hinto Hfile) as [[-> ?]|?]; eauto.
Qed.

Lemma for_each_extract_files ms w w' r bl d :
  for_each ms tar_extract w = (w', r) →
  w_cwd w' = w_cwd w ∧
  (Posix.lookup_node (w_fs w') bl = Some (File d) →
   (∃ mb, mb ∈ ms ∧ Path.resolve (w_cwd w) (m_name mb) = Some bl ∧
          m_data mb = Some d) ∨
   Posix.lookup_node (w_fs w) bl = Some (File d)).
Proof.
  revert w. induction ms as [|mb ms IH]; intros w; cbn [for_each].
  - unfold ret. intros. simplify_eq. eauto.
  - intros H. apply bind_inv in H as [(e & H1 & ->)|(w1 & [] & H1 & H)].
    + destruct (tar_extract_files _ _ _ _ bl d H1) as [Hcwd Hfiles].
      split; [done|]. intros Hf. destruct (Hfiles Hf) as [[? ?]|?]; [|eauto].
      left. exists mb. split; [left|done].
    + destruct (tar_extract_files _ _ _ _ bl d H1) as [Hcwd Hfiles].
      destruct (IH _ H) as [Hcwd' Hfiles'].
      split; [congruence|]. intros Hf.
      destruct (Hfiles' Hf) as [(mb' & Hin & Hres & Hd)|Hold].
      * left. exists mb'. split; [by right|]. split; [congruence|done].
      * destruct (Hfiles Hold) as [[? ?]|?]; [|eauto].
        left. exists mb. split; [left|done].
Qed.

Lemma tarfile_open_inv pkg w w' r :
  tarfile_open tar_parse pkg w = (w', r) →
  w_env w' = w_env w ∧
  match r with
  | Ok ms => ∃ data, Posix.node_at w pkg = Some (File data) ∧ tar_parse data = Ok ms
  | Raised _ => True
  end.
Proof.
  cbv [tarfile_open bind modify Posix.read_file].
  change (Posix.node_at (log_event (EvTarOpen pkg) w) pkg) with (Posix.node_at w pkg).
  destruct (Posix.node_at w pkg) as [[|data]|]; intros; simplify_eq; try done.
  split; [done|]. destruct (tar_parse data) eqn:E; eauto.
Qed.

Lemma unpack_files pkg w w' r bl d :
  unpack tar_parse pkg w = (w', r) →
  Posix.lookup_node (w_fs w') bl = Some (File d) →
  (∃ data ms mb, Posix.node_at w pkg = Some (File data) ∧ tar_parse data = Ok ms ∧
                 mb ∈ ms ∧ Path.resolve (w_cwd w) (m_name mb) = Some bl ∧
                 m_data mb = Some d) ∨
  Posix.lookup_node (w_fs w) bl = Some (File d).
Proof.
  unfold unpack. intros H Hfile.
  apply bind_inv in H as [(e & H1 & ->)|(w1 & ms & H1 & H)];
    apply tarfile_open_inv in H1 as [Henv Hopen].
  { right. unfold w_fs in *. congruence. }
  destruct Hopen as (data & Hdata & Hparse).
  assert (∀ w2, w_fs w2 = w_fs w' → ∀ r2, for_each ms tar_extract w1 = (w2, r2) →
          (∃ data ms mb, Posix.node_at w pkg = Some (File data) ∧
                         tar_parse data = Ok ms ∧ mb ∈ ms ∧
                         Path.resolve (w_cwd w) (m_name mb) = Some bl ∧
                         m_data mb = Some d) ∨
          Posix.lookup_node (w_fs w) bl = Some (File d))
    as Hloop.
  { intros w2 Hfs r2 Hfor.
    destruct (for_each_extract_files _ _ _ _ bl d Hfor) as [_ Hfiles].
    rewrite Hfs in Hfiles.
    destruct (Hfiles Hfile) as [(mb & Hin & Hres & Hd)|Hold].
    - left. exists data, ms, mb. repeat split; try done.
      unfold w_cwd in *. congruence.
    - right. unfold w_fs in *. congruence. }
  apply bind_inv in H as [(e & H2 & ->)|(w2 & [] & H2 & H)]; [by eapply Hloop|].
  eapply Hloop; [|done].
  cbv [bind in_sys_path when sys_path_insert0 modify ret] in H.
  destruct (negb _); by simplify_eq.
Qed.

Lemma chdir_ok_locate p w w' :
  Posix.chdir p w = (w', Ok tt) →
  ∃ l, Posix.locate (w_fs w) (w_cwd w) p = Some l ∧
       Posix.lookup_node (w_fs w) l = Some Dir ∧
       w' = set_env (set_cwd l) (log_event (EvChdir p) w).
Proof.
  intros H. pose proof (chdir_ok_node _ _ _ H) as Hnode.
  apply chdir_inv in H as (l & Hl & Hdir & ->).
  apply WalkFacts.node_at_resolve in Hnode as (l' & Hl' & Hres & _).
  exists l. by simplify_eq.
Qed.

Lemma extract_files wd w w' r bl d :
  extract wd w = (w', r) →
  Posix.lookup_node (w_fs w') bl = Some (File d) →
  shipped w wd bl d ∨ Posix.lookup_node (w_fs w) bl = Some (File d).
Proof.
  intros Hrun Hfile. rewrite extract_unfold in Hrun. cbv zeta in Hrun.
  unfold bind at 1 in Hrun. rewrite exists_run in Hrun.
  destruct (negb _); [unfold ret in Hrun; simplify_eq; by right|].
  unfold bind at 1 in Hrun. cbn [Posix.abspath] in Hrun.
  apply bind_inv in Hrun as [(e & Hcd & ->)|(w3 & [] & Hcd & Hrun)].
  { apply chdir_inv in Hcd. destruct Hcd as [-> _]. by right. }
  apply chdir_ok_locate in Hcd as (sl & Hsl & _ & ->).
  change (Posix.locate (w_fs w) (w_cwd w) wd = Some sl) in Hsl.
  assert (∀ w4 r4, w_fs w4 = w_fs w' →
          unpack tar_parse (Path.join wd "packages.tar")
            (set_env (set_cwd sl)
               (log_event (EvChdir wd)
                  (log_event (EvExists (Path.join wd "packages.tar")) w)))
          = (w4, r4) →
          shipped w wd bl d ∨ Posix.lookup_node (w_fs w) bl = Some (File d))
    as Hun.
  { intros w4 r4 Hfs Hun. rewrite <- Hfs in Hfile.
    apply (unpack_files _ _ _ _ _ _ Hun) in Hfile
      as [(data & ms & mb & Hdata & Hparse & Hin & Hres & Hd)|Hold]; [|by right].
    left. exists sl, ms, mb. split; [|done].
    split; [done|]. by exists data. }
  apply bind_inv in Hrun as [(e & H4 & ->)|(w4 & [] & H4 & Hback)];
    [by eapply Hun|].
  eapply Hun; [|done].
  apply chdir_inv in Hback. destruct r as [[]|e].
  - by destruct Hback as (l' & _ & _ & ->).
  - by destruct Hback as [-> _].
Qed.

(** *** From [main] into [_do_work_on_compute_node] *)

Local Abbreviation entry := (at_entry clock fmt_ctime).
Local Abbreviation finish := (run_loaded task work clock fmt_seconds).
Local Abbreviation materialize := (materialize_and_run task pickle_load work clock fmt_seconds).

Lemma main_try_enters args w wd pd id :
  args !! 1 = Some wd → args !! 2 = Some pd → args !! 3 = Some id →
  is_Some (Posix.node_at w wd) →
  body args w =
    do_work wd id (bool_decide ("--tarball" ∈ args))
            (started (bool_decide ("--debug" ∈ args)) w)
            (bool_decide ("--debug" ∈ args))
            (entry (bool_decide ("--debug" ∈ args)) wd pd w).
Proof.
  intros Hwd Hpd Hid Hex. rewrite main_try_prelude. cbv zeta.
  unfold index. rewrite Hwd, Hpd, Hid. unfold bind at 1. cbn [ret].
  unfold bind at 1. rewrite exists_run, node_at_prelude.
  by rewrite bool_decide_eq_true_2 by done.
Qed.

Lemma at_entry_env dbg wd pd w :
  w_fs (entry dbg wd pd w) = w_fs w ∧ w_cwd (entry dbg wd pd w) = w_cwd w ∧
  w_sys_path (entry dbg wd pd w) = w_sys_path w ++ [pd].
Proof.
  unfold at_entry, after_prelude, configure_logging.
  by destruct dbg; simpl; destruct (log_level w).
Qed.

Lemma at_entry_streams dbg wd pd w :
  stdout (entry dbg wd pd w) = stdout w ∧
  trace (entry dbg wd pd w) = trace w ++ [EvExists wd] ∧
  stderr (entry dbg wd pd w) =
    stderr w ++ (if dbg
                 then ["starting at " +:+ fmt_ctime (clock (S (clock_reads w))) +:+ nl]
                 else []) ∧
  clock_reads (entry dbg wd pd w) =
    (if dbg then S (S (clock_reads w)) else clock_reads w).
Proof.
  unfold at_entry, after_prelude, configure_logging.
  destruct dbg; simpl; destruct (log_level w); simpl; by rewrite ?app_nil_r.
Qed.

Lemma node_at_entry dbg wd pd w p :
  Posix.node_at (entry dbg wd pd w) p = Posix.node_at w p.
Proof.
  unfold Posix.node_at.
  destruct (at_entry_env dbg wd pd w) as (-> & -> & _). done.
Qed.

(** What [main] adds to its body: the failure line for an instance of
    [Exception], nothing else. *)
Lemma main_report args w :
  (run args w).2 = (body args w).2 ∧
  stdout (run args w).1 =
    stdout w ++ match (body args w).2 with
                | Raised e => if is_exception e then [exn_str e] else []
                | Ok _ => []
                end ∧
  stderr (run args w).1 = stderr (body args w).1 ∧
  trace (run args w).1 = trace (body args w).1 ∧
  w_env (run args w).1 = w_env (body args w).1.
Proof.
  pose proof (main_try_same_stdout args w) as Hout. unfold same_stdout in Hout.
  unfold main. destruct (body args w) as [w' [[]|e]]; simpl in *.
  - by rewrite app_nil_r.
  - destruct (is_exception e); simpl; by rewrite Hout, ?app_nil_r.
Qed.


Lemma do_work_unfold wd id tb st dbg w :
  do_work wd id tb st dbg w =
    (when tb (extract wd) ;;
     note "extracted tar after " st dbg ;;
     materialize wd id st dbg (Path.render (w_cwd w))) w.
Proof. reflexivity. Qed.

(** *** The materializer and the execution runner *)

Lemma job_work_emits P job :
  (∀ c, P (EvWork c) = true) → respects (emits P) (job_work task work job).
Proof.
  intros HP w. destruct (job_work task work job w) as [w' r] eqn:H.
  apply job_work_inv in H as (Htr & _). exists [EvWork (w_cwd w)].
  split; [done|]. simpl. by rewrite HP.
Qed.

Lemma materialize_emits P wd id st dbg cwd0 :
  (∀ p, P (EvChdir p) = true) → (∀ p, P (EvOpen p) = true) →
  P EvLoad = true → (∀ c, P (EvWork c) = true) →
  respects (emits P) (materialize wd id st dbg cwd0).
Proof.
  intros Hcd Hop Hld Hwk.
  unfold materialize_and_run, run_loaded, checkpoint,
    elapsed, stderr_write, open_and_load, Posix.chdir.
  respects_split;
    try (by apply job_work_emits); try (by apply emits_log);
    apply emits_silent; respects_leaf.
Qed.

Lemma materialize_stderr wd id st dbg cwd0 :
  respects stderr_grows (materialize wd id st dbg cwd0).
Proof.
  unfold materialize_and_run, run_loaded, checkpoint,
    elapsed, stderr_write, open_and_load, Posix.chdir.
  respects_split;
    try (intros w; destruct (job_work task work _ w) as [w' r] eqn:H;
         apply job_work_inv in H as (_ & _ & Herr); exists [];
         by rewrite app_nil_r);
    try (intros w; by eexists);
    intros w; exists []; rewrite app_nil_r; revert w; respects_leaf.
Qed.

Lemma note_run_debug label t0 w :
  note label (Some t0) true w =
    (World (w_env w) (stdout w)
           (stderr w ++ [label +:+ fmt_seconds (clock (clock_reads w) - t0) +:+
                         " seconds" +:+ nl])
           (trace w) (S (clock_reads w)) (log_level w), Ok tt).
Proof. reflexivity. Qed.

Lemma note_run_silent label st w : note label st false w = (w, Ok tt).
Proof. reflexivity. Qed.

Lemma do_work_debug_only wd id t0 w :
  do_work wd id false (Some t0) true w =
    materialize wd id (Some t0) true (Path.render (w_cwd w))
      (World (w_env w) (stdout w)
             (stderr w ++ ["extracted tar after " +:+
                           fmt_seconds (clock (clock_reads w) - t0) +:+
                           " seconds" +:+ nl])
             (trace w) (S (clock_reads w)) (log_level w)).
Proof. reflexivity. Qed.

(** C10: with [--debug] and without [--tarball], once the precondition
    check has passed the line "extracted tar after ... seconds" is written
    to standard error, right after the start line, although no archive
    was opened and no member extracted. *)
Theorem debug_note_without_extraction
    (args : list string) (w : world) (wd pd id : string) :
  "--debug" ∈ args → "--tarball" ∉ args →
  args !! 1 = Some wd → args !! 2 = Some pd → args !! 3 = Some id →
  is_Some (Posix.node_at w wd) →
  (∃ more,
     stderr (run args w).1 =
       stderr w ++
       ["starting at " +:+ fmt_ctime (clock (S (clock_reads w))) +:+ nl;
        "extracted tar after " +:+
          fmt_seconds (clock (S (S (clock_reads w))) - clock (clock_reads w)) +:+
          " seconds" +:+ nl] ++ more) ∧
  (∃ new, trace (run args w).1 = trace w ++ new ∧
          forallb (λ ev, negb (is_extraction ev)) new = true).
Proof.
  intros Hdbg Htb Hwd Hpd Hid Hex.
  destruct (main_report args w) as (_ & _ & -> & -> & _).
  rewrite (main_try_enters _ _ _ _ _ Hwd Hpd Hid Hex).
  rewrite (bool_decide_eq_true_2 _ Hdbg), (bool_decide_eq_false_2 _ Htb).
  unfold start_time_of. rewrite do_work_debug_only.
  destruct (at_entry_streams true wd pd w) as (_ & Htr & Herr & Hclk).
  destruct (at_entry_env true wd pd w) as (_ & Hcwd & _).
  set (w1 := entry true wd pd w) in *.
  match goal with
  | |- context [materialize _ _ _ _ _ ?w2] =>
      pose proof (materialize_stderr wd id (Some (clock (clock_reads w))) true
                    (Path.render (w_cwd w1)) w2) as (more & Hmore);
      pose proof (materialize_emits (λ ev, negb (is_extraction ev)) wd id
                    (Some (clock (clock_reads w))) true
                    (Path.render (w_cwd w1)) (λ _, eq_refl) (λ _, eq_refl)
                    eq_refl (λ _, eq_refl) w2) as (new & Hnew & Hall);
      destruct (materialize wd id (Some (clock (clock_reads w))) true
                  (Path.render (w_cwd w1)) w2) as [w' r]
  end.
  cbn [stderr trace clock_reads fst] in *.
  split.
  - exists more. rewrite Hmore, Herr, Hclk. by rewrite <- !app_assoc.
  - exists (EvExists wd :: new). rewrite Hnew, Htr. split; [|done].
    by rewrite <- app_assoc.
Qed.

Lemma chdir_run_dir p l w :
  Posix.locate (w_fs w) (w_cwd w) p = Some l →
  Posix.lookup_node (w_fs w) l = Some Dir →
  Posix.chdir p w = (set_env (set_cwd l) (log_event (EvChdir p) w), Ok tt).
Proof.
  intros Hl Hdir. cbv [Posix.chdir bind modify].
  change (w_cwd (log_event (EvChdir p) w)) with (w_cwd w).
  change (w_fs (log_event (EvChdir p) w)) with (w_fs w).
  by rewrite Hl, Hdir.
Qed.

Lemma finish_emits st dbg cwd0 job :
  respects (emits (λ _, true)) (finish st dbg cwd0 job).
Proof.
  unfold run_loaded, checkpoint, elapsed, stderr_write, Posix.chdir.
  respects_split;
    try (by apply job_work_emits); try (by apply emits_log);
    apply emits_silent; respects_leaf.
Qed.

(** In an existing staging directory the materializer goes on to open
    the blob. *)
Lemma materialize_from_dir wd id st dbg cwd0 l w :
  Posix.locate (w_fs w) (w_cwd w) wd = Some l →
  Posix.lookup_node (w_fs w) l = Some Dir →
  ∃ rest, trace (materialize wd id st dbg cwd0 w).1 =
            trace w ++ [EvChdir wd; EvOpen (blob_name id)] ++ rest.
Proof.
  intros Hl Hdir. unfold materialize_and_run. unfold bind at 1.
  rewrite (chdir_run_dir _ _ _ Hl Hdir). unfold bind at 1.
  match goal with
  | |- context [open_and_load _ _ _ ?w3] =>
      destruct (open_and_load task pickle_load (blob_name id) w3)
        as [w4 [job|e]] eqn:Hload;
      apply open_and_load_inv in Hload as (_ & _ & _ & Hload)
  end; world_simpl.
  - destruct Hload as (data & _ & _ & Htr).
    destruct (finish_emits st dbg cwd0 job w4) as (new & Hnew & _).
    exists (EvLoad :: new). rewrite Hnew, Htr. by rewrite <- !app_assoc.
  - destruct Hload as [[Htr _]|(data & _ & _ & Htr)]; simpl.
    + exists []. rewrite Htr. by rewrite <- !app_assoc.
    + exists [EvLoad]. rewrite Htr. by rewrite <- !app_assoc.
Qed.

(** C6: with [--tarball], a staging directory that exists and no
    [packages.tar] in it, the extractor only looks for the archive and
    returns: no error, and working directory, [sys.path] and file system
    are as [main] left them; the materializer then runs: the process
    enters the staging directory and opens the blob. *)
Theorem tarball_without_archive
    (args : list string) (w : world) (wd pd id : string) :
  "--tarball" ∈ args →
  args !! 1 = Some wd → args !! 2 = Some pd → args !! 3 = Some id →
  Posix.node_at w wd = Some Dir →
  Posix.node_at w (Path.join wd "packages.tar") = None →
  (let w1 := entry (bool_decide ("--debug" ∈ args)) wd pd w in
   (extract wd w1).2 = Ok tt ∧
   w_env (extract wd w1).1 = w_env w1 ∧
   trace (extract wd w1).1 = trace w1 ++ [EvExists (Path.join wd "packages.tar")]) ∧
  ∃ rest,
    trace (run args w).1 =
      trace w ++ [EvExists wd; EvExists (Path.join wd "packages.tar");
                  EvChdir wd; EvOpen (blob_name id)] ++ rest.
Proof.
  intros Htb Hwd Hpd Hid Hdir Hnone.
  set (dbg := bool_decide ("--debug" ∈ args)).
  assert (extract wd (entry dbg wd pd w) =
          (log_event (EvExists (Path.join wd "packages.tar")) (entry dbg wd pd w),
           Ok tt)) as Hext.
  { apply extract_absent. by rewrite node_at_entry. }
  split; [cbv zeta; by rewrite Hext|].
  destruct (main_report args w) as (_ & _ & _ & -> & _).
  rewrite (main_try_enters _ _ _ _ _ Hwd Hpd Hid) by (by rewrite Hdir).
  rewrite (bool_decide_eq_true_2 _ Htb). fold dbg.
  rewrite do_work_unfold. unfold bind at 1. cbn [when]. rewrite Hext.
  destruct (at_entry_streams dbg wd pd w) as (_ & Htr & _).
  destruct (at_entry_env dbg wd pd w) as (Hfs & Hcwd & _).
  apply WalkFacts.node_at_resolve in Hdir as (sl & Hsl & _ & Hdir).
  unfold bind at 1.
  destruct (note "extracted tar after " (started dbg w) dbg
              (log_event (EvExists (Path.join wd "packages.tar"))
                         (entry dbg wd pd w))) as [w2 [[]|e]] eqn:Hnote;
    apply checkpoint_inv in Hnote as (Henv & Htr2 & _ & Hst).
  - destruct (materialize_from_dir wd id (started dbg w) dbg
                (Path.render (w_cwd (entry dbg wd pd w))) sl w2) as [rest Hrest].
    + unfold w_cwd, w_fs in *. rewrite Henv. world_simpl. congruence.
    + unfold w_fs in *. rewrite Henv. world_simpl. congruence.
    + exists rest. rewrite Hrest, Htr2. world_simpl. rewrite Htr.
      by rewrite <- !app_assoc.
  - destruct Hst as (Hdbg & Hno & _). unfold start_time_of in Hno.
    by rewrite Hdbg in Hno.
Qed.

(** *** A staging directory without the blob *)

Lemma extractor_events_no_work ex :
  forallb is_extractor_event ex = true →
  forallb (λ ev, negb (is_work ev)) ex = true.
Proof.
  intros Hall. apply forallb_forall. intros ev Hin.
  eapply forallb_forall in Hall; [|done]. by destruct ev.
Qed.


(** No blob lies where the materializer looks for it, when none was
    staged and the archive does not bring one. *)
Lemma blob_not_at_staging wd id tb st dbg w w3 sl bl :
  Path.canonical (w_cwd w) = true →
  Path.resolve (w_cwd w) wd = Some sl →
  Path.resolve sl (blob_name id) = Some bl →
  (∀ d, Posix.lookup_node (w_fs w) bl ≠ Some (File d)) →
  (tb = true → ∀ d, ¬ shipped w wd bl d) →
  at_staging wd tb st dbg w w3 →
  ∀ data, Posix.node_at w3 (blob_name id) ≠ Some (File data).
Proof.
  intros Hcan Hsl Hbl Hnone Hship (w2 & (w1 & H1 & H2) & H3).
  assert (w_cwd w1 = w_cwd w ∧
          ∀ d, Posix.lookup_node (w_fs w1) bl ≠ Some (File d)) as [Hcwd1 Hnone1].
  { unfold at_extracted in H1.
    destruct (stage1_inv _ _ _ _ _ H1) as (_ & _ & Hoff & Hcwd).
    split; [by apply Hcwd|]. intros d Hfile.
    destruct tb; cbn [when] in H1.
    - destruct (extract_files _ _ _ _ _ _ H1 Hfile) as [Hs|Hold].
      + by apply (Hship eq_refl d).
      + by apply (Hnone d).
    - destruct (Hoff eq_refl) as [-> _]. by apply (Hnone d). }
  apply checkpoint_inv in H2 as (Henv2 & _).
  apply chdir_inv in H3 as (l & Hl & _ & ->).
  assert (l = sl) as -> by (unfold w_cwd in *; congruence).
  intros data Hnode.
  apply WalkFacts.node_at_resolve in Hnode as (bl' & _ & Hbl' & Hnode).
  world_simpl. rewrite Hbl in Hbl'. injection Hbl' as <-.
  apply (Hnone1 data). by rewrite <- Henv2.
Qed.

(** The task cannot get loaded then. *)
Lemma at_loaded_impossible wd id tb st dbg w job w4 sl bl :
  Path.canonical (w_cwd w) = true →
  Path.resolve (w_cwd w) wd = Some sl →
  Path.resolve sl (blob_name id) = Some bl →
  (∀ d, Posix.lookup_node (w_fs w) bl ≠ Some (File d)) →
  (tb = true → ∀ d, ¬ shipped w wd bl d) →
  at_loaded wd id tb st dbg w job w4 → False.
Proof.
  intros Hcan Hsl Hbl Hnone Hship (w3 & H3 & H4).
  apply open_and_load_inv in H4 as (_ & _ & _ & data & Hnode & _).
  by apply (blob_not_at_staging _ _ _ _ _ _ _ _ _ Hcan Hsl Hbl Hnone Hship H3 data).
Qed.




(** *** Extraction into a staging directory named by an absolute path *)

Lemma lookup_node_insert_some m l n k :
  is_Some (Posix.lookup_node m k) → is_Some (Posix.lookup_node (<[l := n]> m) k).
Proof.
  destruct k as [|c k]; [done|]. cbn [Posix.lookup_node].
  destruct (decide (l = c :: k)) as [->|Hne].
  - rewrite lookup_insert_eq. by eexists.
  - by rewrite lookup_insert_ne.
Qed.

Lemma lookup_node_insert_here m l n : is_Some (Posix.lookup_node (<[l := n]> m) l).
Proof.
  destruct l as [|c l]; [by eexists|]. cbn [Posix.lookup_node].
  rewrite lookup_insert_eq. by eexists.
Qed.

Lemma makedirs_keeps m base rest m' k :
  Posix.makedirs m base rest = Some m' →
  is_Some (Posix.lookup_node m k) → is_Some (Posix.lookup_node m' k).
Proof.
  revert m base. induction rest as [|c rest IH]; intros m base; cbn [Posix.makedirs].
  - by intros [= ->].
  - destruct (Posix.lookup_node m (base ++ [c])) as [[|x]|]; [eauto|done|].
    intros Hmk Hk. eapply IH; [done|]. by apply lookup_node_insert_some.
Qed.

Lemma extract_into_keeps m l data m' k :
  extract_into m l data = Some m' →
  is_Some (Posix.lookup_node m k) → is_Some (Posix.lookup_node m' k).
Proof.
  unfold extract_into.
  destruct (Posix.makedirs m [] (removelast l)) as [m1|] eqn:Hmk; [|done].
  cbn [mbind option_bind]. intros Hinto Hk.
  apply (makedirs_keeps _ _ _ _ _ Hmk) in Hk.
  destruct data as [x|], (Posix.lookup_node m1 l) as [[|y]|];
    simplify_eq; try done; by apply lookup_node_insert_some.
Qed.

Lemma extract_into_there m l data m' :
  extract_into m l data = Some m' → is_Some (Posix.lookup_node m' l).
Proof.
  unfold extract_into.
  destruct (Posix.makedirs m [] (removelast l)) as [m1|]; [|done].
  cbn [mbind option_bind].
  destruct data as [x|], (Posix.lookup_node m1 l) as [[|y]|] eqn:E;
    intros; simplify_eq; try (by rewrite E); apply lookup_node_insert_here.
Qed.

Lemma tar_extract_inv mb w w' r :
  tar_extract mb w = (w', r) →
  w_cwd w' = w_cwd w ∧
  (∀ k, is_Some (Posix.lookup_node (w_fs w) k) →
        is_Some (Posix.lookup_node (w_fs w') k)) ∧
  (r = Ok tt →
   ∃ l, Path.resolve (w_cwd w) (m_name mb) = Some l ∧
        is_Some (Posix.lookup_node (w_fs w') l)).
Proof.
  cbv [tar_extract bind modify extract_target].
  change (w_cwd (log_event (EvExtract mb) w)) with (w_cwd w).
  change (w_fs (log_event (EvExtract mb) w)) with (w_fs w).
  destruct (Path.resolve (w_cwd w) (m_name mb)) as [l|]; [|intros; by simplify_eq].
  destruct (extract_into (w_fs w) l (m_data mb)) as [m'|] eqn:Hinto;
    intros; simplify_eq; [|done].
  world_simpl. repeat split.
  - intros k. by apply (extract_into_keeps _ _ _ _ _ Hinto).
  - intros _. exists l. split; [done|]. by apply (extract_into_there _ _ _ _ Hinto).
Qed.

(** Every member of an archive that unpacked without error is there
    afterwards, where its name points from the directory of unpacking. *)
Lemma for_each_extract_all ms w w' :
  for_each ms tar_extract w = (w', Ok tt) →
  w_cwd w' = w_cwd w ∧
  (∀ k, is_Some (Posix.lookup_node (w_fs w) k) →
        is_Some (Posix.lookup_node (w_fs w') k)) ∧
  ∀ mb, mb ∈ ms →
    ∃ l, Path.resolve (w_cwd w) (m_name mb) = Some l ∧
         is_Some (Posix.lookup_node (w_fs w') l).
Proof.
  revert w. induction ms as [|m0 ms IH]; intros w; cbn [for_each].
  - unfold ret. intros. simplify_eq. repeat split; [done|].
    intros mb Hin. by apply elem_of_nil in Hin.
  - intros H. apply bind_inv_ok in H as (w1 & [] & H1 & H).
    apply tar_extract_inv in H1 as (Hcwd1 & Hkeep1 & Hthere).
    destruct (Hthere eq_refl) as (l0 & Hl0 & Hex0).
    destruct (IH _ H) as (Hcwd & Hkeep & Hall).
    split; [congruence|]. split; [eauto|].
    intros mb Hin. apply elem_of_cons in Hin as [->|Hin].
    + exists l0. eauto.
    + destruct (Hall mb Hin) as (l & Hl & Hex). exists l.
      split; [congruence|done].
Qed.

Lemma join_absolute wd b :
  Path.startswith_slash wd = true →
  Path.startswith_slash b = false →
  Path.startswith_slash (Path.join wd b) = true ∧ Path.join wd b ≠ "".
Proof.
  intros Hwd Hb. unfold Path.join. rewrite Hb.
  destruct wd as [|c wd]; [done|]. cbn [Path.startswith_slash] in Hwd.
  by destruct (_ || _); rewrite PathFacts.app_cons.
Qed.

Lemma resolve_absolute c1 c2 p :
  Path.startswith_slash p = true → Path.resolve c1 p = Path.resolve c2 p.
Proof. intros Hp. unfold Path.resolve. by rewrite Hp. Qed.

(** X15: with the staging directory named by an absolute path, an extractor
    that returns has put every member of the staging directory's archive
    under the staging directory, and the working directory is as before. *)
Lemma absolute_staging_dir_unpacked wd w w' sl data ms :
  Path.startswith_slash wd = true →
  Path.canonical (w_cwd w) = true →
  Path.resolve (w_cwd w) wd = Some sl →
  Posix.node_at w (Path.join wd "packages.tar") = Some (File data) →
  tar_parse data = Ok ms →
  extract wd w = (w', Ok tt) →
  w_cwd w' = w_cwd w ∧
  ∀ mb, mb ∈ ms →
    ∃ l, Path.resolve sl (m_name mb) = Some l ∧
         is_Some (Posix.lookup_node (w_fs w') l).
Proof.
  intros Habs Hcan Hsl Hpkg Hparse Hrun.
  split; [by apply (extract_cwd _ _ _ _ Hrun)|].
  rewrite extract_unfold in Hrun. cbv zeta in Hrun.
  unfold bind at 1 in Hrun. rewrite exists_run, Hpkg in Hrun.
  rewrite bool_decide_eq_true_2 in Hrun by (by eexists).
  cbn [negb] in Hrun. unfold bind at 1 in Hrun. cbn [Posix.abspath] in Hrun.
  apply bind_inv_ok in Hrun as (w3 & [] & Hcd & Hrun).
  apply chdir_inv in Hcd as (l & Hl & _ & ->).
  change (Path.resolve (w_cwd w) wd = Some l) in Hl.
  assert (l = sl) as -> by congruence.
  apply bind_inv_ok in Hrun as (w4 & [] & Hun & Hback).
  unfold unpack in Hun.
  apply bind_inv_ok in Hun as (w5 & ms' & Hopen & Hun).
  apply tarfile_open_inv in Hopen as (Henv5 & data' & Hnode & Hparse').
  assert (data' = data ∧ ms' = ms) as [-> ->].
  { destruct (join_absolute wd "packages.tar" Habs eq_refl) as [Hj _].
    rewrite (WalkFacts.node_at_absolute _ w _ Hj) in Hnode by done.
    split; congruence. }
  apply bind_inv_ok in Hun as (w6 & [] & Hfor & Hpath).
  apply for_each_extract_all in Hfor as (Hcwd6 & _ & Hall).
  assert (w_fs w' = w_fs w6) as ->.
  { apply chdir_inv in Hback as (l' & _ & _ & ->).
    cbv [bind in_sys_path when sys_path_insert0 modify ret] in Hpath.
    destruct (negb _); by simplify_eq. }
  intros mb Hin. destruct (Hall mb Hin) as (l & Hl' & Hex). exists l.
  split; [|done]. rewrite <- Hl'. f_equal.
  unfold w_cwd in *. by rewrite Henv5.
Qed.

(** *** The claims on the extractor, the message and the argument vector *)

(** C4, as the code has it: the extractor puts the working directory back
    when it returns; when it raises after entering the staging directory
    (the archive does not open, a member does not extract, the way back
    fails) the process is left in the staging directory. *)
Theorem extractor_restores_cwd_on_return (wd : string) (w : world) :
  Path.canonical (w_cwd w) = true →
  match (extract wd w).2 with
  | Ok _ => w_cwd (extract wd w).1 = w_cwd w
  | Raised _ =>
      ∀ l, Path.resolve (w_cwd w) wd = Some l →
           Posix.lookup_node (w_fs w) l = Some Dir →
           w_cwd (extract wd w).1 = l
  end.
Proof.
  intros Hcan. destruct (extract wd w) as [w' r] eqn:Hrun.
  by apply (extract_cwd _ _ _ _ Hrun).
Qed.

(** C9, as the code has it: the error of the failed precondition is an
    [AssertionError] whose text is the fixed sentence of the [assert]
    statement, the same for every path; that sentence is what is printed. *)
Theorem precondition_error_is_fixed_sentence
    (args : list string) (w : world) (wd : string) :
  args !! 1 = Some wd →
  Posix.node_at w wd = None →
  (run args w).2 =
    Raised (Exn "AssertionError"
                "First argument to sge_runner.py must be a directory that exists") ∧
  stdout (run args w).1 =
    stdout w ++ ["First argument to sge_runner.py must be a directory that exists"].
Proof.
  intros Hwd Hnone.
  destruct (main_report args w) as (-> & -> & _).
  by rewrite (main_try_missing _ _ _ Hwd Hnone).
Qed.

(** C2, as the code has it: the staging directory, the project directory
    and the job identifier are the arguments at positions 1, 2 and 3,
    whatever they are: the first is what is tested for existence and
    entered, the second is appended to [sys.path], the third names the
    blob.  The flags are looked for in the whole vector, so they are
    recognised wherever they stand, and they leave the three positions
    alone exactly when they follow the job identifier. *)
Theorem main_binds_positions (prog wd pd id : string) (rest : list string) (w : world) :
  let args := prog :: wd :: pd :: id :: rest in
  let debug := bool_decide ("--debug" ∈ args) in
  let tarball := bool_decide ("--tarball" ∈ args) in
  body args w =
    (present <- Posix.exists_ wd ;;
     assert_ present precondition_message ;;
     sys_path_append pd ;;
     do_work wd id tarball (started debug w) debug)
    (prelude_world debug w).
Proof. intros args debug tarball. by rewrite main_try_prelude. Qed.

(** *** The order of the calls *)

Lemma for_each_extract_trace ms w w' r :
  for_each ms tar_extract w = (w', r) →
  ∃ k, (k ≤ length ms)%nat ∧ trace w' = trace w ++ map EvExtract (take k ms) ∧
       (r = Ok tt → k = length ms).
Proof.
  revert w. induction ms as [|m0 ms IH]; intros w; cbn [for_each].
  - unfold ret. intros. simplify_eq. exists 0. by rewrite app_nil_r.
  - intros H. apply bind_inv in H as [(e & H1 & ->)|(w1 & [] & H1 & H)].
    + exists 1. cbv [tar_extract bind modify] in H1.
      repeat case_match; simplify_eq/=; repeat split; try done; lia.
    + assert (trace w1 = trace w ++ [EvExtract m0]) as Htr1.
      { cbv [tar_extract bind modify] in H1. repeat case_match; by simplify_eq/=. }
      destruct (IH _ H) as (k & Hk & Htr & Hok).
      exists (S k). cbn [length take map]. repeat split; [lia | | naive_solver].
      by rewrite Htr, Htr1, <- app_assoc.
Qed.

Lemma unpack_trace pkg w w' r :
  unpack tar_parse pkg w = (w', r) →
  ∃ ms k, (k ≤ length ms)%nat ∧
    trace w' = trace w ++ EvTarOpen pkg :: map EvExtract (take k ms) ∧
    (r = Ok tt → k = length ms).
Proof.
  unfold unpack. intros H.
  apply bind_inv in H as [(e & H1 & ->)|(w1 & ms & H1 & H)].
  - exists [], 0. cbv [tarfile_open bind modify Posix.read_file] in H1.
    repeat case_match; simplify_eq/=; by repeat split.
  - assert (trace w1 = trace w ++ [EvTarOpen pkg]) as Htr1.
    { cbv [tarfile_open bind modify Posix.read_file] in H1.
      repeat case_match; by simplify_eq/=. }
    assert (∀ w2 r2, for_each ms tar_extract w1 = (w2, r2) → trace w' = trace w2 →
            ∃ k, (k ≤ length ms)%nat ∧
              trace w' = trace w ++ EvTarOpen pkg :: map EvExtract (take k ms) ∧
              (r2 = Ok tt → k = length ms)) as Hloop.
    { intros w2 r2 Hfor Heq.
      apply for_each_extract_trace in Hfor as (k & Hk & Htr & Hok).
      exists k. repeat split; [done | | done].
      by rewrite Heq, Htr, Htr1, <- app_assoc. }
    apply bind_inv in H as [(e & H2 & ->)|(w2 & [] & H2 & H)].
    + destruct (Hloop _ _ H2 eq_refl) as (k & ? & ? & _).
      exists ms, k. by repeat split.
    + destruct (Hloop _ _ H2) as (k & ? & ? & Hok).
      { cbv [bind in_sys_path when sys_path_insert0 modify ret] in H.
        destruct (negb _); by simplify_eq. }
      exists ms, k. repeat split; try done. intros _. by apply Hok.
Qed.



Lemma at_noted_trace wd tb st dbg w w2 :
  at_noted wd tb st dbg w w2 →
  ∃ ex, trace w2 = trace w ++ ex ∧ forallb is_extractor_event ex = true ∧
        (tb = false → ex = []).
Proof.
  intros (w1 & H1 & H2).
  apply stage1_inv in H1 as (_ & (ex & Hex & Hall & Hoff) & _).
  apply checkpoint_inv in H2 as (_ & Htr & _).
  exists ex. repeat split; [congruence | done | done].
Qed.

Lemma at_loaded_trace wd id tb st dbg w job w4 :
  at_loaded wd id tb st dbg w job w4 →
  ∃ ex, trace w4 = trace w ++ ex ++ [EvChdir wd; EvOpen (blob_name id); EvLoad] ∧
        forallb is_extractor_event ex = true ∧ (tb = false → ex = []).
Proof.
  intros (w3 & (w2 & H2 & H3) & H4).
  apply at_noted_trace in H2 as (ex & Hex & Hall & Hoff).
  apply chdir_inv in H3 as (l & _ & _ & ->).
  apply open_and_load_inv in H4 as (_ & _ & _ & data & _ & _ & Htr).
  exists ex. repeat split; [|done|done]. rewrite Htr. world_simpl.
  by rewrite Hex, <- !app_assoc.
Qed.

(** The calls of [_do_work_on_compute_node], in the order made. *)
Lemma do_work_script
    (wd id : string) (tb : bool) (st : option Z) (dbg : bool) (w : world) :
  ∃ ex tail c,
    trace (do_work wd id tb st dbg w).1 = trace w ++ ex ++ tail ∧
    forallb is_extractor_event ex = true ∧ (tb = false → ex = []) ∧
    tail `prefix_of` materializer_script wd id (Path.render (w_cwd w)) c ∧
    ((do_work wd id tb st dbg w).2 = Ok tt →
     tail = materializer_script wd id (Path.render (w_cwd w)) c).
Proof.
  destruct (do_work wd id tb st dbg w) as [w' r] eqn:Hrun.
  apply do_work_cases in Hrun. cbn [fst snd]. unfold materializer_script.
  destruct Hrun as [w' e H1|w1 w' e H1 H2|w2 w' e H2 H3|w3 w' e H3 H4
                   |job w4 w' e H4 H5|job w5 w' e H5 H6|job w6 w' r H6 H7].
  - apply stage1_inv in H1 as (_ & (ex & Hex & Hall & Hoff) & _).
    exists ex, [], []. rewrite app_nil_r. repeat split; try done. by eexists.
  - apply stage1_inv in H1 as (_ & (ex & Hex & Hall & Hoff) & _).
    apply checkpoint_inv in H2 as (_ & Htr & _).
    exists ex, [], []. rewrite app_nil_r.
    repeat split; try done; [congruence | by eexists].
  - apply at_noted_trace in H2 as (ex & Hex & Hall & Hoff).
    apply chdir_inv in H3 as [-> _].
    exists ex, [EvChdir wd], []. world_simpl.
    repeat split; try done; [by rewrite Hex, <- app_assoc | by eexists].
  - destruct H3 as (w2 & H2 & H3).
    apply at_noted_trace in H2 as (ex & Hex & Hall & Hoff).
    apply chdir_inv in H3 as (l & _ & _ & ->).
    apply open_and_load_inv in H4 as (_ & _ & _ & [[Htr _]|(data & _ & _ & Htr)]);
      world_simpl.
    + exists ex, [EvChdir wd; EvOpen (blob_name id)], [].
      repeat split; try done; [by rewrite Htr, Hex, <- !app_assoc | by eexists].
    + exists ex, [EvChdir wd; EvOpen (blob_name id); EvLoad], [].
      repeat split; try done; [by rewrite Htr, Hex, <- !app_assoc | by eexists].
  - apply at_loaded_trace in H4 as (ex & Hex & Hall & Hoff).
    apply checkpoint_inv in H5 as (_ & Htr & _).
    exists ex, [EvChdir wd; EvOpen (blob_name id); EvLoad], [].
    repeat split; try done; [congruence | by eexists].
  - destruct H5 as (w4 & H4 & H5).
    apply at_loaded_trace in H4 as (ex & Hex & Hall & Hoff).
    apply checkpoint_inv in H5 as (_ & Htr & _).
    apply chdir_inv in H6 as [-> _].
    exists ex, [EvChdir wd; EvOpen (blob_name id); EvLoad;
                EvChdir (Path.render (w_cwd w))], [].
    world_simpl. repeat split; try done; [|by eexists].
    by rewrite Htr, Hex, <- !app_assoc.
  - destruct H6 as (w5 & (w4 & H4 & H5) & H6).
    apply at_loaded_trace in H4 as (ex & Hex & Hall & Hoff).
    apply checkpoint_inv in H5 as (_ & Htr & _).
    apply chdir_inv in H6 as (l & _ & _ & ->).
    apply job_work_inv in H7 as (Htr7 & _).
    exists ex, [EvChdir wd; EvOpen (blob_name id); EvLoad;
                EvChdir (Path.render (w_cwd w)); EvWork l], l.
    world_simpl. repeat split; try done.
    by rewrite Htr7, Htr, Hex, <- !app_assoc.
Qed.

(** X2: the calls of [_do_work_on_compute_node] follow its script: after
    the extractor's calls (none without the tarball flag) the run is a
    beginning of: enter the staging directory, open the blob, unpickle,
    go back, call [work()].  So the blob is opened at most once,
    unpickled at most once, [work()] is called at most once and nothing is
    done after it; a run that returns went through the whole script. *)
Theorem do_work_follows_script
    (wd id : string) (tb : bool) (st : option Z) (dbg : bool) (w : world) :
  ∃ ex tail c,
    trace (do_work wd id tb st dbg w).1 = trace w ++ ex ++ tail ∧
    forallb is_extractor_event ex = true ∧ (tb = false → ex = []) ∧
    tail `prefix_of` materializer_script wd id (Path.render (w_cwd w)) c ∧
    ((do_work wd id tb st dbg w).2 = Ok tt →
     tail = materializer_script wd id (Path.render (w_cwd w)) c).
Proof. exact (do_work_script wd id tb st dbg w). Qed.

(** *** Argument vectors that are too short *)

Lemma main_try_no_staging_arg args w :
  args !! 1 = None →
  body args w =
    (prelude_world (bool_decide ("--debug" ∈ args)) w,
     Raised (Exn "IndexError" "list index out of range")).
Proof.
  intros H1. rewrite main_try_prelude. cbv zeta. unfold index. by rewrite H1.
Qed.

Lemma main_try_no_project_arg args w wd :
  args !! 1 = Some wd → is_Some (Posix.node_at w wd) → args !! 2 = None →
  body args w =
    (log_event (EvExists wd) (prelude_world (bool_decide ("--debug" ∈ args)) w),
     Raised (Exn "IndexError" "list index out of range")).
Proof.
  intros H1 Hex H2. rewrite main_try_prelude. cbv zeta.
  unfold index. rewrite H1, H2. unfold bind at 1. cbn [ret].
  unfold bind at 1. rewrite exists_run, node_at_prelude.
  by rewrite bool_decide_eq_true_2 by done.
Qed.

Lemma main_try_no_job_arg args w wd pd :
  args !! 1 = Some wd → is_Some (Posix.node_at w wd) →
  args !! 2 = Some pd → args !! 3 = None →
  body args w =
    (entry (bool_decide ("--debug" ∈ args)) wd pd w,
     Raised (Exn "IndexError" "list index out of range")).
Proof.
  intros H1 Hex H2 H3. rewrite main_try_prelude. cbv zeta.
  unfold index. rewrite H1, H2, H3. unfold bind at 1. cbn [ret].
  unfold bind at 1. rewrite exists_run, node_at_prelude.
  by rewrite bool_decide_eq_true_2 by done.
Qed.

Lemma prelude_world_env dbg w : w_env (prelude_world dbg w) = w_env w.
Proof.
  unfold after_prelude, configure_logging.
  by destruct dbg; simpl; destruct (log_level w).
Qed.

Lemma prelude_world_trace dbg w : trace (prelude_world dbg w) = trace w.
Proof.
  unfold after_prelude, configure_logging.
  by destruct dbg; simpl; destruct (log_level w).
Qed.

(** X3: called with the program name alone (or with no argument at all)
    [main] fails with the [IndexError] of [args[1]], prints its text, and
    has not looked at the file system: no outside call is made and file
    system, working directory and [sys.path] are untouched. *)
Theorem main_without_arguments (args : list string) (w : world) :
  args !! 1 = None →
  (run args w).2 = Raised (Exn "IndexError" "list index out of range") ∧
  stdout (run args w).1 = stdout w ++ ["list index out of range"] ∧
  trace (run args w).1 = trace w ∧
  w_env (run args w).1 = w_env w.
Proof.
  intros H1. destruct (main_report args w) as (-> & -> & _ & -> & ->).
  rewrite (main_try_no_staging_arg _ _ H1). cbn [fst snd].
  by rewrite prelude_world_env, prelude_world_trace.
Qed.

(** X4: with an existing staging directory but no job identifier [main]
    fails with an [IndexError] after the existence test and before the
    staging directory is entered; a project directory that was given has
    by then been appended to [sys.path]. *)
Theorem main_without_job_id (args : list string) (w : world) (wd : string) :
  args !! 1 = Some wd → is_Some (Posix.node_at w wd) → args !! 3 = None →
  (run args w).2 = Raised (Exn "IndexError" "list index out of range") ∧
  stdout (run args w).1 = stdout w ++ ["list index out of range"] ∧
  trace (run args w).1 = trace w ++ [EvExists wd] ∧
  w_fs (run args w).1 = w_fs w ∧ w_cwd (run args w).1 = w_cwd w ∧
  w_sys_path (run args w).1 =
    w_sys_path w ++ match args !! 2 with Some pd => [pd] | None => [] end.
Proof.
  intros H1 Hex H3. destruct (main_report args w) as (-> & -> & _ & -> & Henv).
  unfold w_fs, w_cwd, w_sys_path. rewrite Henv. clear Henv.
  destruct (args !! 2) as [pd|] eqn:H2.
  - rewrite (main_try_no_job_arg _ _ _ _ H1 Hex H2 H3). cbn [fst snd].
    destruct (at_entry_env (bool_decide ("--debug" ∈ args)) wd pd w) as (? & ? & ?).
    destruct (at_entry_streams (bool_decide ("--debug" ∈ args)) wd pd w)
      as (_ & ? & _).
    by repeat split.
  - rewrite (main_try_no_project_arg _ _ _ H1 Hex H2). cbn [fst snd].
    change (w_env (log_event (EvExists wd) ?x)) with (w_env x).
    change (trace (log_event (EvExists wd) ?x)) with (trace x ++ [EvExists wd]).
    rewrite prelude_world_env, prelude_world_trace.
    by rewrite app_nil_r.
Qed.

(** *** One attempt *)

Lemma script_work_last wd id cwd0 c c' tail :
  tail `prefix_of` materializer_script wd id cwd0 c → EvWork c' ∈ tail →
  tail = [EvChdir wd; EvOpen (blob_name id); EvLoad; EvChdir cwd0] ++ [EvWork c'].
Proof.
  intros [k Hk] Hin. unfold materializer_script in Hk.
  destruct tail as [|t1 [|t2 [|t3 [|t4 [|t5 [|t6 tail]]]]]]; simplify_eq/=;
    split_members; by simplify_eq.
Qed.

(** X5: a run of [main] calls [work()] at most once, and when it does
    that call is the last thing it asks of the outside. *)
Theorem work_called_at_most_once (args : list string) (w : world) :
  ∃ new, trace (run args w).1 = trace w ++ new ∧
    ∀ c, EvWork c ∈ new →
      ∃ before, new = before ++ [EvWork c] ∧
                forallb (λ ev, negb (is_work ev)) before = true.
Proof.
  destruct (main_report args w) as (_ & _ & _ & -> & _).
  destruct (args !! 1) as [wd|] eqn:H1.
  2:{ rewrite (main_try_no_staging_arg _ _ H1). cbn [fst].
      rewrite prelude_world_trace. exists []. rewrite app_nil_r.
      split; [done|]. intros c Hin. by apply elem_of_nil in Hin. }
  destruct (Posix.node_at w wd) as [n|] eqn:Hnode.
  2:{ rewrite (main_try_missing _ _ _ H1 Hnode). exists [EvExists wd].
      cbn [fst]. change (trace (log_event (EvExists wd) ?x))
        with (trace x ++ [EvExists wd]).
      rewrite prelude_world_trace. split; [done|].
      intros c Hin. by split_members. }
  assert (is_Some (Posix.node_at w wd)) as Hex by (by rewrite Hnode).
  destruct (args !! 2) as [pd|] eqn:H2.
  2:{ rewrite (main_try_no_project_arg _ _ _ H1 Hex H2). exists [EvExists wd].
      cbn [fst]. change (trace (log_event (EvExists wd) ?x))
        with (trace x ++ [EvExists wd]).
      rewrite prelude_world_trace. split; [done|].
      intros c Hin. by split_members. }
  set (dbg := bool_decide ("--debug" ∈ args)).
  destruct (at_entry_streams dbg wd pd w) as (_ & Htr & _).
  destruct (args !! 3) as [id|] eqn:H3.
  2:{ rewrite (main_try_no_job_arg _ _ _ _ H1 Hex H2 H3). exists [EvExists wd].
      cbn [fst]. split; [done|]. intros c Hin. by split_members. }
  rewrite (main_try_enters _ _ _ _ _ H1 H2 H3 Hex). fold dbg.
  destruct (do_work_script wd id (bool_decide ("--tarball" ∈ args))
              (started dbg w) dbg (entry dbg wd pd w))
    as (ex & tail & c0 & Htr' & Hall & _ & Hpre & _).
  exists (EvExists wd :: ex ++ tail). split.
  { by rewrite Htr', Htr, <- !app_assoc. }
  intros c Hin. apply elem_of_cons in Hin as [?|Hin]; [done|].
  apply elem_of_app in Hin as [Hin|Hin]; [not_extractor|].
  rewrite (script_work_last _ _ _ _ _ _ Hpre Hin).
  exists (EvExists wd :: ex ++
            [EvChdir wd; EvOpen (blob_name id); EvLoad;
             EvChdir (Path.render (w_cwd (entry dbg wd pd w)))]).
  split; [cbn [app]; by rewrite <- app_assoc|].
  cbn [forallb is_work negb andb]. rewrite forallb_app.
  by rewrite (extractor_events_no_work _ Hall).
Qed.

(** *** A staging path that is not a directory *)

Lemma note_ok label st dbg w :
  (dbg = true → is_Some st) →
  ∃ w', note label st dbg w = (w', Ok tt) ∧
        w_env w' = w_env w ∧ trace w' = trace w ∧ stdout w' = stdout w.
Proof.
  intros Hst. destruct dbg; [|by eexists].
  destruct (Hst eq_refl) as [t0 ->]. by eexists.
Qed.

Lemma started_ok dbg w : dbg = true → is_Some (started dbg w).
Proof. intros ->. by eexists. Qed.

Lemma chdir_run_file p l d w :
  Posix.locate (w_fs w) (w_cwd w) p = Some l →
  Posix.lookup_node (w_fs w) l = Some (File d) →
  Posix.chdir p w = (log_event (EvChdir p) w, Raised (Posix.enotdir "OSError" p)).
Proof.
  intros Hl Hfile. cbv [Posix.chdir bind modify].
  change (w_cwd (log_event (EvChdir p) w)) with (w_cwd w).
  change (w_fs (log_event (EvChdir p) w)) with (w_fs w).
  by rewrite Hl, Hfile.
Qed.

(** X6: the precondition only tests that the first argument exists.  When
    it names a regular file the assertion passes, and [main] fails
    afterwards with the [OSError] of [os.chdir]: the blob is never
    opened, whatever the flags. *)
Theorem staging_path_is_a_file
    (args : list string) (w : world) (wd pd id d : string) :
  args !! 1 = Some wd → args !! 2 = Some pd → args !! 3 = Some id →
  Posix.node_at w wd = Some (File d) →
  Posix.node_at w (Path.join wd "packages.tar") = None →
  (run args w).2 = Raised (Posix.enotdir "OSError" wd) ∧
  trace (run args w).1 =
    trace w ++ [EvExists wd] ++
    (if bool_decide ("--tarball" ∈ args)
     then [EvExists (Path.join wd "packages.tar")] else []) ++
    [EvChdir wd].
Proof.
  intros H1 H2 H3 Hfile Hnone.
  destruct (main_report args w) as (-> & _ & _ & -> & _).
  rewrite (main_try_enters _ _ _ _ _ H1 H2 H3) by (by rewrite Hfile).
  set (dbg := bool_decide ("--debug" ∈ args)).
  destruct (at_entry_streams dbg wd pd w) as (_ & Htr & _).
  destruct (at_entry_env dbg wd pd w) as (Hfs & Hcwd & _).
  set (w1 := entry dbg wd pd w) in *.
  apply WalkFacts.node_at_resolve in Hfile as (l & Hl & _ & Hfile).
  assert (∀ w0, w_env w0 = w_env w1 →
          (note "extracted tar after " (started dbg w) dbg ;;
           materialize wd id (started dbg w) dbg (Path.render (w_cwd w1))) w0 =
          (log_event (EvChdir wd)
             (note "extracted tar after " (started dbg w) dbg w0).1,
           Raised (Posix.enotdir "OSError" wd)) ∧
          trace (note "extracted tar after " (started dbg w) dbg w0).1 = trace w0)
    as Hrest.
  { intros w0 Henv.
    destruct (note_ok "extracted tar after " (started dbg w) dbg w0
                (started_ok dbg w)) as (w2 & Hnote & Henv2 & Htr2 & _).
    unfold bind at 1. rewrite Hnote. cbn [fst]. split; [|done].
    unfold materialize_and_run. unfold bind at 1.
    rewrite (chdir_run_file wd l d); [done| |];
      unfold w_cwd, w_fs in *; rewrite Henv2, Henv; congruence. }
  set (tb := bool_decide ("--tarball" ∈ args)).
  assert (∃ w', do_work wd id tb (started dbg w) dbg w1 =
                  (w', Raised (Posix.enotdir "OSError" wd)) ∧
                trace w' = trace w ++ [EvExists wd] ++
                  (if tb then [EvExists (Path.join wd "packages.tar")] else []) ++
                  [EvChdir wd]) as (w' & -> & Htr').
  { rewrite do_work_unfold. unfold bind at 1. destruct tb; cbn [when].
    - rewrite extract_absent by (unfold w1; by rewrite node_at_entry).
      destruct (Hrest (log_event (EvExists (Path.join wd "packages.tar")) w1) eq_refl)
        as [-> Htr2].
      eexists. split; [done|].
      change (trace (log_event (EvChdir wd) ?x)) with (trace x ++ [EvChdir wd]).
      rewrite Htr2. world_simpl. rewrite Htr. by rewrite <- !app_assoc.
    - unfold ret. destruct (Hrest w1 eq_refl) as [-> Htr2].
      eexists. split; [done|].
      change (trace (log_event (EvChdir wd) ?x)) with (trace x ++ [EvChdir wd]).
      rewrite Htr2, Htr. by rewrite <- !app_assoc. }
  done.
Qed.

(** *** Debug without a start time *)

(** X7: [_do_work_on_compute_node] called with [debug] on and the default
    [start_time=None] never gets to the blob.  When the extractor is
    not called or returns, the call fails with a [TypeError] at the
    first debug note, computing [time() - None]; when the extractor
    raises, the call fails with what the extractor raised.  Either way
    the only outside calls made are the extractor's. *)
Theorem debug_without_start_time (wd id : string) (tb : bool) (w : world) :
  ∃ e ex,
    (do_work wd id tb None true w).2 = Raised e ∧
    trace (do_work wd id tb None true w).1 = trace w ++ ex ∧
    forallb is_extractor_event ex = true ∧
    (tb = false → ex = []) ∧
    (tb = false ∨ (extract wd w).2 = Ok tt → exn_class e = "TypeError") ∧
    (tb = true → ∀ e', (extract wd w).2 = Raised e' → e = e').
Proof.
  assert (∀ w1 w2, ¬ at_noted wd tb None true w w2 ∧
                   note "extracted tar after " None true w1 ≠ (w2, Ok tt))
    as Hno.
  { assert (∀ w1 w2, note "extracted tar after " None true w1 ≠ (w2, Ok tt)) as H
      by (intros w1 w2 H; by apply checkpoint_inv in H as (_ & _ & _ & [[? _]|(? & _ & ? & _)])).
    intros w1 w2. split; [|apply H]. intros (w0 & _ & Hn). by apply H in Hn. }
  destruct (do_work wd id tb None true w) as [w' r] eqn:Hrun.
  apply do_work_cases in Hrun. cbn [fst snd].
  destruct Hrun as [w' e H1|w1 w' e H1 H2|w2 w' e H2 H3|w3 w' e H3 H4
                   |job w4 w' e H4 H5|job w5 w' e H5 H6|job w6 w' r H6 H7].
  - assert (tb = true ∧ (extract wd w).2 = Raised e) as [Htb Hraised].
    { destruct tb; cbn [when] in H1; [by rewrite H1|by unfold ret in H1]. }
    apply stage1_inv in H1 as (_ & (ex & Hex & Hall & Hoff) & Hnot & _).
    exists e, ex. do 3 (split; [done|]). split; [by rewrite Htb|]. split.
    + rewrite Htb, Hraised. by intros [?|?].
    + intros _ e' He'. rewrite Hraised in He'. by injection He'.
  - assert ((tb = true → (extract wd w).2 = Ok tt)) as Hext.
    { intros ->. unfold at_extracted in H1. cbn [when] in H1. by rewrite H1. }
    apply stage1_inv in H1 as (_ & (ex & Hex & Hall & Hoff) & _).
    assert (trace w' = trace w1 ∧ exn_class e = "TypeError") as [Htr Hcls].
    { cbv [checkpoint when elapsed bind time raise] in H2. by simplify_eq. }
    exists e, ex. split; [done|]. split; [congruence|]. split; [done|].
    split; [done|]. split; [done|].
    intros Htb e' He'. rewrite (Hext Htb) in He'. done.
  - by destruct (Hno w w2) as [Hn _].
  - destruct H3 as (w2 & H2 & _). by destruct (Hno w w2) as [Hn _].
  - destruct H4 as (w3 & (w2 & H2 & _) & _). by destruct (Hno w w2) as [Hn _].
  - destruct H5 as (w4 & (w3 & (w2 & H2 & _) & _) & _).
    by destruct (Hno w w2) as [Hn _].
  - destruct H6 as (w5 & (w4 & (w3 & (w2 & H2 & _) & _) & _) & _).
    by destruct (Hno w w2) as [Hn _].
Qed.

(** *** Standard error, the clock and the logging configuration *)

Lemma job_work_quiet job : respects quiet (job_work task work job).
Proof. intros w. unfold job_work, quiet. by destruct (work _ _). Qed.

Lemma do_work_quiet_without_debug wd id tb st :
  respects quiet (do_work wd id tb st false).
Proof.
  unfold _do_work_on_compute_node. cbn [when].
  unfold open_and_load, Posix.chdir.
  respects_split; try apply extract_quiet; try apply job_work_quiet;
    respects_leaf.
Qed.

(** X8: without [--debug] a run of [main] writes nothing to standard
    error and never reads the clock. *)
Theorem no_debug_no_diagnostics (args : list string) (w : world) :
  "--debug" ∉ args →
  stderr (run args w).1 = stderr w ∧
  clock_reads (run args w).1 = clock_reads w.
Proof.
  intros Hdbg. destruct (main_report args w) as (_ & _ & -> & _).
  assert (clock_reads (run args w).1 = clock_reads (body args w).1) as ->.
  { unfold main. destruct (body args w) as [w' [[]|e]]; [done|].
    by destruct (is_exception e). }
  rewrite main_try_prelude. cbv zeta.
  rewrite (bool_decide_eq_false_2 _ Hdbg).
  match goal with
  | |- stderr (?m ?w0).1 = _ ∧ _ =>
      assert (respects quiet m) as Hq
  end.
  { unfold index, Posix.exists_, assert_, sys_path_append.
    respects_split; try apply do_work_quiet_without_debug; respects_leaf. }
  destruct (Hq (prelude_world false w)) as (_ & -> & -> & _).
  unfold after_prelude, configure_logging. by destruct (log_level w).
Qed.

#[local] Instance same_log_level_preorder : PreOrder same_log_level.
Proof. split; unfold same_log_level; [done | intros x y z; congruence]. Qed.

Lemma do_work_same_log_level wd id tb st dbg :
  respects same_log_level (do_work wd id tb st dbg).
Proof.
  unfold _do_work_on_compute_node, _extract_packages_archive, elapsed,
    open_and_load, tarfile_open, tar_extract, Posix.chdir, Posix.exists_,
    stderr_write, sys_path_insert0.
  respects_split;
    try (intros w; unfold job_work, same_log_level; by destruct (work _ _));
    respects_leaf.
Qed.

(** X9: [main] configures logging before it looks at its arguments, so
    every run, also one that fails at once, leaves the root logger
    configured: at the level it had, or at [WARN] when it had none. *)
Theorem logging_always_configured (args : list string) (w : world) :
  log_level (run args w).1 =
    Some (match log_level w with Some l => l | None => "WARN" end).
Proof.
  assert (log_level (run args w).1 = log_level (body args w).1) as ->.
  { unfold main. destruct (body args w) as [w' [[]|e]]; [done|].
    by destruct (is_exception e). }
  rewrite main_try_prelude. cbv zeta.
  match goal with
  | |- log_level (?m ?w0).1 = _ =>
      assert (respects same_log_level m) as Hq
  end.
  { unfold index, Posix.exists_, assert_, sys_path_append.
    respects_split; try apply do_work_same_log_level; respects_leaf. }
  rewrite (Hq _).
  unfold after_prelude, configure_logging.
  by destruct (bool_decide ("--debug" ∈ args)); simpl;
    destruct (log_level w) eqn:E; simpl; rewrite ?E.
Qed.

(** *** A run that gets to the task *)





(** *** The debug notes of a run that returns *)

Lemma main_try_ok_inv args w :
  (body args w).2 = Ok tt →
  ∃ wd pd id, args !! 1 = Some wd ∧ args !! 2 = Some pd ∧ args !! 3 = Some id ∧
              is_Some (Posix.node_at w wd).
Proof.
  intros Hok.
  destruct (args !! 1) as [wd|] eqn:H1;
    [|by rewrite (main_try_no_staging_arg _ _ H1) in Hok].
  destruct (Posix.node_at w wd) as [n|] eqn:Hnode;
    [|by rewrite (main_try_missing _ _ _ H1 Hnode) in Hok].
  assert (is_Some (Posix.node_at w wd)) as Hex by (by rewrite Hnode).
  destruct (args !! 2) as [pd|] eqn:H2;
    [|by rewrite (main_try_no_project_arg _ _ _ H1 Hex H2) in Hok].
  destruct (args !! 3) as [id|] eqn:H3;
    [|by rewrite (main_try_no_job_arg _ _ _ _ H1 Hex H2 H3) in Hok].
  by exists wd, pd, id.
Qed.

Lemma checkpoint_debug_inv label st w w' :
  note label st true w = (w', Ok tt) →
  ∃ t0, st = Some t0 ∧
    stderr w' = stderr w ++
      [label +:+ fmt_seconds (clock (clock_reads w) - t0) +:+ " seconds" +:+ nl] ∧
    clock_reads w' = S (clock_reads w).
Proof.
  destruct st as [t0|]; cbv [checkpoint when elapsed bind time ret raise
                             stderr_write modify]; intros; simplify_eq/=.
  by exists t0.
Qed.

Lemma respects_run {A} R (m : M A) w w' r :
  respects R m → m w = (w', r) → R w w'.
Proof. intros HR Hrun. specialize (HR w). by rewrite Hrun in HR. Qed.

Lemma open_and_load_quiet p : respects quiet (open_and_load task pickle_load p).
Proof. unfold open_and_load. respects_split; respects_leaf. Qed.

(** X11: a run with [--debug] that returns has written exactly three lines
    to standard error, the start line and the two notes, and has read
    the clock four times; both notes give the time since the first
    reading. *)
Theorem debug_run_writes_three_lines (args : list string) (w : world) :
  "--debug" ∈ args →
  (run args w).2 = Ok tt →
  stderr (run args w).1 =
    stderr w ++
    ["starting at " +:+ fmt_ctime (clock (S (clock_reads w))) +:+ nl;
     "extracted tar after " +:+
       fmt_seconds (clock (S (S (clock_reads w))) - clock (clock_reads w)) +:+
       " seconds" +:+ nl;
     "loaded pickled data after " +:+
       fmt_seconds (clock (S (S (S (clock_reads w)))) - clock (clock_reads w)) +:+
       " seconds" +:+ nl] ∧
  clock_reads (run args w).1 = S (S (S (S (clock_reads w)))).
Proof.
  intros Hdbg Hok.
  assert (clock_reads (run args w).1 = clock_reads (body args w).1) as ->.
  { unfold main. destruct (body args w) as [w' [[]|e]]; [done|].
    by destruct (is_exception e). }
  destruct (main_report args w) as (Hres & _ & -> & _).
  rewrite Hres in Hok. clear Hres.
  destruct (main_try_ok_inv _ _ Hok) as (wd & pd & id & H1 & H2 & H3 & Hex).
  rewrite (main_try_enters _ _ _ _ _ H1 H2 H3 Hex) in Hok |- *.
  rewrite (bool_decide_eq_true_2 _ Hdbg) in Hok |- *.
  destruct (at_entry_streams true wd pd w) as (_ & _ & Herr & Hclk).
  set (w1 := entry true wd pd w) in *.
  set (tb := bool_decide ("--tarball" ∈ args)) in *.
  destruct (do_work wd id tb (started true w) true w1) as [w' r] eqn:Hrun.
  cbn [fst snd] in *. subst r.
  apply do_work_cases in Hrun.
  inversion Hrun as [| | | | | |job w6 w'' r
    (w5 & (w4 & (w3 & (w2 & (wa & Ha & Hn1) & Hcd) & Hld) & Hn2) & Hbk) Hwk];
    subst.
  apply stage1_inv in Ha as ((_ & Herra & Hclka & _) & _).
  apply checkpoint_debug_inv in Hn1 as (t0 & Ht0 & Herr2 & Hclk2).
  apply chdir_inv in Hcd as (l & _ & _ & ->).
  apply (respects_run _ _ _ _ _ (open_and_load_quiet _)) in Hld
    as (_ & Herr4 & Hclk4 & _).
  apply checkpoint_debug_inv in Hn2 as (t0' & Ht0' & Herr5 & Hclk5).
  apply chdir_inv in Hbk as (l' & _ & _ & ->).
  apply (respects_run _ _ _ _ _ (job_work_quiet _)) in Hwk
    as (_ & Herr7 & Hclk7 & _).
  unfold start_time_of in Ht0, Ht0'. simplify_eq.
  world_simpl. cbn [fst] in *.
  rewrite Herr7, Hclk7, Herr5, Hclk5, Herr4, Hclk4, Herr2, Hclk2, Herra, Hclka,
    Herr, Hclk.
  split; [|done]. by rewrite <- !app_assoc.
Qed.

(** *** What extraction does to [sys.path] and to what is already there *)

#[local] Instance same_sys_path_preorder : PreOrder same_sys_path.
Proof. split; unfold same_sys_path; [done | intros x y z; congruence]. Qed.

Lemma open_and_extract_sys_path pkg :
  respects same_sys_path
    (tar <- tarfile_open tar_parse pkg ;; for_each tar tar_extract).
Proof.
  unfold tarfile_open, tar_extract. respects_split; respects_leaf.
Qed.

Lemma unpack_sys_path pkg w w' r :
  unpack tar_parse pkg w = (w', r) →
  (w_sys_path w' = w_sys_path w ∨
   (("" ∉ w_sys_path w) ∧ w_sys_path w' = "" :: w_sys_path w)) ∧
  (r = Ok tt → "" ∈ w_sys_path w').
Proof.
  unfold unpack. rewrite <- bind_assoc. intros H.
  apply bind_inv in H as [(e & H1 & ->)|(w1 & [] & H1 & H)];
    apply (respects_run _ _ _ _ _ (open_and_extract_sys_path pkg)) in H1.
  { split; [by left|done]. }
  unfold same_sys_path in H1.
  cbv [bind in_sys_path when sys_path_insert0 modify ret] in H.
  destruct (bool_decide ("" ∈ w_sys_path w1)) eqn:Hin; simplify_eq/=.
  - apply bool_decide_eq_true_1 in Hin. split; [left; congruence|done].
  - apply bool_decide_eq_false_1 in Hin.
    change (w_sys_path (set_env (λ e, set_sys_path ("" :: sys_path e) e) w1))
      with ("" :: w_sys_path w1).
    rewrite H1 in Hin |- *. split; [by right|]. intros _. left.
Qed.

(** X12: the extractor changes [sys.path] in one way only: it puts the
    empty entry in front when it is not there yet.  An empty entry that
    is there is not added again, and a run that returns after unpacking
    has it on the path. *)
Theorem extractor_sys_path (wd : string) (w : world) :
  (w_sys_path (extract wd w).1 = w_sys_path w ∨
   (("" ∉ w_sys_path w) ∧ w_sys_path (extract wd w).1 = "" :: w_sys_path w)) ∧
  ((extract wd w).2 = Ok tt →
   is_Some (Posix.node_at w (Path.join wd "packages.tar")) →
   "" ∈ w_sys_path (extract wd w).1).
Proof.
  destruct (extract wd w) as [w' r] eqn:Hrun. cbn [fst snd].
  rewrite extract_unfold in Hrun. cbv zeta in Hrun.
  unfold bind at 1 in Hrun. rewrite exists_run in Hrun.
  destruct (bool_decide _) eqn:Hpresent; cbn [negb] in Hrun.
  2:{ unfold ret in Hrun. simplify_eq. split; [by left|].
      intros _ Hsome. apply bool_decide_eq_false_1 in Hpresent. done. }
  unfold bind at 1 in Hrun. cbn [Posix.abspath] in Hrun.
  apply bind_inv in Hrun as [(e & Hcd & ->)|(w3 & [] & Hcd & Hrun)];
    apply chdir_inv in Hcd.
  { destruct Hcd as [-> _]. split; [by left|done]. }
  destruct Hcd as (l & _ & _ & ->).
  apply bind_inv in Hrun as [(e & Hun & ->)|(w4 & [] & Hun & Hback)];
    apply unpack_sys_path in Hun as [Hsp Hin].
  { split; [done|done]. }
  assert (w_sys_path w' = w_sys_path w4) as ->.
  { apply chdir_inv in Hback. destruct r as [[]|e].
    - by destruct Hback as (l' & _ & _ & ->).
    - by destruct Hback as [-> _]. }
  split; [done|]. intros _ _. by apply Hin.
Qed.

#[local] Instance fs_grows_preorder : PreOrder fs_grows.
Proof.
  split.
  - by intros w k.
  - intros x y z Hxy Hyz k. destruct (Hxy k), (Hyz k). split; eauto.
Qed.

Lemma fs_grows_same {A} (m : M A) :
  (∀ w, w_fs (m w).1 = w_fs w) → respects fs_grows m.
Proof. intros H w k. by rewrite H. Qed.

Lemma lookup_node_insert_dir m l n k :
  Posix.lookup_node m l ≠ Some Dir →
  Posix.lookup_node m k = Some Dir →
  Posix.lookup_node (<[l := n]> m) k = Some Dir.
Proof.
  intros Hl Hk. destruct k as [|c k]; [done|]. cbn [Posix.lookup_node] in *.
  rewrite lookup_insert_ne; [done|]. intros ->. done.
Qed.

Lemma makedirs_dirs m base rest m' k :
  Posix.makedirs m base rest = Some m' →
  Posix.lookup_node m k = Some Dir → Posix.lookup_node m' k = Some Dir.
Proof.
  revert m base. induction rest as [|c rest IH]; intros m base; cbn [Posix.makedirs].
  - by intros [= ->].
  - destruct (Posix.lookup_node m (base ++ [c])) as [[|x]|] eqn:E; [eauto|done|].
    intros Hmk Hk. eapply IH; [done|].
    apply lookup_node_insert_dir; [by rewrite E|done].
Qed.

Lemma extract_into_dirs m l data m' k :
  extract_into m l data = Some m' →
  Posix.lookup_node m k = Some Dir → Posix.lookup_node m' k = Some Dir.
Proof.
  unfold extract_into.
  destruct (Posix.makedirs m [] (removelast l)) as [m1|] eqn:Hmk; [|done].
  cbn [mbind option_bind]. intros Hinto Hk.
  apply (makedirs_dirs _ _ _ _ _ Hmk) in Hk.
  destruct data as [x|], (Posix.lookup_node m1 l) as [[|y]|] eqn:E;
    simplify_eq; try done; apply lookup_node_insert_dir; by rewrite ?E.
Qed.

Lemma tar_extract_grows mb : respects fs_grows (tar_extract mb).
Proof.
  intros w. cbv [tar_extract bind modify extract_target].
  change (w_cwd (log_event (EvExtract mb) w)) with (w_cwd w).
  change (w_fs (log_event (EvExtract mb) w)) with (w_fs w).
  destruct (Path.resolve (w_cwd w) (m_name mb)) as [l|]; [|by intros k].
  destruct (extract_into (w_fs w) l (m_data mb)) as [m'|] eqn:Hinto;
    [|by intros k].
  intros k. cbn [fst]. world_simpl. split.
  - by apply (extract_into_keeps _ _ _ _ _ Hinto).
  - by apply (extract_into_dirs _ _ _ _ _ Hinto).
Qed.

Lemma extract_grows wd : respects fs_grows (extract wd).
Proof.
  unfold _extract_packages_archive, tarfile_open, Posix.chdir, Posix.exists_,
    sys_path_insert0.
  respects_split; try apply tar_extract_grows;
    apply fs_grows_same; respects_leaf.
Qed.

(** X13: the extractor never takes anything away: whatever path named a
    file or a directory before still names one afterwards, and a
    directory is still a directory, also when the extractor raises half
    way. *)
Theorem extraction_keeps_what_is_there (wd : string) (w : world) (k : Path.loc) :
  (is_Some (Posix.lookup_node (w_fs w) k) →
   is_Some (Posix.lookup_node (w_fs (extract wd w).1) k)) ∧
  (Posix.lookup_node (w_fs w) k = Some Dir →
   Posix.lookup_node (w_fs (extract wd w).1) k = Some Dir).
Proof. apply (extract_grows wd w k). Qed.

Lemma archive_at_unique w wd sl ms sl' ms' :
  archive_at w wd sl ms → archive_at w wd sl' ms' → sl' = sl ∧ ms' = ms.
Proof.
  intros (Hsl & data & Hdata & Hparse) (Hsl' & data' & Hdata' & Hparse').
  assert (sl' = sl) as -> by congruence. split; [done|]. congruence.
Qed.

(** X14: the extractor writes nothing of its own.  With the archive it
    opens in the staging directory holding the members [ms], a regular
    file found after it ran was there before with the same content, or
    is one of those members, a file, unpacked in the staging
    directory. *)
Theorem extracted_files_come_from_the_archive
    (wd : string) (w : world) (sl bl : Path.loc) (ms : list member) (d : string) :
  archive_at w wd sl ms →
  Posix.lookup_node (w_fs (extract wd w).1) bl = Some (File d) →
  Posix.lookup_node (w_fs w) bl = Some (File d) ∨
  ∃ mb, mb ∈ ms ∧ Path.resolve sl (m_name mb) = Some bl ∧ m_data mb = Some d.
Proof.
  intros Harch Hfile. destruct (extract wd w) as [w' r] eqn:Hrun.
  destruct (extract_files _ _ _ _ _ _ Hrun Hfile)
    as [(sl' & ms' & mb & Harch' & Hin & Hres & Hd)|Hold]; [|by left].
  destruct (archive_at_unique _ _ _ _ _ _ Harch Harch') as [-> ->].
  right. by exists mb.
Qed.

(** *** The job log: where it is written *)

Lemma string_pair_ind (P : string → Prop) :
  P "" → (∀ a, P (String a "")) → (∀ a b s, P s → P (String a (String b s))) →
  ∀ s, P s.
Proof.
  intros H0 H1 H2 s. assert (P s ∧ ∀ a, P (String a s)) as [Hs _]; [|exact Hs].
  induction s as [|c s [IHs IHc]]; split;
    [exact H0 | exact H1 | exact (IHc c) | intros a; exact (H2 a c s IHs)].
Qed.

Lemma name_char_no_slash c : JobLog.name_char c = true → Path.is_slash c = false.
Proof.
  unfold JobLog.name_char. intros H. apply andb_prop in H as [H _].
  by apply negb_true_iff in H.
Qed.

Lemma name_char_no_dot c : JobLog.name_char c = true → c ≠ "."%char.
Proof.
  unfold JobLog.name_char. intros H. apply andb_prop in H as [_ H].
  apply negb_true_iff in H. by apply bool_decide_eq_false_1 in H.
Qed.

Lemma split_scatter outs t :
  JobLog.all_chars JobLog.name_char outs = true → Path.no_slash t = true →
  Path.split_slash (JobLog.scatter true outs +:+ t) =
  (JobLog.pairs_of outs).1 ++ [(JobLog.pairs_of outs).2 +:+ t].
Proof.
  intros Houts Ht. revert Houts.
  induction outs as [|a|a b s IH] using string_pair_ind; cbn [JobLog.all_chars].
  - intros _. cbn [JobLog.scatter JobLog.pairs_of fst snd app].
    by rewrite PathFacts.app_empty_l, WalkFacts.split_slash_no_slash.
  - intros H. apply andb_prop in H as [Ha _].
    cbn [JobLog.scatter JobLog.pairs_of fst snd app].
    rewrite WalkFacts.split_slash_no_slash; [done|].
    rewrite PathFacts.app_cons, PathFacts.app_empty_l. cbn [Path.no_slash].
    by rewrite (name_char_no_slash _ Ha), Ht.
  - intros H. apply andb_prop in H as [Ha H]. apply andb_prop in H as [Hb Hs].
    cbn [JobLog.scatter JobLog.pairs_of fst snd].
    change (String a (String b (String "/" (JobLog.scatter true s))) +:+ t)
      with (String a (String b "") +:+ String "/" (JobLog.scatter true s +:+ t)).
    rewrite WalkFacts.split_slash_app_slash, (IH Hs).
    rewrite WalkFacts.split_slash_no_slash; [done|]. cbn [Path.no_slash].
    by rewrite (name_char_no_slash _ Ha), (name_char_no_slash _ Hb).
Qed.

Lemma pairs_plain outs :
  JobLog.all_chars JobLog.name_char outs = true →
  Path.canonical (JobLog.pairs_of outs).1 = true ∧
  JobLog.all_chars JobLog.name_char (JobLog.pairs_of outs).2 = true ∧
  (String.length (JobLog.pairs_of outs).2 ≤ 1)%nat.
Proof.
  induction outs as [|a|a b s IH] using string_pair_ind; cbn [JobLog.all_chars].
  - intros _. cbn [JobLog.pairs_of fst snd JobLog.all_chars Path.canonical forallb
                    String.length]. split; [done|]. split; [done|lia].
  - intros H. cbn [JobLog.pairs_of fst snd JobLog.all_chars Path.canonical forallb
                   String.length]. split; [done|]. split; [done|lia].
  - intros H. apply andb_prop in H as [Ha H]. apply andb_prop in H as [Hb Hs].
    destruct (IH Hs) as (IH1 & IH2 & IH3).
    cbn [JobLog.pairs_of fst snd]. split; [|done].
    cbn [Path.canonical forallb]. fold (Path.canonical (JobLog.pairs_of s).1).
    rewrite IH1, andb_true_r. unfold Path.plain. cbn [Path.no_slash].
    rewrite (name_char_no_slash _ Ha), (name_char_no_slash _ Hb).
    rewrite !bool_decide_eq_false_2; [done|..]; [|done|done].
    intros [= -> _]. by apply name_char_no_dot in Ha.
Qed.

Lemma all_chars_no_slash s :
  JobLog.all_chars JobLog.name_char s = true → Path.no_slash s = true.
Proof.
  induction s as [|c s IH]; [done|]. cbn [JobLog.all_chars Path.no_slash].
  intros H. apply andb_prop in H as [Hc Hs].
  by rewrite (name_char_no_slash _ Hc), (IH Hs).
Qed.

Lemma no_slash_app s t :
  Path.no_slash s = true → Path.no_slash t = true → Path.no_slash (s +:+ t) = true.
Proof.
  induction s as [|c s IH]; intros Hs Ht.
  - by rewrite PathFacts.app_empty_l.
  - rewrite PathFacts.app_cons. cbn [Path.no_slash] in *.
    apply andb_prop in Hs as [-> Hs]. by rewrite IH.
Qed.

(** A name of three characters or more without a slash is a plain one. *)
Lemma plain_long s t :
  Path.no_slash s = true → Path.no_slash t = true → (3 ≤ String.length t)%nat →
  Path.plain (s +:+ t) = true.
Proof.
  intros Hs Ht Hlen. unfold Path.plain. rewrite (no_slash_app _ _ Hs Ht).
  assert (3 ≤ String.length (s +:+ t))%nat as Hl.
  { clear Hs. induction s as [|c s IH].
    - by rewrite PathFacts.app_empty_l.
    - rewrite PathFacts.app_cons. cbn [String.length]. lia. }
  rewrite !bool_decide_eq_false_2; [done|..]; intros E; rewrite E in Hl;
    cbn in Hl; lia.
Qed.



Lemma resolve_below_base from rest :
  Path.resolve from (JobLog.base +:+ rest) =
  Some (foldl Path.step JobLog.base_loc (Path.split_slash rest)).
Proof.
  unfold Path.resolve.
  change (JobLog.base +:+ rest)
    with (String "/" ("nfs/seqscratch09/dsth/luigi" +:+ String "/" rest)).
  rewrite bool_decide_eq_false_2 by done. cbn [Path.startswith_slash].
  change (Path.is_slash "/") with true. cbv iota.
  rewrite PathFacts.split_slash_slash, WalkFacts.split_slash_app_slash.
  cbn [foldl]. change (Path.step [] "") with (@nil string).
  by rewrite foldl_app.
Qed.

Lemma string_app_assoc (s t u : string) : (s +:+ t) +:+ u = s +:+ (t +:+ u).
Proof.
  induction s as [|c s IH]; [done|]. by rewrite !PathFacts.app_cons, IH.
Qed.
(** *** The job log: the padded job id *)

Lemma string_length_app (s t : string) :
  String.length (s +:+ t) = (String.length s + String.length t)%nat.
Proof.
  induction s as [|c s IH]; [done|].
  rewrite PathFacts.app_cons. cbn [String.length]. by rewrite IH.
Qed.

Lemma length_zeros k : String.length (JobLog.zeros k) = k.
Proof. induction k as [|k IH]; [done|]. cbn [JobLog.zeros String.length]. by rewrite IH. Qed.

Lemma length_zfill width s :
  String.length (JobLog.zfill width s) = (width `max` String.length s)%nat.
Proof. unfold JobLog.zfill. rewrite string_length_app, length_zeros. lia. Qed.

Lemma all_chars_app P s t :
  JobLog.all_chars P s = true → JobLog.all_chars P t = true →
  JobLog.all_chars P (s +:+ t) = true.
Proof.
  induction s as [|c s IH]; intros Hs Ht.
  - by rewrite PathFacts.app_empty_l.
  - rewrite PathFacts.app_cons. cbn [JobLog.all_chars] in *.
    apply andb_prop in Hs as [-> Hs]. by rewrite IH.
Qed.

Lemma zeros_name_chars k : JobLog.all_chars JobLog.name_char (JobLog.zeros k) = true.
Proof. induction k as [|k IH]; [done|]. cbn [JobLog.zeros JobLog.all_chars]. by rewrite IH. Qed.

Lemma zfill_name_chars width s :
  JobLog.all_chars JobLog.name_char s = true →
  JobLog.all_chars JobLog.name_char (JobLog.zfill width s) = true.
Proof. intros H. apply all_chars_app; [apply zeros_name_chars|done]. Qed.

Lemma digit_name_char d : JobLog.name_char (JobLog.digit_char d) = true.
Proof. do 9 (destruct d as [|d]; [done|]). done. Qed.

Lemma decimal_go_name_chars fuel n acc :
  JobLog.all_chars JobLog.name_char acc = true →
  JobLog.all_chars JobLog.name_char (JobLog.decimal_go fuel n acc) = true.
Proof.
  revert n acc. induction fuel as [|fuel IH]; intros n acc Hacc; [done|].
  cbn [JobLog.decimal_go].
  assert (JobLog.all_chars JobLog.name_char
            (String (JobLog.digit_char (N.to_nat (n `mod` 10))) acc) = true) as H.
  { cbn [JobLog.all_chars]. by rewrite digit_name_char, Hacc. }
  destruct (n `div` 10 =? 0)%N; [done|]. by apply IH.
Qed.

(** The padded job id is made of characters that can stand in a file
    name: digits, and a minus sign in front of a negative one. *)
Lemma format_name_chars z :
  JobLog.all_chars JobLog.name_char (JobLog.format_08_2d z) = true.
Proof.
  unfold JobLog.format_08_2d, JobLog.decimal.
  destruct z as [|p|p].
  - do 2 apply zfill_name_chars. by apply decimal_go_name_chars.
  - do 2 apply zfill_name_chars. by apply decimal_go_name_chars.
  - cbn [JobLog.all_chars]. change (JobLog.name_char "-") with true. cbn [andb].
    do 2 apply zfill_name_chars. by apply decimal_go_name_chars.
Qed.

Lemma decimal_go_length_acc fuel n acc :
  (String.length acc ≤ String.length (JobLog.decimal_go fuel n acc))%nat.
Proof.
  revert n acc. induction fuel as [|fuel IH]; intros n acc; [done|].
  cbn [JobLog.decimal_go]. destruct (n `div` 10 =? 0)%N.
  - cbn [String.length]. lia.
  - etrans; [|apply IH]. cbn [String.length]. lia.
Qed.

Lemma decimal_go_length_upper fuel k n acc :
  (n < 10 ^ N.of_nat (S k))%N →
  (String.length (JobLog.decimal_go fuel n acc) ≤ S k + String.length acc)%nat.
Proof.
  revert k n acc. induction fuel as [|fuel IH]; intros k n acc Hn; [cbn; lia|].
  cbn [JobLog.decimal_go]. destruct (n `div` 10 =? 0)%N eqn:E.
  - cbn [String.length]. lia.
  - apply N.eqb_neq in E. destruct k as [|k].
    { destruct E. apply N.div_small. exact Hn. }
    etrans; [apply (IH k)|cbn [String.length]; lia].
    apply N.Div0.div_lt_upper_bound.
    rewrite <- N.pow_succ_r'. by rewrite <- Nat2N.inj_succ.
Qed.

Lemma decimal_go_length_lower fuel k n acc :
  (10 ^ N.of_nat k ≤ n)%N → (k < fuel)%nat →
  (S k + String.length acc ≤ String.length (JobLog.decimal_go fuel n acc))%nat.
Proof.
  revert k n acc. induction fuel as [|fuel IH]; intros k n acc Hn Hk; [lia|].
  cbn [JobLog.decimal_go]. destruct k as [|k].
  - destruct (n `div` 10 =? 0)%N; [cbn [String.length]; lia|].
    etrans; [|apply decimal_go_length_acc]. cbn [String.length]. lia.
  - assert (10 ^ N.of_nat k ≤ n `div` 10)%N as Hdiv.
    { apply N.div_le_lower_bound; [done|].
      rewrite <- N.pow_succ_r'. by rewrite <- Nat2N.inj_succ. }
    assert (1 ≤ 10 ^ N.of_nat k)%N by (by apply N.pow_lower_bound).
    destruct (n `div` 10 =? 0)%N eqn:E; [apply N.eqb_eq in E; lia|].
    etrans; [|apply (IH k); [done|lia]]. cbn [String.length]. lia.
Qed.

Lemma decimal_length_upper k n :
  (n < 10 ^ N.of_nat (S k))%N → (String.length (JobLog.decimal n) ≤ S k)%nat.
Proof.
  intros Hn. unfold JobLog.decimal.
  etrans; [by apply decimal_go_length_upper|]. cbn [String.length]. lia.
Qed.

Lemma decimal_length_lower k n :
  (10 ^ N.of_nat k ≤ n)%N → (S k ≤ String.length (JobLog.decimal n))%nat.
Proof.
  intros Hn. unfold JobLog.decimal.
  etrans; [|apply (decimal_go_length_lower _ k); [done|]].
  { cbn [String.length]. lia. }
  assert (1 ≤ 10 ^ N.of_nat k)%N by (by apply N.pow_lower_bound).
  assert (2 ^ N.of_nat k ≤ n)%N as H2.
  { etrans; [|exact Hn]. apply N.pow_le_mono_l. lia. }
  apply N.log2_le_pow2 in H2; lia.
Qed.

(** The padded id of some job ids, as Python prints them. *)
Example format_08_2d_samples :
  JobLog.format_08_2d 0 = "00000000" ∧ JobLog.format_08_2d 5 = "00000005" ∧
  JobLog.format_08_2d 12345678 = "12345678" ∧
  JobLog.format_08_2d 123456789 = "123456789" ∧
  JobLog.format_08_2d (-5) = "-0000005" ∧
  JobLog.format_08_2d (-12345678) = "-12345678".
Proof. by vm_compute. Qed.

(** Job ids of up to eight digits (seven after a minus sign) are padded
    to eight characters. *)
Lemma format_length_8 z :
  (- 10 ^ 7 < z < 10 ^ 8)%Z → String.length (JobLog.format_08_2d z) = 8%nat.
Proof.
  intros Hz. unfold JobLog.format_08_2d. destruct z as [|p|p].
  - done.
  - rewrite !length_zfill.
    pose proof (decimal_length_upper 7 (Z.to_N (Z.pos p))) as H.
    change (10 ^ N.of_nat 8)%N with 100000000%N in H. lia.
  - cbn [String.length]. rewrite !length_zfill.
    pose proof (decimal_length_upper 6 (N.pos p)) as H.
    change (10 ^ N.of_nat 7)%N with 10000000%N in H. lia.
Qed.

(** A job id of nine digits is not padded: nine characters. *)
Lemma format_length_9 z :
  (10 ^ 8 ≤ z < 10 ^ 9)%Z → String.length (JobLog.format_08_2d z) = 9%nat.
Proof.
  intros Hz. unfold JobLog.format_08_2d. destruct z as [|p|p]; [lia| |lia].
  rewrite !length_zfill.
  pose proof (decimal_length_upper 8 (Z.to_N (Z.pos p))) as Hup.
  pose proof (decimal_length_lower 8 (Z.to_N (Z.pos p))) as Hlow.
  change (10 ^ N.of_nat 9)%N with 1000000000%N in Hup.
  change (10 ^ N.of_nat 8)%N with 100000000%N in Hlow. lia.
Qed.

Lemma pairs_of_even outs k :
  String.length outs = (2 * k)%nat →
  (JobLog.pairs_of outs).2 = "" ∧ length (JobLog.pairs_of outs).1 = k.
Proof.
  revert k. induction outs as [|a|a b s IH] using string_pair_ind; intros k Hk.
  - cbn in *. split; [done|lia].
  - cbn in Hk. lia.
  - cbn [String.length] in Hk. destruct k as [|k]; [lia|].
    destruct (IH k) as [IH1 IH2]; [lia|].
    cbn [JobLog.pairs_of fst snd length]. split; [done|lia].
Qed.

Lemma pairs_of_odd outs k :
  String.length outs = S (2 * k) →
  (∃ c, (JobLog.pairs_of outs).2 = String c "") ∧
  length (JobLog.pairs_of outs).1 = k.
Proof.
  revert k. induction outs as [|a|a b s IH] using string_pair_ind; intros k Hk.
  - cbn in Hk. lia.
  - cbn in *. split; [by eexists|lia].
  - cbn [String.length] in Hk. destruct k as [|k]; [lia|].
    destruct (IH k) as [IH1 IH2]; [lia|].
    cbn [JobLog.pairs_of fst snd length]. split; [done|lia].
Qed.
(** X16: where the log is written.  Whatever number the job id is, the
    log lies below the fixed base directory, one directory level for
    every two characters of the padded id, in a file whose name is
    [rnr.txt] after the character left over, if the padded id has an odd
    number of them.  The working directory has no part in it. *)
Theorem log_file_location (z : Z) (from : Path.loc) :
  let outs := JobLog.format_08_2d z in
  Path.resolve from (JobLog.log_file outs) =
  Some (JobLog.base_loc ++ (JobLog.pairs_of outs).1 ++
        [(JobLog.pairs_of outs).2 +:+ "rnr.txt"]).
Proof.
  intros outs. pose proof (format_name_chars z) as Hchars. fold outs in Hchars.
  destruct (pairs_plain _ Hchars) as (Hpairs & Hrest & _).
  unfold JobLog.log_file, JobLog.log_dir.
  rewrite string_app_assoc, resolve_below_base.
  rewrite (split_scatter _ _ Hchars) by done.
  rewrite PathFacts.foldl_step_canonical; [done|].
  unfold Path.canonical. rewrite forallb_app. fold (Path.canonical (JobLog.pairs_of outs).1).
  rewrite Hpairs. cbn [forallb andb]. rewrite andb_true_r.
  apply plain_long; [by apply all_chars_no_slash|done|cbn; lia].
Qed.

Lemma log_dir_split outs :
  JobLog.all_chars JobLog.name_char outs = true →
  Path.split_slash (JobLog.scatter true outs) =
  (JobLog.pairs_of outs).1 ++ [(JobLog.pairs_of outs).2].
Proof.
  intros Hchars. rewrite <- (PathFacts.app_empty_r (JobLog.scatter true outs)).
  rewrite (split_scatter _ _ Hchars) by done. by rewrite PathFacts.app_empty_r.
Qed.

Lemma plain_single c :
  JobLog.name_char c = true → Path.plain (String c "") = true.
Proof.
  intros Hc. unfold Path.plain. cbn [Path.no_slash].
  rewrite (name_char_no_slash _ Hc).
  assert (String c "" ≠ ".") by (intros [= ->]; by apply name_char_no_dot in Hc).
  by rewrite !bool_decide_eq_false_2.
Qed.

(** A padded id with no character left over: the log is in the
    directory made. *)
Lemma log_paths_even outs from :
  JobLog.all_chars JobLog.name_char outs = true →
  (JobLog.pairs_of outs).2 = "" →
  Path.resolve from (JobLog.log_dir outs) =
    Some (JobLog.base_loc ++ (JobLog.pairs_of outs).1) ∧
  Path.resolve from (JobLog.log_file outs) =
    Some (JobLog.base_loc ++ (JobLog.pairs_of outs).1 ++ ["rnr.txt"]).
Proof.
  intros Hchars Hrest. destruct (pairs_plain _ Hchars) as (Hpairs & _ & _). split.
  - unfold JobLog.log_dir. rewrite resolve_below_base, (log_dir_split _ Hchars).
    rewrite Hrest, foldl_app, (PathFacts.foldl_step_canonical _ _ Hpairs). done.
  - unfold JobLog.log_file, JobLog.log_dir.
    rewrite string_app_assoc, resolve_below_base.
    rewrite (split_scatter _ _ Hchars) by done. rewrite Hrest.
    rewrite PathFacts.foldl_step_canonical; [done|].
    unfold Path.canonical. rewrite forallb_app.
    fold (Path.canonical (JobLog.pairs_of outs).1). by rewrite Hpairs.
Qed.

(** X17: for a job id of up to eight digits (seven after a minus sign) the
    directory the function makes is four levels below the base, and the
    log is the file [rnr.txt] in it. *)
Theorem log_in_its_directory (z : Z) (from : Path.loc) :
  (- 10 ^ 7 < z < 10 ^ 8)%Z →
  ∃ levels, length levels = 4%nat ∧
    Path.resolve from (JobLog.log_dir (JobLog.format_08_2d z)) =
      Some (JobLog.base_loc ++ levels) ∧
    Path.resolve from (JobLog.log_file (JobLog.format_08_2d z)) =
      Some (JobLog.base_loc ++ levels ++ ["rnr.txt"]).
Proof.
  intros Hz. set (outs := JobLog.format_08_2d z).
  destruct (pairs_of_even outs 4) as [Hrest Hlen].
  { unfold outs. by rewrite format_length_8. }
  exists (JobLog.pairs_of outs).1. split; [done|].
  apply log_paths_even; [apply format_name_chars|done].
Qed.

(** X18: a job id of nine digits is not padded, and its ninth digit is
    not followed by a slash: the directory made ends in a level named by
    that digit alone, and the log is not in it but beside it, in a file
    named by the digit and [rnr.txt]. *)
Theorem nine_digit_log_beside_directory (z : Z) (from : Path.loc) :
  (10 ^ 8 ≤ z < 10 ^ 9)%Z →
  ∃ levels c, length levels = 4%nat ∧
    Path.resolve from (JobLog.log_dir (JobLog.format_08_2d z)) =
      Some (JobLog.base_loc ++ levels ++ [String c ""]) ∧
    Path.resolve from (JobLog.log_file (JobLog.format_08_2d z)) =
      Some (JobLog.base_loc ++ levels ++ [String c "rnr.txt"]).
Proof.
  intros Hz. set (outs := JobLog.format_08_2d z).
  pose proof (format_name_chars z) as Hchars. fold outs in Hchars.
  destruct (pairs_plain _ Hchars) as (Hpairs & Hrest_chars & _).
  destruct (pairs_of_odd outs 4) as [[c Hrest] Hlen].
  { unfold outs. by rewrite format_length_9. }
  rewrite Hrest in Hrest_chars. cbn [JobLog.all_chars] in Hrest_chars.
  apply andb_prop in Hrest_chars as [Hc _].
  exists (JobLog.pairs_of outs).1, c. split; [done|]. split.
  - unfold JobLog.log_dir. rewrite resolve_below_base, (log_dir_split _ Hchars).
    rewrite Hrest, PathFacts.foldl_step_canonical; [done|].
    unfold Path.canonical. rewrite forallb_app.
    fold (Path.canonical (JobLog.pairs_of outs).1). rewrite Hpairs.
    cbn [forallb]. by rewrite (plain_single _ Hc).
  - unfold JobLog.log_file, JobLog.log_dir.
    rewrite string_app_assoc, resolve_below_base.
    rewrite (split_scatter _ _ Hchars) by done. rewrite Hrest.
    change (String c "" +:+ "rnr.txt") with (String c "rnr.txt").
    rewrite PathFacts.foldl_step_canonical; [done|].
    unfold Path.canonical. rewrite forallb_app.
    fold (Path.canonical (JobLog.pairs_of outs).1). rewrite Hpairs.
    cbn [forallb andb]. unfold Path.plain. cbn [Path.no_slash].
    rewrite (name_char_no_slash _ Hc).
    by rewrite !bool_decide_eq_false_2.
Qed.

(** *** The job log: following its paths

    The paths of the log are made of names, the slash at the end of the
    directory's apart: they can be followed wherever they lead. *)

Lemma locate_below_base m from rest :
  Posix.locate m from (JobLog.base +:+ rest) =
  Posix.walk m JobLog.base_loc (Path.split_slash rest).
Proof.
  unfold Posix.locate.
  change (JobLog.base +:+ rest)
    with (String "/" ("nfs/seqscratch09/dsth/luigi" +:+ String "/" rest)).
  rewrite bool_decide_eq_false_2 by done. cbn [Path.startswith_slash].
  change (Path.is_slash "/") with true. cbv iota.
  rewrite PathFacts.split_slash_slash, WalkFacts.split_slash_app_slash.
  change (Posix.walk m [] ("" :: ?x)) with (Posix.walk m [] x).
  rewrite WalkFacts.walk_app.
  change (Path.split_slash "nfs/seqscratch09/dsth/luigi") with JobLog.base_loc.
  by rewrite (WalkFacts.walk_canonical m [] JobLog.base_loc eq_refl).
Qed.

Lemma log_file_names outs :
  JobLog.all_chars JobLog.name_char outs = true →
  Path.canonical ((JobLog.pairs_of outs).1 ++
                  [(JobLog.pairs_of outs).2 +:+ "rnr.txt"]) = true.
Proof.
  intros Hchars. destruct (pairs_plain _ Hchars) as (Hpairs & Hrest & _).
  unfold Path.canonical. rewrite forallb_app.
  fold (Path.canonical (JobLog.pairs_of outs).1).
  rewrite Hpairs. cbn [forallb andb]. rewrite andb_true_r.
  apply plain_long; [by apply all_chars_no_slash|done|cbn; lia].
Qed.

Lemma locate_log_file m from outs :
  JobLog.all_chars JobLog.name_char outs = true →
  Posix.locate m from (JobLog.log_file outs) =
  Path.resolve from (JobLog.log_file outs).
Proof.
  intros Hchars. unfold JobLog.log_file, JobLog.log_dir.
  rewrite string_app_assoc, locate_below_base, resolve_below_base.
  rewrite (split_scatter _ _ Hchars) by done.
  rewrite (WalkFacts.walk_canonical _ _ _ (log_file_names _ Hchars)).
  by rewrite (PathFacts.foldl_step_canonical _ _ (log_file_names _ Hchars)).
Qed.

Lemma node_at_log_file w outs :
  JobLog.all_chars JobLog.name_char outs = true →
  Posix.node_at w (JobLog.log_file outs) =
  Path.resolve (w_cwd w) (JobLog.log_file outs) ≫= Posix.lookup_node (w_fs w).
Proof. intros Hchars. unfold Posix.node_at. by rewrite locate_log_file. Qed.

(** Whether the directory of the log is one is read at the place its
    path points to. *)
Lemma isdir_log_dir w outs ld :
  JobLog.all_chars JobLog.name_char outs = true →
  Path.resolve (w_cwd w) (JobLog.log_dir outs) = Some ld →
  Posix.node_at w (JobLog.log_dir outs) = Some Dir ↔
  Posix.lookup_node (w_fs w) ld = Some Dir.
Proof.
  intros Hchars. destruct (pairs_plain _ Hchars) as (Hpairs & Hrest & Hlen).
  unfold Posix.node_at, JobLog.log_dir.
  rewrite locate_below_base, resolve_below_base, (log_dir_split _ Hchars).
  rewrite WalkFacts.walk_app, foldl_app.
  rewrite (WalkFacts.walk_canonical _ _ _ Hpairs).
  rewrite (PathFacts.foldl_step_canonical _ _ Hpairs).
  cbn [mbind option_bind foldl].
  destruct (JobLog.pairs_of outs).2 as [|c [|c' rest]]; cbn [String.length] in Hlen;
    [| |lia].
  - cbn [Posix.walk]. change (Path.plain "") with false. cbv iota.
    change (Path.step ?x "") with x. intros [= <-].
    unfold JobLog.base_loc. cbn [app].
    destruct (Posix.lookup_node _ _) as [[|d]|] eqn:E;
      cbn [mbind option_bind]; by rewrite ?E.
  - cbn [JobLog.all_chars] in Hrest. apply andb_prop in Hrest as [Hc _].
    cbn [Posix.walk]. rewrite (plain_single _ Hc), (PathFacts.step_plain _ _ (plain_single _ Hc)).
    by intros [= <-].
Qed.

Lemma isdir_flag_log_dir w outs ld :
  JobLog.all_chars JobLog.name_char outs = true →
  Path.resolve (w_cwd w) (JobLog.log_dir outs) = Some ld →
  match Posix.node_at w (JobLog.log_dir outs) with
  | Some Dir => true
  | _ => false
  end = match Posix.lookup_node (w_fs w) ld with
        | Some Dir => true
        | _ => false
        end.
Proof.
  intros Hchars Hld. pose proof (isdir_log_dir w outs ld Hchars Hld) as [H1 H2].
  destruct (Posix.node_at w (JobLog.log_dir outs)) as [[|d]|] eqn:E;
    destruct (Posix.lookup_node (w_fs w) ld) as [[|d']|]; try done;
    try (by discriminate H1); by discriminate H2.
Qed.

(** *** The job log: what a run does *)

Section JobLogRun.

Variable py_int : string → result Z.
Variable str_list : list string → string.
Variable str_environ : gmap string string → string.

Local Abbreviation rnr_log := (JobLog.rnr_log py_int str_list str_environ).
Local Abbreviation log_text := (JobLog.log_text str_list str_environ).

Lemma os_makedirs_inv p w w' r :
  JobLog.os_makedirs p w = (w', r) →
  (∃ e, r = Raised e ∧ exn_class e = "OSError" ∧ w' = w) ∨
  (∃ l m', r = Ok tt ∧ Path.resolve (w_cwd w) p = Some l ∧
     Posix.lookup_node (w_fs w) l = None ∧
     Posix.makedirs (w_fs w) [] l = Some m' ∧ w' = set_env (set_fs m') w).
Proof.
  unfold JobLog.os_makedirs.
  destruct (Path.resolve (w_cwd w) p) as [l|]; [|intros [= <- <-]; left; by eexists].
  destruct (Posix.lookup_node (w_fs w) l) eqn:El; [intros [= <- <-]; left; by eexists|].
  destruct (Posix.makedirs (w_fs w) [] l) as [m'|] eqn:Em; intros [= <- <-].
  - right. by exists l, m'.
  - left. by eexists.
Qed.

Lemma open_w_inv p w w' r :
  JobLog.open_w p w = (w', r) →
  (∃ e, r = Raised e ∧ exn_class e = "IOError" ∧ w' = w) ∨
  (∃ l, r = Ok l ∧ Path.resolve (w_cwd w) p = Some l ∧
     Posix.lookup_node (w_fs w) (removelast l) = Some Dir ∧
     Posix.lookup_node (w_fs w) l ≠ Some Dir ∧
     w' = set_env (set_fs (<[l := File ""]> (w_fs w))) w).
Proof.
  unfold JobLog.open_w.
  destruct (Posix.locate (w_fs w) (w_cwd w) p) as [l|] eqn:Hl;
    [|intros [= <- <-]; left; by eexists].
  apply WalkFacts.locate_resolve in Hl.
  destruct (Posix.lookup_node (w_fs w) (removelast l)) as [[|x]|] eqn:Ep;
    [|intros [= <- <-]; left; by eexists..].
  destruct (Posix.lookup_node (w_fs w) l) as [[|x]|] eqn:El; intros [= <- <-].
  - left. by eexists.
  - right. exists l. by rewrite El.
  - right. exists l. by rewrite El.
Qed.

(** The three writes into a file just opened. *)
Lemma writes_run fh s1 s2 s3 w :
  w_fs w !! fh = Some (File "") →
  (JobLog.file_write fh s1 ;; JobLog.file_write fh s2 ;; JobLog.file_write fh s3) w =
  (set_env (set_fs (<[fh := File ((s1 +:+ s2) +:+ s3)]> (w_fs w))) w, Ok tt).
Proof.
  intros Hfh. unfold bind, JobLog.file_write, modify. rewrite Hfh.
  world_simpl. repeat (rewrite lookup_insert_eq; world_simpl).
  by rewrite !insert_insert_eq, PathFacts.app_empty_l.
Qed.

(** The run once the job id is read as a number. *)
Lemma rnr_log_unfold environ args z w :
  py_int (JobLog.job_id_text environ) = Ok z →
  rnr_log environ args w =
  (when (negb match Posix.node_at w (JobLog.log_dir (JobLog.format_08_2d z)) with
              | Some Dir => true
              | _ => false
              end)
        (JobLog.os_makedirs (JobLog.log_dir (JobLog.format_08_2d z))) ;;
   fh <- JobLog.open_w (JobLog.log_file (JobLog.format_08_2d z)) ;;
   host <- JobLog.environ_get environ "HOSTNAME" ;;
   JobLog.file_write fh ("hostname= " +:+ host +:+ nl) ;;
   JobLog.file_write fh ("args= " +:+ str_list args +:+ nl) ;;
   JobLog.file_write fh ("env= " +:+ str_environ environ)) w.
Proof. intros Hz. unfold JobLog.rnr_log, bind at 1 2. by rewrite Hz. Qed.

Lemma makedirs_step_inv b d w w' r :
  when b (JobLog.os_makedirs d) w = (w', r) →
  w_cwd w' = w_cwd w ∧
  ((∃ e, r = Raised e ∧ exn_class e = "OSError" ∧ w' = w) ∨
   (r = Ok tt ∧ b = false ∧ w' = w) ∨
   (∃ l m', r = Ok tt ∧ b = true ∧ Path.resolve (w_cwd w) d = Some l ∧
      Posix.lookup_node (w_fs w) l = None ∧
      Posix.makedirs (w_fs w) [] l = Some m' ∧ w' = set_env (set_fs m') w)).
Proof.
  destruct b; cbn [when].
  - intros H. apply os_makedirs_inv in H as [(e & -> & He & ->)|(l & m' & -> & ? & ? & ? & ->)].
    + split; [done|]. left. by exists e.
    + split; [done|]. right. right. by exists l, m'.
  - intros [= <- <-]. split; [done|]. right. by left.
Qed.

(** X19: a run that returns has written the log: the file named after the
    job id holds the three lines, the host name, the arguments and the
    environment, and nothing of what it may have held before. *)
Theorem rnr_log_writes_the_log
    (environ : gmap string string) (args : list string) (host : string) (z : Z)
    (w w' : world) :
  environ !! "HOSTNAME" = Some host →
  py_int (JobLog.job_id_text environ) = Ok z →
  rnr_log environ args w = (w', Ok tt) →
  Posix.node_at w' (JobLog.log_file (JobLog.format_08_2d z)) =
    Some (File (log_text environ args host)).
Proof.
  intros Hhost Hz Hrun. rewrite (rnr_log_unfold _ _ _ _ Hz) in Hrun.
  apply bind_inv_ok in Hrun as (w1 & [] & Hmk & Hrun).
  apply makedirs_step_inv in Hmk as [Hcwd1 _].
  apply bind_inv_ok in Hrun as (w2 & fh & Hopen & Hrun).
  apply open_w_inv in Hopen as [(e & [=] & _)|(l & [= <-] & Hl & _ & Hnd & ->)].
  unfold JobLog.environ_get in Hrun. rewrite Hhost in Hrun.
  unfold bind at 1, ret in Hrun.
  rewrite writes_run in Hrun by (world_simpl; by rewrite lookup_insert_eq).
  injection Hrun as <-. rewrite (node_at_log_file _ _ (format_name_chars z)).
  replace (w_cwd _) with (w_cwd w1) by done. rewrite Hl. cbn [mbind option_bind].
  destruct fh as [|c l]; [done|]. cbn [Posix.lookup_node]. world_simpl.
  by rewrite insert_insert_eq, lookup_insert_eq.
Qed.

(** X20: without [HOSTNAME] in the environment the function never returns:
    it raises, and when what it raises is the [KeyError] for that name,
    the log has been created already and is left empty. *)
Theorem rnr_log_without_hostname
    (environ : gmap string string) (args : list string) (z : Z) (w : world) :
  environ !! "HOSTNAME" = None →
  py_int (JobLog.job_id_text environ) = Ok z →
  ∃ e, (rnr_log environ args w).2 = Raised e ∧
    ((exn_class e = "OSError" ∨ exn_class e = "IOError") ∨
     (e = Exn "KeyError" "'HOSTNAME'" ∧
      Posix.node_at (rnr_log environ args w).1
        (JobLog.log_file (JobLog.format_08_2d z)) = Some (File ""))).
Proof.
  intros Hhost Hz. destruct (rnr_log environ args w) as [w' r] eqn:Hrun.
  rewrite (rnr_log_unfold _ _ _ _ Hz) in Hrun. cbn [fst snd].
  apply bind_inv in Hrun as [(e & Hmk & ->)|(w1 & [] & Hmk & Hrun)].
  { apply makedirs_step_inv in Hmk as [_ [(e' & [= <-] & He & _)|[([=] & _)|(?&?&[=]&_)]]].
    exists e. split; [done|]. left. by left. }
  apply makedirs_step_inv in Hmk as [Hcwd1 _].
  apply bind_inv in Hrun as [(e & Hopen & ->)|(w2 & fh & Hopen & Hrun)].
  { apply open_w_inv in Hopen as [(e' & [= <-] & He & _)|(? & [=] & _)].
    exists e. split; [done|]. left. by right. }
  apply open_w_inv in Hopen as [(e & [=] & _)|(l & [= <-] & Hl & _ & Hnd & ->)].
  unfold JobLog.environ_get in Hrun. rewrite Hhost in Hrun.
  unfold bind at 1, raise in Hrun. injection Hrun as <- <-.
  eexists. split; [done|]. right. split; [done|].
  rewrite (node_at_log_file _ _ (format_name_chars z)).
  replace (w_cwd _) with (w_cwd w1) by done.
  rewrite Hl. cbn [mbind option_bind].
  destruct fh as [|c l]; [done|]. cbn [Posix.lookup_node]. world_simpl.
  by rewrite lookup_insert_eq.
Qed.

#[local] Instance same_trace_preorder : PreOrder same_trace.
Proof. split; unfold same_trace; [done | intros x y z; congruence]. Qed.

Lemma insert_file_dirs m l n old k :
  m !! l = Some (File old) →
  Posix.lookup_node m k = Some Dir →
  Posix.lookup_node (<[l := n]> m) k = Some Dir.
Proof.
  intros Hl Hk. destruct k as [|c k]; [done|]. cbn [Posix.lookup_node] in *.
  rewrite lookup_insert_ne; [done|]. intros ->. by rewrite Hl in Hk.
Qed.

Lemma os_makedirs_grows p : respects fs_grows (JobLog.os_makedirs p).
Proof.
  intros w. destruct (JobLog.os_makedirs p w) as [w' r] eqn:Hrun.
  apply os_makedirs_inv in Hrun as [(e & _ & _ & ->)|(l & m' & _ & _ & _ & Hmk & ->)];
    [reflexivity|].
  intros k. cbn [fst]. world_simpl. split.
  - by apply (makedirs_keeps _ _ _ _ _ Hmk).
  - by apply (makedirs_dirs _ _ _ _ _ Hmk).
Qed.

Lemma open_w_grows p : respects fs_grows (JobLog.open_w p).
Proof.
  intros w. destruct (JobLog.open_w p w) as [w' r] eqn:Hrun.
  apply open_w_inv in Hrun as [(e & _ & _ & ->)|(l & _ & _ & _ & Hnd & ->)];
    [reflexivity|].
  intros k. cbn [fst]. world_simpl. split.
  - by apply lookup_node_insert_some.
  - by apply lookup_node_insert_dir.
Qed.

Lemma file_write_grows fh s : respects fs_grows (JobLog.file_write fh s).
Proof.
  intros w. unfold JobLog.file_write, modify. cbn [fst].
  destruct (w_fs w !! fh) as [[|old]|] eqn:E; try reflexivity.
  intros k. world_simpl. split.
  - by apply lookup_node_insert_some.
  - by apply (insert_file_dirs _ _ _ old).
Qed.

Lemma rnr_log_grows environ args : respects fs_grows (rnr_log environ args).
Proof.
  unfold JobLog.rnr_log, JobLog.environ_get, JobLog.isdir. cbv zeta.
  respects_split;
    try apply os_makedirs_grows; try apply open_w_grows;
    try apply file_write_grows; apply fs_grows_same; respects_leaf.
Qed.

Ltac job_log_leaves :=
  unfold JobLog.rnr_log, JobLog.environ_get, JobLog.isdir, JobLog.os_makedirs,
    JobLog.open_w, JobLog.file_write; cbv zeta;
  respects_split; respects_leaf.

Lemma rnr_log_quiet environ args : respects quiet (rnr_log environ args).
Proof. job_log_leaves. Qed.

Lemma rnr_log_same_trace environ args : respects same_trace (rnr_log environ args).
Proof. job_log_leaves. Qed.

Lemma rnr_log_same_cwd environ args : respects same_cwd (rnr_log environ args).
Proof. job_log_leaves. Qed.

Lemma rnr_log_same_sys_path environ args :
  respects same_sys_path (rnr_log environ args).
Proof. job_log_leaves. Qed.

(** X21: the function touches the file system and nothing else: nothing
    is printed or written to standard error, the working directory and
    [sys.path] are as before, however the call ends.  In the file
    system it only adds: whatever path named something still does, and
    directories are still directories. *)
Theorem rnr_log_only_adds_files
    (environ : gmap string string) (args : list string) (w : world) :
  let w' := (rnr_log environ args w).1 in
  stdout w' = stdout w ∧ stderr w' = stderr w ∧ trace w' = trace w ∧
  w_cwd w' = w_cwd w ∧ w_sys_path w' = w_sys_path w ∧
  ∀ k, (is_Some (Posix.lookup_node (w_fs w) k) →
        is_Some (Posix.lookup_node (w_fs w') k)) ∧
       (Posix.lookup_node (w_fs w) k = Some Dir →
        Posix.lookup_node (w_fs w') k = Some Dir).
Proof.
  intros w'. destruct (rnr_log_quiet environ args w) as (Hout & Herr & _ & _).
  split; [done|]. split; [done|].
  split; [apply (rnr_log_same_trace environ args w)|].
  split; [apply (rnr_log_same_cwd environ args w)|].
  split; [apply (rnr_log_same_sys_path environ args w)|].
  apply (rnr_log_grows environ args w).
Qed.

Lemma lookup_node_insert_ne m l n k :
  k ≠ l → Posix.lookup_node (<[l := n]> m) k = Posix.lookup_node m k.
Proof.
  intros Hne. destruct k as [|c k]; [done|]. cbn [Posix.lookup_node].
  by rewrite lookup_insert_ne.
Qed.

Lemma lookup_node_insert_eq m l n :
  l ≠ [] → Posix.lookup_node (<[l := n]> m) l = Some n.
Proof.
  intros Hne. destruct l as [|c l]; [done|]. cbn [Posix.lookup_node].
  by rewrite lookup_insert_eq.
Qed.

(** [makedirs] writes only where nothing was. *)
Lemma makedirs_same m base rest m' k n :
  Posix.makedirs m base rest = Some m' →
  Posix.lookup_node m k = Some n → Posix.lookup_node m' k = Some n.
Proof.
  revert m base. induction rest as [|c rest IH]; intros m base; cbn [Posix.makedirs].
  - by intros [= ->].
  - destruct (Posix.lookup_node m (base ++ [c])) as [[|x]|] eqn:E; [eauto|done|].
    intros Hmk Hk. eapply IH; [done|].
    rewrite lookup_node_insert_ne; [done|]. intros ->. by rewrite E in Hk.
Qed.

Lemma makedirs_leaf m base rest m' :
  Posix.lookup_node m base = Some Dir →
  Posix.makedirs m base rest = Some m' →
  Posix.lookup_node m' (base ++ rest) = Some Dir.
Proof.
  revert m base. induction rest as [|c rest IH]; intros m base Hbase;
    cbn [Posix.makedirs].
  - intros [= <-]. by rewrite app_nil_r.
  - rewrite (cons_middle c base rest), app_assoc.
    destruct (Posix.lookup_node m (base ++ [c])) as [[|x]|] eqn:E; [by apply IH|done|].
    apply IH. apply lookup_node_insert_eq. by destruct base.
Qed.

(** X22: the log is the only thing the function overwrites: whatever was
    at any other place is there afterwards, unchanged. *)
Theorem rnr_log_overwrites_only_the_log
    (environ : gmap string string) (args : list string) (z : Z) (w : world)
    (l k : Path.loc) (n : node) :
  py_int (JobLog.job_id_text environ) = Ok z →
  Path.resolve (w_cwd w) (JobLog.log_file (JobLog.format_08_2d z)) = Some l →
  k ≠ l →
  Posix.lookup_node (w_fs w) k = Some n →
  Posix.lookup_node (w_fs (rnr_log environ args w).1) k = Some n.
Proof.
  intros Hz Hl Hne Hk. destruct (rnr_log environ args w) as [w' r] eqn:Hrun.
  rewrite (rnr_log_unfold _ _ _ _ Hz) in Hrun. cbn [fst].
  assert (∀ w1 r1 b d, when b (JobLog.os_makedirs d) w = (w1, r1) →
            Posix.lookup_node (w_fs w1) k = Some n) as Hstep.
  { intros w1 r1 b d Hmk.
    apply makedirs_step_inv in Hmk
      as [_ [(e & _ & _ & ->)|[(_ & _ & ->)|(l' & m' & _ & _ & _ & _ & Hmk & ->)]]];
      [done|done|].
    world_simpl. by apply (makedirs_same _ _ _ _ _ _ Hmk). }
  apply bind_inv in Hrun as [(e & Hmk & ->)|(w1 & [] & Hmk & Hrun)]; [by eapply Hstep|].
  pose proof (Hstep _ _ _ _ Hmk) as Hk1.
  apply makedirs_step_inv in Hmk as [Hcwd1 _]. clear Hstep.
  apply bind_inv in Hrun as [(e & Hopen & ->)|(w2 & fh & Hopen & Hrun)].
  { by apply open_w_inv in Hopen as [(e' & _ & _ & ->)|(? & [=] & _)]. }
  apply open_w_inv in Hopen as [(e & [=] & _)|(l' & [= <-] & Hl' & _ & Hnd & ->)].
  rewrite Hcwd1, Hl in Hl'. injection Hl' as <-.
  unfold JobLog.environ_get in Hrun.
  destruct (environ !! "HOSTNAME") as [host|].
  - unfold bind at 1, ret in Hrun.
    rewrite writes_run in Hrun by (world_simpl; by rewrite lookup_insert_eq).
    injection Hrun as <- _. world_simpl.
    by rewrite !lookup_node_insert_ne.
  - unfold bind at 1, raise in Hrun. injection Hrun as <- _. world_simpl.
    by rewrite lookup_node_insert_ne.
Qed.

Lemma open_w_run p l w :
  Posix.locate (w_fs w) (w_cwd w) p = Some l →
  Posix.lookup_node (w_fs w) (removelast l) = Some Dir →
  Posix.lookup_node (w_fs w) l ≠ Some Dir →
  JobLog.open_w p w = (set_env (set_fs (<[l := File ""]> (w_fs w))) w, Ok l).
Proof.
  intros Hl Hp Hnd. unfold JobLog.open_w. rewrite Hl, Hp.
  by destruct (Posix.lookup_node (w_fs w) l) as [[|x]|].
Qed.

(** X23: a call that returned can be made again: the second call returns
    as well and leaves everything as the first one left it. *)
Theorem rnr_log_repeatable
    (environ : gmap string string) (args : list string) (w w' : world) :
  rnr_log environ args w = (w', Ok tt) →
  rnr_log environ args w' = (w', Ok tt).
Proof.
  intros Hrun.
  destruct (py_int (JobLog.job_id_text environ)) as [z|e] eqn:Hz.
  2:{ unfold JobLog.rnr_log, bind at 1 in Hrun. by rewrite Hz in Hrun. }
  rewrite (rnr_log_unfold _ _ _ _ Hz) in Hrun. rewrite (rnr_log_unfold _ _ _ _ Hz).
  set (dir := JobLog.log_dir (JobLog.format_08_2d z)) in *.
  set (file := JobLog.log_file (JobLog.format_08_2d z)) in *.
  apply bind_inv_ok in Hrun as (w1 & [] & Hmk & Hrun).
  assert (w_cwd w1 = w_cwd w ∧ Posix.node_at w1 dir = Some Dir) as [Hcwd1 Hdir].
  { apply makedirs_step_inv in Hmk
      as [Hcwd [(e & [=] & _)|[(_ & Hb & ->)|(l & m' & _ & _ & Hl & _ & Hmk & ->)]]].
    - split; [done|]. apply negb_false_iff in Hb.
      by destruct (Posix.node_at w dir) as [[|x]|].
    - split; [done|].
      apply (isdir_log_dir _ _ l (format_name_chars z)); [done|].
      world_simpl. eapply (makedirs_leaf _ [] l); [|exact Hmk]. done. }
  clear Hmk.
  apply bind_inv_ok in Hrun as (w2 & fh & Hopen & Hrun).
  apply open_w_inv in Hopen as [(e & [=] & _)|(l' & [= <-] & Hl & Hparent & Hnd & ->)].
  assert (fh ≠ []) as Hfh by (intros ->; by apply Hnd).
  unfold JobLog.environ_get in Hrun |- *.
  destruct (environ !! "HOSTNAME") as [host|] eqn:Hhost;
    [|by unfold bind at 1, raise in Hrun].
  unfold bind at 1, ret in Hrun.
  rewrite writes_run in Hrun by (world_simpl; by rewrite lookup_insert_eq).
  set (text := log_text environ args host).
  assert (w' = set_env (set_fs (<[fh := File text]> (w_fs w1))) w1) as ->.
  { injection Hrun as <-. world_simpl. by rewrite insert_insert_eq. }
  clear Hrun.
  assert (Posix.node_at (set_env (set_fs (<[fh := File text]> (w_fs w1))) w1) dir
            = Some Dir) as ->.
  { apply (WalkFacts.node_at_dir_mono w1); [done| |done].
    intros k Hk. world_simpl. by apply lookup_node_insert_dir. }
  cbn [negb when]. unfold bind at 1, ret.
  unfold bind at 1. rewrite (open_w_run file fh).
  - unfold bind at 1, ret. rewrite writes_run by (world_simpl; by rewrite lookup_insert_eq).
    world_simpl. by rewrite !insert_insert_eq.
  - unfold file. by rewrite (locate_log_file _ _ _ (format_name_chars z)).
  - world_simpl. by apply lookup_node_insert_dir.
  - world_simpl. by rewrite (lookup_node_insert_eq _ _ _ Hfh).
Qed.

(** [makedirs] succeeds when no regular file is in the way. *)
Lemma makedirs_ok m base rest :
  (∀ k d, k `prefix_of` base ++ rest → Posix.lookup_node m k ≠ Some (File d)) →
  is_Some (Posix.makedirs m base rest).
Proof.
  revert m base. induction rest as [|c rest IH]; intros m base Hclear;
    cbn [Posix.makedirs]; [by eexists|].
  assert (base ++ [c] `prefix_of` base ++ c :: rest) as Hpre.
  { exists rest. by rewrite <- app_assoc. }
  destruct (Posix.lookup_node m (base ++ [c])) as [[|x]|] eqn:E.
  - apply IH. intros k d Hk. apply Hclear. by rewrite <- app_assoc in Hk.
  - by destruct (Hclear _ x Hpre).
  - apply IH. intros k d Hk. rewrite <- app_assoc in Hk.
    destruct (decide (k = base ++ [c])) as [->|Hne].
    + rewrite lookup_node_insert_eq; [done|]. by destruct base.
    + rewrite lookup_node_insert_ne by done. by apply Hclear.
Qed.

(** [makedirs] writes only along the path it is given. *)
Lemma makedirs_elsewhere m base rest m' k :
  Posix.makedirs m base rest = Some m' →
  ¬ k `prefix_of` base ++ rest →
  Posix.lookup_node m' k = Posix.lookup_node m k.
Proof.
  revert m base. induction rest as [|c rest IH]; intros m base; cbn [Posix.makedirs].
  - by intros [= ->].
  - intros Hmk Hk. rewrite (cons_middle c base rest), app_assoc in Hk.
    destruct (Posix.lookup_node m (base ++ [c])) as [[|x]|] eqn:E; [eauto|done|].
    rewrite (IH _ _ Hmk Hk). apply lookup_node_insert_ne.
    intros ->. apply Hk. by exists rest.
Qed.

(** A way to check that no regular file lies on the way to [ld]. *)
Lemma clear_way_check m ld :
  forallb (λ i, match Posix.lookup_node m (take i ld) with
                | Some (File _) => false
                | _ => true
                end) (seq 0 (S (length ld))) = true →
  ∀ k d, k `prefix_of` ld → Posix.lookup_node m k ≠ Some (File d).
Proof.
  intros Hall k d [s ->] Hk.
  rewrite forallb_forall in Hall. specialize (Hall (length k)).
  rewrite take_app_length, Hk in Hall. discriminate Hall.
  apply in_seq. rewrite length_app. lia.
Qed.

(** X24: when the call returns.  For a job id of up to eight digits, with
    [HOSTNAME] set, the call returns provided no regular file lies on
    the way to the log directory and no directory lies where the log is
    to be (permissions are not modelled). *)
Theorem rnr_log_returns
    (environ : gmap string string) (args : list string) (host : string) (z : Z)
    (w : world) (ld : Path.loc) :
  environ !! "HOSTNAME" = Some host →
  py_int (JobLog.job_id_text environ) = Ok z →
  (- 10 ^ 7 < z < 10 ^ 8)%Z →
  Path.resolve (w_cwd w) (JobLog.log_dir (JobLog.format_08_2d z)) = Some ld →
  (∀ k d, k `prefix_of` ld → Posix.lookup_node (w_fs w) k ≠ Some (File d)) →
  Posix.lookup_node (w_fs w) (ld ++ ["rnr.txt"]) ≠ Some Dir →
  ∃ w', rnr_log environ args w = (w', Ok tt).
Proof.
  intros Hhost Hz Hrange Hld Hclear Hlog.
  rewrite (rnr_log_unfold _ _ _ _ Hz).
  set (outs := JobLog.format_08_2d z) in *.
  destruct (pairs_of_even outs 4) as [Hrest _].
  { unfold outs. by rewrite format_length_8. }
  destruct (log_paths_even outs (w_cwd w) (format_name_chars z) Hrest) as [Hd Hf].
  assert (ld = JobLog.base_loc ++ (JobLog.pairs_of outs).1) as Hd' by congruence.
  rewrite app_assoc, <- Hd' in Hf. clear Hd Hd'.
  assert (¬ ld ++ ["rnr.txt"] `prefix_of` ld) as Hnp.
  { intros Hp. apply prefix_length in Hp. rewrite length_app in Hp. cbn in Hp. lia. }
  assert (∃ w1, when (negb match Posix.node_at w (JobLog.log_dir outs) with
                           | Some Dir => true
                           | _ => false
                           end) (JobLog.os_makedirs (JobLog.log_dir outs)) w
                = (w1, Ok tt) ∧ w_cwd w1 = w_cwd w ∧
                Posix.lookup_node (w_fs w1) ld = Some Dir ∧
                Posix.lookup_node (w_fs w1) (ld ++ ["rnr.txt"]) ≠ Some Dir)
    as (w1 & Hmk & Hcwd1 & Hdir & Hlog1).
  { rewrite (isdir_flag_log_dir w outs ld (format_name_chars z) Hld).
    destruct (Posix.lookup_node (w_fs w) ld) as [[|x]|] eqn:E.
    - by exists w.
    - by destruct (Hclear ld x).
    - cbn [negb when]. unfold JobLog.os_makedirs. rewrite Hld, E.
      destruct (makedirs_ok (w_fs w) [] ld Hclear) as [m' Hm'].
      rewrite Hm'. eexists. split; [done|]. split; [done|]. world_simpl. split.
      + eapply (makedirs_leaf _ [] ld); [|exact Hm']. done.
      + by rewrite (makedirs_elsewhere _ _ _ _ _ Hm' Hnp). }
  unfold bind at 1. rewrite Hmk.
  unfold bind at 1. rewrite (open_w_run _ (ld ++ ["rnr.txt"])).
  - unfold JobLog.environ_get. rewrite Hhost. unfold bind at 1, ret.
    rewrite writes_run by (world_simpl; by rewrite lookup_insert_eq).
    by eexists.
  - rewrite (locate_log_file _ _ _ (format_name_chars z)). by rewrite Hcwd1.
  - by rewrite removelast_last.
  - done.
Qed.

End JobLogRun.

End Facts.

(** ** The claims on the concrete installation *)

Lemma main_missing_staging_dir_witness :
  let args := ["sge_runner.py"; "/missing"; "/proj"; "42"; "--tarball"] in
  args !! 1 = Some "/missing" ∧
  Posix.node_at Demo.staged "/missing" = None ∧
  (Demo.run_main args Demo.staged).2 =
    Raised (Exn "AssertionError" precondition_message) ∧
  trace (Demo.run_main args Demo.staged).1 = trace Demo.staged ++ [EvExists "/missing"] ∧
  w_env (Demo.run_main args Demo.staged).1 = w_env Demo.staged.
Proof.
  split; [reflexivity|]. split; [reflexivity|].
  apply (main_missing_staging_dir Demo.load Demo.work Demo.tar Demo.clock
           Demo.fmt Demo.fmt); reflexivity.
Defined.

Lemma extractor_restores_cwd_on_return_witness :
  Path.canonical (w_cwd Demo.staged) = true ∧
  w_cwd (_extract_packages_archive Demo.tar "/stage" Demo.staged).1 =
    w_cwd Demo.staged.
Proof.
  split; [reflexivity|].
  exact (extractor_restores_cwd_on_return Demo.tar "/stage" Demo.staged eq_refl).
Defined.

Lemma work_starts_in_original_cwd_witness :
  Path.canonical (w_cwd Demo.staged) = true ∧
  ∃ new,
    trace (Demo.run_do_work "/stage" "42" true None false Demo.staged).1 =
      trace Demo.staged ++ new ∧
    (∀ c, EvWork c ∈ new → c = w_cwd Demo.staged) ∧
    ((Demo.run_do_work "/stage" "42" true None false Demo.staged).2 = Ok tt →
     EvWork (w_cwd Demo.staged) ∈ new) ∧
    (∀ l, Path.resolve (w_cwd Demo.staged) "/stage" = Some l →
       last new = Some (EvOpen (blob_name "42")) ∨ last new = Some EvLoad →
       (∃ e, (Demo.run_do_work "/stage" "42" true None false Demo.staged).2 = Raised e) ∧
       w_cwd (Demo.run_do_work "/stage" "42" true None false Demo.staged).1 = l ∧
       ∀ c, EvWork c ∉ new).
Proof.
  split; [reflexivity|].
  apply (work_starts_in_original_cwd Demo.load Demo.work Demo.tar Demo.clock
           Demo.fmt "/stage" "42" true None false Demo.staged).
  reflexivity.
Defined.

Lemma tarball_without_archive_witness :
  let args := ["sge_runner.py"; "/stage"; "/proj"; "42"; "--tarball"] in
  "--tarball" ∈ args ∧
  args !! 1 = Some "/stage" ∧ args !! 2 = Some "/proj" ∧ args !! 3 = Some "42" ∧
  Posix.node_at Demo.staged_bare "/stage" = Some Dir ∧
  Posix.node_at Demo.staged_bare (Path.join "/stage" "packages.tar") = None ∧
  ∃ rest,
    trace (Demo.run_main args Demo.staged_bare).1 =
      trace Demo.staged_bare ++
      [EvExists "/stage"; EvExists (Path.join "/stage" "packages.tar");
       EvChdir "/stage"; EvOpen (blob_name "42")] ++ rest.
Proof.
  assert ("--tarball" ∈ ["sge_runner.py"; "/stage"; "/proj"; "42"; "--tarball"])
    as Hin by (repeat constructor).
  split; [exact Hin|]. repeat (split; [reflexivity|]).
  apply (tarball_without_archive Demo.load Demo.work Demo.tar Demo.clock
           Demo.fmt Demo.fmt _ Demo.staged_bare "/stage" "/proj" "42" Hin);
    reflexivity.
Defined.

Lemma debug_note_without_extraction_witness :
  let args := ["sge_runner.py"; "/stage"; "/proj"; "42"; "--debug"] in
  "--debug" ∈ args ∧ ("--tarball" ∉ args) ∧
  args !! 1 = Some "/stage" ∧ args !! 2 = Some "/proj" ∧ args !! 3 = Some "42" ∧
  is_Some (Posix.node_at Demo.staged "/stage") ∧
  (∃ more,
     stderr (Demo.run_main args Demo.staged).1 =
       stderr Demo.staged ++
       ["starting at " +:+ (Demo.fmt (Demo.clock 1)) +:+ nl;
        "extracted tar after " +:+ (Demo.fmt (Demo.clock 2 - Demo.clock 0)%Z) +:+
          " seconds" +:+ nl] ++ more) ∧
  (∃ new, trace (Demo.run_main args Demo.staged).1 = trace Demo.staged ++ new ∧
          forallb (λ ev, negb (is_extraction ev)) new = true).
Proof.
  assert ("--debug" ∈ ["sge_runner.py"; "/stage"; "/proj"; "42"; "--debug"])
    as Hin by (repeat constructor).
  assert ("--tarball" ∉ ["sge_runner.py"; "/stage"; "/proj"; "42"; "--debug"])
    as Hout by (apply (bool_decide_unpack _); vm_compute; exact I).
  assert (is_Some (Posix.node_at Demo.staged "/stage")) as Hdir by (by exists Dir).
  split; [exact Hin|]. split; [exact Hout|].
  repeat (split; [reflexivity|]). split; [exact Hdir|].
  exact (debug_note_without_extraction Demo.load Demo.work Demo.tar Demo.clock
           Demo.fmt Demo.fmt ["sge_runner.py"; "/stage"; "/proj"; "42"; "--debug"]
           Demo.staged "/stage" "/proj" "42"
           Hin Hout eq_refl eq_refl eq_refl Hdir).
Defined.

Lemma precondition_error_is_fixed_sentence_witness :
  let args := ["sge_runner.py"; "/missing"; "/proj"; "42"] in
  args !! 1 = Some "/missing" ∧
  Posix.node_at Demo.staged "/missing" = None ∧
  (Demo.run_main args Demo.staged).2 =
    Raised (Exn "AssertionError"
                "First argument to sge_runner.py must be a directory that exists") ∧
  stdout (Demo.run_main args Demo.staged).1 =
    stdout Demo.staged ++
    ["First argument to sge_runner.py must be a directory that exists"].
Proof.
  split; [reflexivity|]. split; [reflexivity|].
  apply (precondition_error_is_fixed_sentence Demo.load Demo.work Demo.tar
           Demo.clock Demo.fmt Demo.fmt _ Demo.staged "/missing"); reflexivity.
Defined.


(** *** Where the specification and the code part *)


(** C2 fails: a vector with [--debug] between the program name and the
    staging directory matches the contract of the specification, but
    [main] takes ["--debug"] for the staging directory, finds no such
    path and stops at the precondition check; the same arguments with the
    flag last run the task. *)
Lemma flag_before_positionals_misbinds :
  let args := ["sge_runner.py"; "--debug"; "/stage"; "/proj"; "42"] in
  matches_contract args "/stage" "/proj" "42" ∧
  args !! 1 = Some "--debug" ∧
  (Demo.run_main args Demo.staged).2 =
    Raised (Exn "AssertionError" precondition_message) ∧
  trace (Demo.run_main args Demo.staged).1 = [EvExists "--debug"] ∧
  (Demo.run_main ["sge_runner.py"; "/stage"; "/proj"; "42"; "--debug"]
                 Demo.staged).2 = Ok tt.
Proof.
  split; [|by vm_compute].
  by exists "sge_runner.py", ["--debug"; "/stage"; "/proj"; "42"].
Qed.

(** C4 fails: with an archive that is not a tar file the extractor raises
    from [tarfile.open] and the process stays in the staging directory. *)
Lemma corrupt_archive_leaves_cwd :
  let r := _extract_packages_archive Demo.tar "/stage" Demo.staged_corrupt in
  Posix.node_at Demo.staged_corrupt "/stage/packages.tar" = Some (File "garbage") ∧
  r.2 = Raised (Exn "ReadError" "file could not be opened successfully") ∧
  w_cwd Demo.staged_corrupt = ["home"; "luigi"] ∧
  w_cwd r.1 = ["stage"].
Proof. by vm_compute. Qed.

(** C5 fails: when the blob does not unpickle, and likewise when there is
    no blob, [_do_work_on_compute_node] raises with the process left in
    the staging directory. *)
Lemma failed_load_leaves_cwd :
  let corrupt := Demo.run_do_work "/stage" "44" false None false Demo.staged in
  let absent := Demo.run_do_work "/stage" "43" false None false Demo.staged in
  w_cwd Demo.staged = ["home"; "luigi"] ∧
  corrupt.2 = Raised (Exn "UnpicklingError" "invalid load key") ∧
  w_cwd corrupt.1 = ["stage"] ∧
  absent.2 = Raised (Exn "IOError"
    "[Errno 2] No such file or directory: '43.job-instance.pickle'") ∧
  w_cwd absent.1 = ["stage"].
Proof. by vm_compute. Qed.

(** C9 fails: the message of the failed precondition does not contain the
    path that was not found. *)
Lemma precondition_message_omits_path :
  let r := Demo.run_main ["sge_runner.py"; "/missing"; "/proj"; "42"] Demo.staged in
  Posix.node_at Demo.staged "/missing" = None ∧
  ∃ e, r.2 = Raised e ∧ stdout r.1 = [exn_str e] ∧
       contains "/missing" (exn_str e) = false.
Proof.
  split; [reflexivity|].
  exists (Exn "AssertionError" precondition_message). by vm_compute.
Qed.

(** C7, the defect: the extractor builds the archive's path from the
    staging directory as given, enters the staging directory, and opens
    that same path from there.  With the staging directory named by a
    relative path the archive is found by [os.path.exists] and then not by
    [tarfile.open]: nothing is extracted, [main] fails, and the process
    is left in the staging directory. *)
Lemma relative_staging_dir_not_extracted :
  let args := ["sge_runner.py"; "stage"; "/proj"; "42"; "--tarball"] in
  let r := Demo.run_main args Demo.staged_relative in
  Posix.node_at Demo.staged_relative "stage/packages.tar" =
    Some (File "tar:helper.mod") ∧
  Demo.tar "tar:helper.mod" = Ok [Member "helper.mod" (Some "def help(): pass")] ∧
  r.2 = Raised (Exn "IOError"
    "[Errno 2] No such file or directory: 'stage/packages.tar'") ∧
  trace r.1 = [EvExists "stage"; EvExists "stage/packages.tar"; EvChdir "stage";
               EvTarOpen "stage/packages.tar"] ∧
  Posix.lookup_node (w_fs r.1) ["home"; "luigi"; "stage"; "helper.mod"] = None ∧
  w_cwd Demo.staged_relative = ["home"; "luigi"] ∧
  w_cwd r.1 = ["home"; "luigi"; "stage"].
Proof. by vm_compute. Qed.

(** The same staging directory named by its absolute path is unpacked
    and the task runs. *)
Lemma absolute_staging_dir_extracted :
  let args := ["sge_runner.py"; "/home/luigi/stage"; "/proj"; "42"; "--tarball"] in
  let r := Demo.run_main args Demo.staged_relative in
  r.2 = Ok tt ∧
  Posix.lookup_node (w_fs r.1) ["home"; "luigi"; "stage"; "helper.mod"] =
    Some (File "def help(): pass") ∧
  w_cwd r.1 = ["home"; "luigi"].
Proof. by vm_compute. Qed.

(** An archive that carries the blob makes up for a blob that was not
    staged: the run of job 43 succeeds. *)
Lemma archive_may_bring_the_blob :
  let args := ["sge_runner.py"; "/stage"; "/proj"; "43"; "--tarball"] in
  let r := Demo.run_main args Demo.staged_shipping in
  Posix.node_at Demo.staged_shipping "/stage/43.job-instance.pickle" = None ∧
  r.2 = Ok tt ∧ stdout r.1 = [] ∧ EvWork ["home"; "luigi"] ∈ trace r.1.
Proof.
  split; [reflexivity|]. split; [by vm_compute|]. split; [by vm_compute|].
  vm_compute. repeat constructor.
Qed.

(** Paths that no file system call follows to the end: below a missing
    directory [..] leads nowhere, and a regular file has no [/] after it.
    [main] stops at the precondition check on both, although the strings
    resolve to the staging directory and to the blob. *)
Lemma paths_through_nothing :
  let up := "/missing/../stage" in
  let under := "/stage/42.job-instance.pickle/" in
  Path.resolve (w_cwd Demo.staged) up = Some ["stage"] ∧
  Posix.node_at Demo.staged up = None ∧
  Path.resolve (w_cwd Demo.staged) under = Some ["stage"; "42.job-instance.pickle"] ∧
  Posix.node_at Demo.staged under = None ∧
  (Demo.run_main ["sge_runner.py"; up; "/proj"; "42"] Demo.staged).2 =
    Raised (Exn "AssertionError" precondition_message) ∧
  (Demo.run_main ["sge_runner.py"; under; "/proj"; "42"] Demo.staged).2 =
    Raised (Exn "AssertionError" precondition_message).
Proof. by vm_compute. Qed.

(** ** Further properties on the concrete installation *)

Lemma main_without_arguments_witness :
  ["sge_runner.py"] !! 1 = @None string ∧
  (Demo.run_main ["sge_runner.py"] Demo.staged).2 =
    Raised (Exn "IndexError" "list index out of range") ∧
  stdout (Demo.run_main ["sge_runner.py"] Demo.staged).1 =
    stdout Demo.staged ++ ["list index out of range"] ∧
  trace (Demo.run_main ["sge_runner.py"] Demo.staged).1 = trace Demo.staged ∧
  w_env (Demo.run_main ["sge_runner.py"] Demo.staged).1 = w_env Demo.staged.
Proof.
  split; [reflexivity|].
  exact (main_without_arguments Demo.load Demo.work Demo.tar Demo.clock Demo.fmt
           Demo.fmt ["sge_runner.py"] Demo.staged eq_refl).
Defined.

Lemma main_without_job_id_witness :
  let args := ["sge_runner.py"; "/stage"; "/proj"] in
  args !! 1 = Some "/stage" ∧ is_Some (Posix.node_at Demo.staged "/stage") ∧
  args !! 3 = None ∧
  (Demo.run_main args Demo.staged).2 =
    Raised (Exn "IndexError" "list index out of range") ∧
  stdout (Demo.run_main args Demo.staged).1 =
    stdout Demo.staged ++ ["list index out of range"] ∧
  trace (Demo.run_main args Demo.staged).1 =
    trace Demo.staged ++ [EvExists "/stage"] ∧
  w_fs (Demo.run_main args Demo.staged).1 = w_fs Demo.staged ∧
  w_cwd (Demo.run_main args Demo.staged).1 = w_cwd Demo.staged ∧
  w_sys_path (Demo.run_main args Demo.staged).1 =
    w_sys_path Demo.staged ++ ["/proj"].
Proof.
  assert (is_Some (Posix.node_at Demo.staged "/stage")) as Hdir by (by exists Dir).
  split; [reflexivity|]. split; [exact Hdir|]. split; [reflexivity|].
  exact (main_without_job_id Demo.load Demo.work Demo.tar Demo.clock Demo.fmt
           Demo.fmt ["sge_runner.py"; "/stage"; "/proj"] Demo.staged "/stage"
           eq_refl Hdir eq_refl).
Defined.

Lemma staging_path_is_a_file_witness :
  let args := ["sge_runner.py"; "/stage/42.job-instance.pickle"; "/proj"; "42";
               "--tarball"] in
  let wd := "/stage/42.job-instance.pickle" in
  args !! 1 = Some wd ∧ args !! 2 = Some "/proj" ∧ args !! 3 = Some "42" ∧
  Posix.node_at Demo.staged wd = Some (File "job42") ∧
  Posix.node_at Demo.staged (Path.join wd "packages.tar") = None ∧
  (Demo.run_main args Demo.staged).2 = Raised (Posix.enotdir "OSError" wd) ∧
  trace (Demo.run_main args Demo.staged).1 =
    trace Demo.staged ++ [EvExists wd] ++
    (if bool_decide ("--tarball" ∈ args)
     then [EvExists (Path.join wd "packages.tar")] else []) ++
    [EvChdir wd].
Proof.
  do 5 (split; [reflexivity|]).
  exact (staging_path_is_a_file Demo.load Demo.work Demo.tar Demo.clock Demo.fmt
           Demo.fmt
           ["sge_runner.py"; "/stage/42.job-instance.pickle"; "/proj"; "42";
            "--tarball"]
           Demo.staged "/stage/42.job-instance.pickle" "/proj" "42" "job42"
           eq_refl eq_refl eq_refl eq_refl eq_refl).
Defined.

Lemma no_debug_no_diagnostics_witness :
  let args := ["sge_runner.py"; "/stage"; "/proj"; "42"; "--tarball"] in
  ("--debug" ∉ args) ∧
  stderr (Demo.run_main args Demo.staged).1 = stderr Demo.staged ∧
  clock_reads (Demo.run_main args Demo.staged).1 = clock_reads Demo.staged.
Proof.
  assert ("--debug" ∉ ["sge_runner.py"; "/stage"; "/proj"; "42"; "--tarball"])
    as Hout by (apply (bool_decide_unpack _); vm_compute; exact I).
  split; [exact Hout|].
  exact (no_debug_no_diagnostics Demo.load Demo.work Demo.tar Demo.clock Demo.fmt
           Demo.fmt _ Demo.staged Hout).
Defined.


Lemma debug_run_writes_three_lines_witness :
  let args := ["sge_runner.py"; "/stage"; "/proj"; "42"; "--tarball"; "--debug"] in
  "--debug" ∈ args ∧
  (Demo.run_main args Demo.staged).2 = Ok tt ∧
  stderr (Demo.run_main args Demo.staged).1 =
    stderr Demo.staged ++
    ["starting at " +:+ (Demo.fmt (Demo.clock 1)) +:+ nl;
     "extracted tar after " +:+ (Demo.fmt (Demo.clock 2 - Demo.clock 0)%Z) +:+
       " seconds" +:+ nl;
     "loaded pickled data after " +:+ (Demo.fmt (Demo.clock 3 - Demo.clock 0)%Z) +:+
       " seconds" +:+ nl] ∧
  clock_reads (Demo.run_main args Demo.staged).1 = 4.
Proof.
  assert ("--debug" ∈ ["sge_runner.py"; "/stage"; "/proj"; "42"; "--tarball";
                       "--debug"]) as Hin by (repeat constructor).
  assert ((Demo.run_main ["sge_runner.py"; "/stage"; "/proj"; "42"; "--tarball";
                          "--debug"] Demo.staged).2 = Ok tt) as Hok
    by (vm_compute; reflexivity).
  split; [exact Hin|]. split; [exact Hok|].
  exact (debug_run_writes_three_lines Demo.load Demo.work Demo.tar Demo.clock
           Demo.fmt Demo.fmt _ Demo.staged Hin Hok).
Defined.


Lemma extracted_files_come_from_the_archive_witness :
  let after := (_extract_packages_archive Demo.tar "/stage" Demo.staged).1 in
  let ms := [Member "helper.mod" (Some "def help(): pass")] in
  archive_at Demo.tar Demo.staged "/stage" ["stage"] ms ∧
  Posix.lookup_node (w_fs after) ["stage"; "helper.mod"] =
    Some (File "def help(): pass") ∧
  (Posix.lookup_node (w_fs Demo.staged) ["stage"; "helper.mod"] =
     Some (File "def help(): pass") ∨
   ∃ mb, mb ∈ ms ∧ Path.resolve ["stage"] (m_name mb) = Some ["stage"; "helper.mod"] ∧
         m_data mb = Some "def help(): pass").
Proof.
  assert (archive_at Demo.tar Demo.staged "/stage" ["stage"]
            [Member "helper.mod" (Some "def help(): pass")]) as Har
    by (split; [reflexivity | by exists "tar:helper.mod"]).
  assert (Posix.lookup_node
            (w_fs (_extract_packages_archive Demo.tar "/stage" Demo.staged).1)
            ["stage"; "helper.mod"] = Some (File "def help(): pass")) as Hfile
    by (vm_compute; reflexivity).
  split; [exact Har|]. split; [exact Hfile|].
  exact (extracted_files_come_from_the_archive Demo.tar "/stage" Demo.staged
           ["stage"] ["stage"; "helper.mod"] _ "def help(): pass" Har Hfile).
Defined.

Lemma absolute_staging_dir_unpacked_witness :
  let after := (_extract_packages_archive Demo.tar "/stage" Demo.staged).1 in
  let ms := [Member "helper.mod" (Some "def help(): pass")] in
  Path.startswith_slash "/stage" = true ∧
  Path.canonical (w_cwd Demo.staged) = true ∧
  Path.resolve (w_cwd Demo.staged) "/stage" = Some ["stage"] ∧
  Posix.node_at Demo.staged (Path.join "/stage" "packages.tar") =
    Some (File "tar:helper.mod") ∧
  Demo.tar "tar:helper.mod" = Ok ms ∧
  _extract_packages_archive Demo.tar "/stage" Demo.staged = (after, Ok tt) ∧
  w_cwd after = w_cwd Demo.staged ∧
  ∀ mb, mb ∈ ms →
    ∃ l, Path.resolve ["stage"] (m_name mb) = Some l ∧
         is_Some (Posix.lookup_node (w_fs after) l).
Proof.
  assert (_extract_packages_archive Demo.tar "/stage" Demo.staged =
          ((_extract_packages_archive Demo.tar "/stage" Demo.staged).1, Ok tt))
    as Hrun.
  { assert (∀ x : world * result unit, x.2 = Ok tt → x = (x.1, Ok tt)) as Hpair
      by (intros [? ?] ?; simpl in *; congruence).
    apply Hpair. vm_compute. reflexivity. }
  do 5 (split; [reflexivity|]). split; [exact Hrun|].
  exact (absolute_staging_dir_unpacked Demo.tar "/stage" Demo.staged _ ["stage"]
           "tar:helper.mod" _ eq_refl eq_refl eq_refl eq_refl eq_refl Hrun).
Defined.

(** ** The job log on the concrete installation *)

Lemma log_in_its_directory_witness :
  (- 10 ^ 7 < 1234567 < 10 ^ 8)%Z ∧
  ∃ levels, length levels = 4%nat ∧
    Path.resolve ["home"; "luigi"] (JobLog.log_dir (JobLog.format_08_2d 1234567)) =
      Some (JobLog.base_loc ++ levels) ∧
    Path.resolve ["home"; "luigi"] (JobLog.log_file (JobLog.format_08_2d 1234567)) =
      Some (JobLog.base_loc ++ levels ++ ["rnr.txt"]).
Proof.
  split; [lia|]. apply (log_in_its_directory 1234567 ["home"; "luigi"]). lia.
Defined.

Lemma nine_digit_log_beside_directory_witness :
  (10 ^ 8 ≤ 123456789 < 10 ^ 9)%Z ∧
  ∃ levels c, length levels = 4%nat ∧
    Path.resolve ["home"; "luigi"] (JobLog.log_dir (JobLog.format_08_2d 123456789)) =
      Some (JobLog.base_loc ++ levels ++ [String c ""]) ∧
    Path.resolve ["home"; "luigi"] (JobLog.log_file (JobLog.format_08_2d 123456789)) =
      Some (JobLog.base_loc ++ levels ++ [String c "rnr.txt"]).
Proof.
  split; [lia|]. apply (nine_digit_log_beside_directory 123456789 ["home"; "luigi"]). lia.
Defined.

Lemma rnr_log_writes_the_log_witness :
  let args := ["sge_runner.py"; "/stage"; "/proj"; "1234567"] in
  let run := JobLog.demo_run JobLog.demo_environ args Demo.staged in
  JobLog.demo_environ !! "HOSTNAME" = Some "node17" ∧
  JobLog.demo_int (JobLog.job_id_text JobLog.demo_environ) = Ok 1234567%Z ∧
  run.2 = Ok tt ∧
  Posix.node_at run.1 (JobLog.log_file (JobLog.format_08_2d 1234567)) =
    Some (File (JobLog.log_text JobLog.demo_str_list JobLog.demo_str_environ
                  JobLog.demo_environ args "node17")).
Proof.
  intros args run.
  assert (JobLog.demo_environ !! "HOSTNAME" = Some "node17") as Hhost
    by (vm_compute; reflexivity).
  assert (JobLog.demo_int (JobLog.job_id_text JobLog.demo_environ) = Ok 1234567%Z)
    as Hz by (vm_compute; reflexivity).
  assert (run.2 = Ok tt) as Hok by (vm_compute; reflexivity).
  assert (run = (run.1, Ok tt)) as Hrun
    by (rewrite <- Hok; apply surjective_pairing).
  split; [exact Hhost|]. split; [exact Hz|]. split; [exact Hok|].
  exact (rnr_log_writes_the_log JobLog.demo_int JobLog.demo_str_list
           JobLog.demo_str_environ JobLog.demo_environ args "node17" 1234567
           Demo.staged run.1 Hhost Hz Hrun).
Defined.

Lemma rnr_log_without_hostname_witness :
  let args := ["sge_runner.py"; "/stage"; "/proj"; "1234567"] in
  let run := JobLog.demo_run JobLog.demo_environ_no_host args Demo.staged in
  JobLog.demo_environ_no_host !! "HOSTNAME" = None ∧
  JobLog.demo_int (JobLog.job_id_text JobLog.demo_environ_no_host) = Ok 1234567%Z ∧
  ∃ e, run.2 = Raised e ∧
    ((exn_class e = "OSError" ∨ exn_class e = "IOError") ∨
     (e = Exn "KeyError" "'HOSTNAME'" ∧
      Posix.node_at run.1 (JobLog.log_file (JobLog.format_08_2d 1234567)) =
        Some (File ""))).
Proof.
  intros args run.
  assert (JobLog.demo_environ_no_host !! "HOSTNAME" = None) as Hhost
    by (vm_compute; reflexivity).
  assert (JobLog.demo_int (JobLog.job_id_text JobLog.demo_environ_no_host)
            = Ok 1234567%Z) as Hz by (vm_compute; reflexivity).
  split; [exact Hhost|]. split; [exact Hz|].
  exact (rnr_log_without_hostname JobLog.demo_int JobLog.demo_str_list
           JobLog.demo_str_environ JobLog.demo_environ_no_host args 1234567
           Demo.staged Hhost Hz).
Defined.

Lemma rnr_log_overwrites_only_the_log_witness :
  let args := ["sge_runner.py"; "/stage"; "/proj"; "1234567"] in
  let run := JobLog.demo_run JobLog.demo_environ args Demo.staged in
  let l := JobLog.base_loc ++ ["01"; "23"; "45"; "67"; "rnr.txt"] in
  let k := ["stage"; "packages.tar"] in
  JobLog.demo_int (JobLog.job_id_text JobLog.demo_environ) = Ok 1234567%Z ∧
  Path.resolve (w_cwd Demo.staged) (JobLog.log_file (JobLog.format_08_2d 1234567)) =
    Some l ∧
  k ≠ l ∧
  Posix.lookup_node (w_fs Demo.staged) k = Some (File "tar:helper.mod") ∧
  Posix.lookup_node (w_fs run.1) k = Some (File "tar:helper.mod").
Proof.
  intros args run l k.
  assert (JobLog.demo_int (JobLog.job_id_text JobLog.demo_environ) = Ok 1234567%Z)
    as Hz by (vm_compute; reflexivity).
  assert (Path.resolve (w_cwd Demo.staged)
            (JobLog.log_file (JobLog.format_08_2d 1234567)) = Some l) as Hl
    by (vm_compute; reflexivity).
  assert (k ≠ l) as Hne by (vm_compute; discriminate).
  assert (Posix.lookup_node (w_fs Demo.staged) k = Some (File "tar:helper.mod"))
    as Hk by (vm_compute; reflexivity).
  split; [exact Hz|]. split; [exact Hl|]. split; [exact Hne|]. split; [exact Hk|].
  exact (rnr_log_overwrites_only_the_log JobLog.demo_int JobLog.demo_str_list
           JobLog.demo_str_environ JobLog.demo_environ args 1234567 Demo.staged
           l k _ Hz Hl Hne Hk).
Defined.

Lemma rnr_log_repeatable_witness :
  let args := ["sge_runner.py"; "/stage"; "/proj"; "1234567"] in
  let run := JobLog.demo_run JobLog.demo_environ args Demo.staged in
  run.2 = Ok tt ∧
  JobLog.demo_run JobLog.demo_environ args run.1 = (run.1, Ok tt).
Proof.
  intros args run.
  assert (run.2 = Ok tt) as Hok by (vm_compute; reflexivity).
  assert (run = (run.1, Ok tt)) as Hrun
    by (rewrite <- Hok; apply surjective_pairing).
  split; [exact Hok|].
  exact (rnr_log_repeatable JobLog.demo_int JobLog.demo_str_list
           JobLog.demo_str_environ JobLog.demo_environ args Demo.staged run.1 Hrun).
Defined.

Lemma rnr_log_returns_witness :
  let args := ["sge_runner.py"; "/stage"; "/proj"; "1234567"] in
  let ld := JobLog.base_loc ++ ["01"; "23"; "45"; "67"] in
  JobLog.demo_environ !! "HOSTNAME" = Some "node17" ∧
  JobLog.demo_int (JobLog.job_id_text JobLog.demo_environ) = Ok 1234567%Z ∧
  (- 10 ^ 7 < 1234567 < 10 ^ 8)%Z ∧
  Path.resolve (w_cwd Demo.staged) (JobLog.log_dir (JobLog.format_08_2d 1234567)) =
    Some ld ∧
  (∀ k d, k `prefix_of` ld → Posix.lookup_node (w_fs Demo.staged) k ≠ Some (File d)) ∧
  Posix.lookup_node (w_fs Demo.staged) (ld ++ ["rnr.txt"]) ≠ Some Dir ∧
  ∃ w', JobLog.demo_run JobLog.demo_environ args Demo.staged = (w', Ok tt).
Proof.
  intros args ld.
  assert (JobLog.demo_environ !! "HOSTNAME" = Some "node17") as Hhost
    by (vm_compute; reflexivity).
  assert (JobLog.demo_int (JobLog.job_id_text JobLog.demo_environ) = Ok 1234567%Z)
    as Hz by (vm_compute; reflexivity).
  assert (- 10 ^ 7 < 1234567 < 10 ^ 8)%Z as Hrange by lia.
  assert (Path.resolve (w_cwd Demo.staged)
            (JobLog.log_dir (JobLog.format_08_2d 1234567)) = Some ld) as Hld
    by (vm_compute; reflexivity).
  assert (∀ k d, k `prefix_of` ld →
            Posix.lookup_node (w_fs Demo.staged) k ≠ Some (File d)) as Hclear.
  { apply clear_way_check. vm_compute. reflexivity. }
  assert (Posix.lookup_node (w_fs Demo.staged) (ld ++ ["rnr.txt"]) ≠ Some Dir)
    as Hlog by (vm_compute; discriminate).
  split; [exact Hhost|]. split; [exact Hz|]. split; [exact Hrange|].
  split; [exact Hld|]. split; [exact Hclear|]. split; [exact Hlog|].
  exact (rnr_log_returns JobLog.demo_int JobLog.demo_str_list
           JobLog.demo_str_environ JobLog.demo_environ args "node17" 1234567
           Demo.staged ld Hhost Hz Hrange Hld Hclear Hlog).
Defined.
